(** * The Zintle waitlist server

    A shallow embedding of the request handlers of [server.js] (the signup
    pipeline, the two statistics endpoints, the progress-update endpoint) and
    of [services/emailService.js] (welcome mail, batched progress update),
    followed by the properties proved about them.

    Conventions.
    - Instants are [Z] milliseconds since the epoch (what [Date.getTime]
      returns); counts are [Z]; other JavaScript numbers are the rationals
      [Q] that doubles are, and a division or a multiplication rounds its
      result to the nearest double ([binary64]).
    - Strings are sequences of bytes; text outside ASCII is UTF-8.
    - The database behind Prisma is a record of two tables; a query that
      throws is an explicit failure chosen by the caller of the model.
    - The mail transport (the Resend client) is a function from the number
      of calls made so far and the message to an outcome; every call and
      every timer is recorded in a trace.
    - Console output and the HTML and text bodies of the mails are not
      modelled. *)

From Stdlib Require Import List ZArith QArith Qround Qabs Qpower String Ascii Bool.
From Stdlib Require Import Lia Lqa Arith.
From Stdlib Require Import Permutation Sorted DecimalString.
Import ListNotations.

Local Open Scope string_scope.
Local Open Scope list_scope.
Local Open Scope Z_scope.

(** ** What the host platform provides

    Library functions the handlers call and whose code is not part of the
    repository. *)

(** What Joi's number type makes of a string before it checks it: the
    string does not read as a number and stays a string, or it reads as a
    number that a double does not hold as written, or it is replaced by the
    number it reads as. *)
Inductive Coerced :=
| NotNumeric
| UnsafeNumber
| NumberRead (x : Q).

Class Host := {
  (** the address check behind [Joi.string().email()] *)
  isEmail : string -> bool;
  (** the conversion of a string by [Joi.number()] *)
  toNumber : string -> Coerced;
  (** [Number.prototype.toString] *)
  Number_toString : Q -> string;
  (** local time minus UTC, in milliseconds, at an instant (the server's
      time zone, used by [Date.prototype.getHours]) *)
  localOffset : Z -> Z
}.

(** ** Request validation ([waitlistSchema]) *)

(** A value of a parsed JSON document. A number is the double it was read
    as; a literal beyond the doubles is read as an infinity. The
    properties of an object are its own ones, in the order of
    [Object.keys]. *)
#[warnings="-register-all"]
Inductive JSON :=
| JNull
| JBool (b : bool)
| JNumber (x : Q)
| JInfinity (negative : bool)
| JString (s : string)
| JArray (items : list JSON)
| JObject (props : list (string * JSON)).

(** The own property [k] of an object. *)
Fixpoint own (k : string) (props : list (string * JSON)) : option JSON :=
  match props with
  | [] => None
  | (k', v) :: props' => if (k' =? k)%string then Some v else own k props'
  end.

(** [req.body] of a request that carries a JSON document, as
    [express.json()] parses it: an object or an array. *)
Module Body.

Inductive t :=
| object (props : list (string * JSON))
| array (items : list JSON).

(** Joi validates a shallow copy of the object, made with
    [Object.assign] on a fresh object. An own property [__proto__] of the
    body is not copied by it but assigned: the copy does not have the key,
    and when the value is an object it becomes the prototype of the
    copy. *)

(** [Object.keys] of the copy. *)
Definition keys (props : list (string * JSON)) : list string :=
  filter (fun k => negb (k =? "__proto__")%string) (map fst props).

(** [copy[k]], for a key [k] other than [__proto__] that
    [Object.prototype] and [Array.prototype] do not have: [None] is
    [undefined]. *)
Definition get (k : string) (props : list (string * JSON)) : option JSON :=
  match own k props with
  | Some v => Some v
  | None =>
      match own "__proto__" props with
      | Some (JObject proto) => own k proto
      | _ => None
      end
  end.

(** What Joi reads under [email]. *)
Definition email (b : t) : option JSON :=
  match b with
  | object props => get "email" props
  | array _ => None
  end.

End Body.

Module Joi.

(** The [type] of a Joi validation error detail. *)
Inductive error_type :=
| object_base
| object_unknown
| any_required
| string_base
| string_empty
| string_email
| number_base
| number_infinity
| number_unsafe
| number_min
| number_max.

(** One entry of [error.details]: the path of the offending value (empty
    for the body itself) and the rule it broke. Joi stops at the first
    error ([abortEarly] is on by default). *)
Record detail := { path : list string; type : error_type }.

(** [Joi.string().required()], with [.email()] when [email] is set: the key
    must be there, must hold a string, not the empty one, and must pass the
    address check. *)
Definition string_required `{Host} (email : bool) (key : string)
  (v : option JSON) : detail + string :=
  match v with
  | None => inl {| path := [key]; type := any_required |}
  | Some (JString s) =>
      if (s =? "")%string then inl {| path := [key]; type := string_empty |}
      else if email && negb (isEmail s)
           then inl {| path := [key]; type := string_email |}
           else inr s
  | Some _ => inl {| path := [key]; type := string_base |}
  end.

(** [Number.MAX_SAFE_INTEGER] *)
Definition MAX_SAFE_INTEGER : Z := 2 ^ 53 - 1.

(** The checks of [Joi.number().min(lo).max(hi)] on a finite number: it
    must not lie beyond the safe integers, then the rules run in the order
    they were added. *)
Definition number_rules (lo hi : Q) (key : string) (q : Q) : detail + Q :=
  if negb (Qle_bool q (inject_Z MAX_SAFE_INTEGER))
     || negb (Qle_bool (inject_Z (- MAX_SAFE_INTEGER)) q)
  then inl {| path := [key]; type := number_unsafe |}
  else if negb (Qle_bool lo q) then inl {| path := [key]; type := number_min |}
  else if negb (Qle_bool q hi) then inl {| path := [key]; type := number_max |}
  else inr q.

(** [Joi.number().min(lo).max(hi).required()]: a string is first
    converted, the key must be there and must hold a finite number. *)
Definition number_required `{Host} (lo hi : Q) (key : string)
  (v : option JSON) : detail + Q :=
  match v with
  | None => inl {| path := [key]; type := any_required |}
  | Some (JNumber q) => number_rules lo hi key q
  | Some (JInfinity _) => inl {| path := [key]; type := number_infinity |}
  | Some (JString s) =>
      match toNumber s with
      | NotNumeric => inl {| path := [key]; type := number_base |}
      | UnsafeNumber => inl {| path := [key]; type := number_unsafe |}
      | NumberRead q => number_rules lo hi key q
      end
  | Some _ => inl {| path := [key]; type := number_base |}
  end.

(** The keys of the copy that the schema does not list. *)
Definition unknown_keys (schema : list string) (props : list (string * JSON))
  : list string :=
  filter (fun k => negb (existsb (String.eqb k) schema)) (Body.keys props).

End Joi.

(** The validated [value] the handler destructures. *)
Module Value.
Record t := {
  email : string;
  primarySkill : string;
  biggestChallenge : string;
  interestLevel : Q
}.
End Value.

(** The keys of [waitlistSchema]. *)
Definition waitlistSchema_keys : list string :=
  ["email"; "primarySkill"; "biggestChallenge"; "interestLevel"].

(** [waitlistSchema.validate(req.body)]: the body must be an object, not
    an array; the keys are checked in the order the schema lists them;
    then a key the schema does not list is refused. *)
Definition waitlistSchema_validate `{Host} (b : Body.t) : Joi.detail + Value.t :=
  match b with
  | Body.array _ => inl {| Joi.path := []; Joi.type := Joi.object_base |}
  | Body.object props =>
  match Joi.string_required true "email" (Body.get "email" props) with
  | inl e => inl e
  | inr email =>
  match Joi.string_required false "primarySkill"
          (Body.get "primarySkill" props) with
  | inl e => inl e
  | inr primarySkill =>
  match Joi.string_required false "biggestChallenge"
          (Body.get "biggestChallenge" props) with
  | inl e => inl e
  | inr biggestChallenge =>
  match Joi.number_required 1%Q 5%Q "interestLevel"
          (Body.get "interestLevel" props) with
  | inl e => inl e
  | inr interestLevel =>
  match Joi.unknown_keys waitlistSchema_keys props with
  | k :: _ => inl {| Joi.path := [k]; Joi.type := Joi.object_unknown |}
  | [] =>
      inr {| Value.email := email;
             Value.primarySkill := primarySkill;
             Value.biggestChallenge := biggestChallenge;
             Value.interestLevel := interestLevel |}
  end end end end end
  end.

(** ** The store (the tables Prisma reads and writes) *)

Module User.
(** Modelled from the spec: the Prisma schema is not among the sources. It
    reads [users(id PK, email UNIQUE, createdAt, updatedAt)]; the database
    fills [id] and the two instants when a row is created. *)
Record t := { id : nat; email : string; createdAt : Z; updatedAt : Z }.
End User.

(** The three survey questions a signup answers. *)
Inductive Question := primary_skill | biggest_challenge | interest_level.

(** The [questionId] column. *)
Definition questionId_of (q : Question) : string :=
  match q with
  | primary_skill => "primary_skill"
  | biggest_challenge => "biggest_challenge"
  | interest_level => "interest_level"
  end.

(** The [question] column, as the handler writes it. *)
Definition question_text (q : Question) : string :=
  match q with
  | primary_skill => "What's your primary creative skill?"
  | biggest_challenge => "What's your biggest challenge as a freelancer?"
  | interest_level => "How interested are you in skill-swapping?"
  end.

Module Response.
(** Modelled from the spec: the Prisma schema is not among the sources. It
    reads [responses(id PK, userId FK -> users, questionId, question,
    answer, createdAt)]. *)
Record t := {
  id : nat;
  userId : nat;
  questionId : string;
  question : string;
  answer : string;
  createdAt : Z
}.
End Response.

(** Rows are kept in insertion order. *)
Record Store := { users : list User.t; responses : list Response.t }.

Definition empty_store : Store := {| users := []; responses := [] |}.

(** The queries of the signup handler; [fails q = true] means that the
    query throws (connection lost, constraint added by hand, ...). *)
Inductive Query :=
| FindUnique
| UserCreate
| ResponseCreate (q : Question)
| Count.

(** A key no row of the table has yet. *)
Definition fresh_id (ids : list nat) : nat := S (list_max ids).

(** [prisma.user.count()] *)
Definition user_count (s : Store) : Z := Z.of_nat (List.length (users s)).

(** [prisma.user.count({ where: { createdAt: { gte } } })] *)
Definition user_count_gte (gte : Z) (s : Store) : Z :=
  Z.of_nat (List.length (filter (fun u => gte <=? User.createdAt u) (users s))).

(** [prisma.user.findUnique({ where: { email } })]: exact match on the
    unique column. *)
Definition user_findUnique (email : string) (s : Store) : option User.t :=
  find (fun u => (User.email u =? email)%string) (users s).

(** *** Interactive transactions

    A step of a transaction works on the transaction's own view of the
    store and may throw; [None] is a throw. *)
Definition Tx (A : Type) : Type := Store -> option (A * Store).

Definition tx_ret {A} (a : A) : Tx A := fun s => Some (a, s).

Definition tx_bind {A B} (m : Tx A) (k : A -> Tx B) : Tx B :=
  fun s => match m s with
           | Some (a, s') => k a s'
           | None => None
           end.

Notation "x <- m ;; k" := (tx_bind m (fun x => k))
  (at level 61, m at next level, right associativity).

(** [prisma.$transaction(async tx => ...)]: the callback's writes are
    committed when it returns and discarded when it throws. *)
Definition transaction {A} (body : Tx A) (s : Store) : option A * Store :=
  match body s with
  | Some (a, s') => (Some a, s')
  | None => (None, s)
  end.

(** [tx.user.create({ data: { email } })]: the row gets a fresh id and the
    current instant; the unique index on [email] rejects a second row with
    the same address. *)
Definition user_create (fails : Query -> bool) (now : Z) (email : string)
  : Tx User.t :=
  fun s =>
    if fails UserCreate then None
    else if existsb (fun u => (User.email u =? email)%string) (users s) then None
    else
      let u := {| User.id := fresh_id (map User.id (users s));
                  User.email := email;
                  User.createdAt := now;
                  User.updatedAt := now |} in
      Some (u, {| users := users s ++ [u]; responses := responses s |}).

(** [tx.response.create({ data: { userId, questionId, question, answer } })]:
    the foreign key requires the user row. *)
Definition response_create (fails : Query -> bool) (now : Z) (userId : nat)
  (q : Question) (answer : string) : Tx Response.t :=
  fun s =>
    if fails (ResponseCreate q) then None
    else if negb (existsb (fun u => (User.id u =? userId)%nat) (users s)) then None
    else
      let r := {| Response.id := fresh_id (map Response.id (responses s));
                  Response.userId := userId;
                  Response.questionId := questionId_of q;
                  Response.question := question_text q;
                  Response.answer := answer;
                  Response.createdAt := now |} in
      Some (r, {| users := users s; responses := responses s ++ [r] |}).

(** The callback given to [prisma.$transaction] by the signup handler: the
    user row, then the three answers ([Promise.all] rejects as soon as one
    of them does). *)
Definition create_user_and_responses `{Host} (fails : Query -> bool) (now : Z)
  (v : Value.t) : Tx (User.t * list Response.t) :=
  user <- user_create fails now (Value.email v) ;;
  r1 <- response_create fails now (User.id user) primary_skill
          (Value.primarySkill v) ;;
  r2 <- response_create fails now (User.id user) biggest_challenge
          (Value.biggestChallenge v) ;;
  r3 <- response_create fails now (User.id user) interest_level
          (Number_toString (Value.interestLevel v)) ;;
  tx_ret (user, [r1; r2; r3]).

(** ** Effects outside the store

    What a handler does to the outside world, in the order it does it: calls
    of the mail transport, timers it waits for, and messages pushed to the
    open WebSocket clients. *)

Module Mail.
Record t := { from : string; to : list string; subject : string }.
End Mail.

(** A message of [broadcastUpdate]. *)
Inductive Message :=
| counter_update (count : Z)
| spots_update (spots : Z).

Inductive Event :=
| Send (m : Mail.t)
| Delay (ms : Z)
| Broadcast (msg : Message).

Definition Trace := list Event.

(** What [resend.emails.send] answers: [{ data }], [{ error }] with its
    optional [message], or a rejected promise with the thrown error's
    optional [message]. *)
Inductive Outcome :=
| Sent
| Rejected (message : option string)
| Thrown (message : option string).

(** The transport: it sees how many mails it was handed before and the mail. *)
Definition Transport := nat -> Mail.t -> Outcome.

(** The mails handed to the transport, oldest first. *)
Definition sends (tr : Trace) : list Mail.t :=
  flat_map (fun e => match e with Send m => [m] | _ => [] end) tr.

Definition IO (A : Type) : Type := Trace -> A * Trace.

Definition io_ret {A} (a : A) : IO A := fun tr => (a, tr).

Definition io_bind {A B} (m : IO A) (k : A -> IO B) : IO B :=
  fun tr => let (a, tr') := m tr in k a tr'.

Notation "x <~ m ;; k" := (io_bind m (fun x => k))
  (at level 61, m at next level, right associativity).

(** [await this.resend.emails.send(mail)] *)
Definition emails_send (T : Transport) (m : Mail.t) : IO Outcome :=
  fun tr => (T (List.length (sends tr)) m, tr ++ [Send m]).

(** [await new Promise(resolve => setTimeout(resolve, ms))] *)
Definition sleep (ms : Z) : IO unit := fun tr => (tt, tr ++ [Delay ms]).

(** [broadcastUpdate(type, data)] *)
Definition broadcastUpdate (msg : Message) : IO unit :=
  fun tr => (tt, tr ++ [Broadcast msg]).

(** ** The mail service ([EmailService]) *)

(** The environment variables the constructor reads. *)
Record Env := {
  RESEND_API_KEY : option string;
  FROM_EMAIL : option string;
  FROM_NAME : option string;
  NODE_ENV : option string
}.

(** JavaScript truthiness of a string that may be undefined. *)
Definition truthy (v : option string) : bool :=
  match v with
  | Some s => negb (s =? "")%string
  | None => false
  end.

(** [v || d] *)
Definition or_else (v : option string) (d : string) : string :=
  match v with
  | Some s => if (s =? "")%string then d else s
  | None => d
  end.

Record EmailService := {
  fromEmail : string;
  fromName : string;
  isConfigured : bool;
  isDevelopment : bool
}.

(** The constructor: [this.resend] exists exactly when [isConfigured]. *)
Definition new_EmailService (env : Env) : EmailService :=
  {| fromEmail := or_else (FROM_EMAIL env) "onboarding@resend.dev";
     fromName := or_else (FROM_NAME env) "Zintle Team";
     isConfigured := truthy (RESEND_API_KEY env);
     isDevelopment :=
       match NODE_ENV env with
       | Some s => (s =? "development")%string
       | None => false
       end |}.

(** The [error] field of a result: a message, the error object itself, or
    [undefined]. *)
Inductive ErrorValue :=
| Text (s : string)
| ErrorObject
| Undefined.

(** [error.message || error] *)
Definition message_or_error (message : option string) : ErrorValue :=
  if truthy message then Text (or_else message "") else ErrorObject.

(** [error.message] *)
Definition message_of (message : option string) : ErrorValue :=
  match message with
  | Some s => Text s
  | None => Undefined
  end.

(** [message?.includes(sub)] *)
Definition includes (sub : string) (message : option string) : bool :=
  match message with
  | Some s => match String.index 0 sub s with Some _ => true | None => false end
  | None => false
  end.

(** The second argument of [sendWelcomeEmail]; it only feeds the bodies of
    the mail. *)
Module UserData.
Record t := {
  position : Z;
  primarySkill : string;
  biggestChallenge : string;
  interestLevel : Q;
  email : string
}.
End UserData.

(** What [sendWelcomeEmail] returns; the [message] and [data] that come
    with a success are left out. *)
Module WelcomeResult.
Record t := { success : bool; error : option ErrorValue }.
End WelcomeResult.

Definition welcome_ok : WelcomeResult.t :=
  {| WelcomeResult.success := true; WelcomeResult.error := None |}.

Definition welcome_failed (e : ErrorValue) : WelcomeResult.t :=
  {| WelcomeResult.success := false; WelcomeResult.error := Some e |}.

(** [sendWelcomeEmail(userEmail, userData)] *)
Definition sendWelcomeEmail (svc : EmailService) (T : Transport)
  (userEmail : string) (userData : UserData.t) : IO WelcomeResult.t :=
  if negb (isConfigured svc) then io_ret welcome_ok
  else
    let emailData :=
      {| Mail.from := if isDevelopment svc then "onboarding@resend.dev"
                      else (fromName svc ++ " <" ++ fromEmail svc ++ ">")%string;
         Mail.to := [userEmail];
         Mail.subject := "🚀 Welcome to Zintle's Private Beta!" |} in
    r <~ emails_send T emailData ;;
    match r with
    | Sent => io_ret welcome_ok
    | Rejected message =>
        if includes "domain is not verified" message then
          let retryData :=
            {| Mail.from := "onboarding@resend.dev";
               Mail.to := Mail.to emailData;
               Mail.subject := Mail.subject emailData |} in
          r' <~ emails_send T retryData ;;
          match r' with
          | Sent => io_ret welcome_ok
          | Rejected message' => io_ret (welcome_failed (message_or_error message'))
          | Thrown message' => io_ret (welcome_failed (message_of message'))
          end
        else io_ret (welcome_failed (message_or_error message))
    | Thrown message => io_ret (welcome_failed (message_of message))
    end.

(** One entry of [results]. *)
Module Delivery.
Record t := { email : string; success : bool; error : option ErrorValue }.
End Delivery.

(** What [sendProgressUpdate] returns; a field the [return] statement does
    not set is [None]. *)
Module UpdateResult.
Record t := {
  success : bool;
  sent : Z;
  total : option Z;
  results : option (list Delivery.t)
}.
End UpdateResult.

Definition batchSize : nat := 50.

(** [emails.slice(i, j)] *)
Definition slice {A} (i j : nat) (l : list A) : list A :=
  firstn (j - i) (skipn i l).

(** What one batch adds to [results], from the transport's answer. *)
Definition batch_results (r : Outcome) (batch : list string) : list Delivery.t :=
  match r with
  | Sent =>
      map (fun email => {| Delivery.email := email;
                           Delivery.success := true;
                           Delivery.error := None |}) batch
  | Rejected message | Thrown message =>
      map (fun email => {| Delivery.email := email;
                           Delivery.success := false;
                           Delivery.error := Some (message_of message) |}) batch
  end.

(** The [for (let i = 0; i < emails.length; i += batchSize)] loop of
    [sendProgressUpdate], from index [i] with [results] so far. [fuel] bounds
    the number of iterations. *)
Fixpoint send_batches (fuel : nat) (svc : EmailService) (T : Transport)
  (emails : list string) (subject : string) (i : nat)
  (results : list Delivery.t) : IO (list Delivery.t) :=
  match fuel with
  | O => io_ret results
  | S fuel' =>
      if (i <? List.length emails)%nat then
        let batch := slice i (i + batchSize) emails in
        r <~ emails_send T
               {| Mail.from := (fromName svc ++ " <" ++ fromEmail svc ++ ">")%string;
                  Mail.to := batch;
                  Mail.subject := subject |} ;;
        let results' := results ++ batch_results r batch in
        _ <~ (if (i + batchSize <? List.length emails)%nat
              then sleep 1000 else io_ret tt) ;;
        send_batches fuel' svc T emails subject (i + batchSize) results'
      else io_ret results
  end.

(** [sendProgressUpdate(emails, subject, content)]; the loop runs at most
    once per recipient, so [length emails] iterations are enough. *)
Definition sendProgressUpdate (svc : EmailService) (T : Transport)
  (emails : list string) (subject content : string) : IO UpdateResult.t :=
  if negb (isConfigured svc) then
    io_ret {| UpdateResult.success := true;
              UpdateResult.sent := Z.of_nat (List.length emails);
              UpdateResult.total := None;
              UpdateResult.results := None |}
  else
    results <~ send_batches (List.length emails) svc T emails subject 0 [] ;;
    let successful := List.length (filter Delivery.success results) in
    io_ret {| UpdateResult.success := true;
              UpdateResult.sent := Z.of_nat successful;
              UpdateResult.total := Some (Z.of_nat (List.length emails));
              UpdateResult.results := Some results |}.

(** ** The signup pipeline ([POST /api/waitlist]) *)

Inductive WaitlistReply :=
| Created (userId : nat) (emailSent : bool) (position : Z)   (* 201 *)
| ValidationFailed (details : Joi.detail)                    (* 400 *)
| AlreadyRegistered                                          (* 409 *)
| InternalError.                                             (* 500 *)

(** The handler, on the body of the request, at instant [now]. A query that
    throws lands in the [catch] and answers 500. *)
Definition post_waitlist `{Host} (svc : EmailService) (T : Transport)
  (fails : Query -> bool) (now : Z) (body : Body.t) (s : Store)
  : IO (WaitlistReply * Store) :=
  match waitlistSchema_validate body with
  | inl details => io_ret (ValidationFailed details, s)
  | inr value =>
      if fails FindUnique then io_ret (InternalError, s)
      else
        match user_findUnique (Value.email value) s with
        | Some existingUser => io_ret (AlreadyRegistered, s)
        | None =>
            match transaction (create_user_and_responses fails now value) s with
            | (None, s') => io_ret (InternalError, s')
            | (Some result, s') =>
                if fails Count then io_ret (InternalError, s')
                else
                  let totalSignups := user_count s' in
                  emailResult <~ sendWelcomeEmail svc T (Value.email value)
                    {| UserData.position := totalSignups;
                       UserData.primarySkill := Value.primarySkill value;
                       UserData.biggestChallenge := Value.biggestChallenge value;
                       UserData.interestLevel := Value.interestLevel value;
                       UserData.email := Value.email value |} ;;
                  let spotsLeft := Z.max (500 - totalSignups) 0 in
                  _ <~ broadcastUpdate (counter_update totalSignups) ;;
                  _ <~ broadcastUpdate (spots_update spotsLeft) ;;
                  io_ret (Created (User.id (fst result))
                                  (WelcomeResult.success emailResult)
                                  totalSignups, s')
            end
        end
  end.

(** ** [GET /api/stats] *)

Module Stats.
Record t := { totalSignups : Z; spotsLeft : Z }.
End Stats.

(** [None] is the 500 answer. *)
Definition get_stats (fails : Query -> bool) (s : Store) : option Stats.t :=
  if fails Count then None
  else
    let totalSignups := user_count s in
    let spotsLeft := Z.max (500 - totalSignups) 0 in
    Some {| Stats.totalSignups := totalSignups; Stats.spotsLeft := spotsLeft |}.

(** ** [POST /api/send-update] *)



(** ** The aggregation ([GET /api/analytics/comprehensive])

    The part of the report that is computed from the users table. *)

(** [24 * 60 * 60 * 1000] *)
Definition DAY : Z := 24 * 60 * 60 * 1000.

(** The calendar date [d.toISOString().split('T')[0]] of an instant, named
    by the number of whole UTC days since the epoch (one number per ISO
    date). *)
Definition isoDate (t : Z) : Z := t / DAY.

(** [new Date(dateStr)]: midnight UTC of that date. *)
Definition Date_of_isoDate (d : Z) : Z := d * DAY.

(** [d.getHours()]: the hour of the day on the server's local clock. *)
Definition getHours `{Host} (t : Z) : Z := ((t + localOffset t) / 3600000) mod 24.

(** [array.sort(compare)]: the sort is stable; [x] goes before [y] when
    [compare x y <= 0]. *)
Fixpoint sort_insert {A} (compare : A -> A -> Z) (x : A) (l : list A) : list A :=
  match l with
  | [] => [x]
  | y :: l' => if compare x y <=? 0 then x :: y :: l'
               else y :: sort_insert compare x l'
  end.

Fixpoint Array_sort {A} (compare : A -> A -> Z) (l : list A) : list A :=
  match l with
  | [] => []
  | x :: l' => sort_insert compare x (Array_sort compare l')
  end.

(** [prisma.user.findMany({ where: { createdAt: { gte } },
    orderBy: { createdAt: 'asc' } })] *)
Definition user_findMany_gte_asc (gte : Z) (s : Store) : list User.t :=
  Array_sort (fun a b => User.createdAt a - User.createdAt b)
    (filter (fun u => gte <=? User.createdAt u) (users s)).

(** A JavaScript object used as a map from dates to counts: the keys keep
    the order in which they were first set. *)
Definition Obj := list (Z * Z).

(** [obj.hasOwnProperty(k)] *)
Definition hasOwnProperty (k : Z) (obj : Obj) : bool :=
  existsb (fun kv => fst kv =? k) obj.

(** [obj[k] = v] *)
Fixpoint obj_set (k v : Z) (obj : Obj) : Obj :=
  match obj with
  | [] => [(k, v)]
  | (k', v') :: obj' =>
      if k' =? k then (k', v) :: obj' else (k', v') :: obj_set k v obj'
  end.

(** [obj[k]++] on a key that is there. *)
Fixpoint obj_incr (k : Z) (obj : Obj) : Obj :=
  match obj with
  | [] => []
  | (k', v') :: obj' =>
      if k' =? k then (k', v' + 1) :: obj' else (k', v') :: obj_incr k obj'
  end.

(** The [for (let i = 29; i >= 0; i--)] loop: one zero per day. *)
Definition dailyData_init (today : Z) : Obj :=
  fold_left (fun dailyData i =>
               let date := today - Z.of_nat i * DAY in
               obj_set (isoDate date) 0 dailyData)
            (rev (seq 0 30)) [].

(** [usersLastMonth.forEach(...)]: count the signups of each listed day. *)
Definition dailyData (today : Z) (usersLastMonth : list User.t) : Obj :=
  fold_left (fun dailyData user =>
               let dateStr := isoDate (User.createdAt user) in
               if hasOwnProperty dateStr dailyData
               then obj_incr dateStr dailyData
               else dailyData)
            usersLastMonth (dailyData_init today).

Module Daily.
Record t := { date : Z; signups : Z }.
End Daily.

(** [Object.entries(dailyData).map(...).sort(...)] *)
Definition dailySignupsArray (s : Store) (today : Z) : list Daily.t :=
  let lastMonth := today - 30 * DAY in
  let usersLastMonth := user_findMany_gte_asc lastMonth s in
  Array_sort (fun a b => Date_of_isoDate (Daily.date a) - Date_of_isoDate (Daily.date b))
    (map (fun kv => {| Daily.date := fst kv; Daily.signups := snd kv |})
         (dailyData today usersLastMonth)).

(** [a[i]++] on an index of the array. *)
Fixpoint incr_at (i : nat) (a : list Z) : list Z :=
  match a, i with
  | [], _ => []
  | x :: a', O => (x + 1) :: a'
  | x :: a', S i' => x :: incr_at i' a'
  end.

(** [Array(24).fill(0)] and the [forEach] over every user. *)
Definition hourlyData `{Host} (s : Store) : list Z :=
  fold_left (fun hourlyData user =>
               let hour := getHours (User.createdAt user) in
               incr_at (Z.to_nat hour) hourlyData)
            (users s) (repeat 0 24).

(** [Math.max(...a)]; [None] is the [-Infinity] of no argument. *)
Definition Math_max (a : list Z) : option Z :=
  match a with
  | [] => None
  | x :: a' => Some (fold_left Z.max a' x)
  end.

(** [a.indexOf(v)], [-1] when [v] is not in [a]. *)
Fixpoint indexOf (v : Z) (a : list Z) : Z :=
  match a with
  | [] => -1
  | x :: a' => if x =? v then 0
               else let i := indexOf v a' in if i <? 0 then -1 else i + 1
  end.

(** [hourlyData.indexOf(Math.max(...hourlyData))] *)
Definition peakSignupHour `{Host} (s : Store) : Z :=
  match Math_max (hourlyData s) with
  | Some m => indexOf m (hourlyData s)
  | None => -1
  end.

(** *** Arithmetic on doubles

    Counts are integers below [2^53], which doubles hold exactly; a
    quotient or a product of doubles is the double nearest to the exact
    result. *)

(** [2^e] for any integer [e]. *)
Definition pow2 (e : Z) : Q := (2 ^ e)%Q.

(** [floor (log2 x)] for [0 < x]. *)
Definition floor_log2 (x : Q) : Z :=
  let e0 := Z.log2 (Qnum x) - Z.log2 (Zpos (Qden x)) in
  if Qle_bool (pow2 e0) x then e0 else e0 - 1.

(** The integer nearest to [y], the even one on a tie. *)
Definition round_half_even (y : Q) : Z :=
  let f := Qfloor y in
  match (y - inject_Z f ?= 1 # 2)%Q with
  | Lt => f
  | Gt => f + 1
  | Eq => if Z.even f then f else f + 1
  end.

(** The double nearest to [x]: round to nearest, ties to even, with 53
    significant bits and exponents from -1022 (so with the subnormal
    numbers), for [x] below the largest double. *)
Definition binary64 (x : Q) : Q :=
  let r := Qred x in
  if Qnum r =? 0 then 0%Q
  else
    let e := Z.max (floor_log2 (Qabs r)) (-1022) in
    let ulp := pow2 (e - 52) in
    Qred (inject_Z (round_half_even (r / ulp)) * ulp).

(** [x / y] for [y] other than zero, and [x * y]. *)
Definition Number_div (x y : Q) : Q := binary64 (x / y).

Definition Number_mul (x y : Q) : Q := binary64 (x * y).

(** The decimal digits of a natural number. *)
Definition decimal (n : Z) : string := NilZero.string_of_uint (N.to_uint (Z.to_N n)).

(** The last [d] decimal digits of [n], zero-padded. *)
Fixpoint digits (d : nat) (n : Z) : string :=
  match d with
  | O => ""
  | S d' => (digits d' (n / 10) ++ decimal (n mod 10))%string
  end.

(** [x.toFixed(d)] for a number below [10^21]: the integer [n] nearest to
    [|x| * 10^d] (the larger one on a tie), printed with [d] decimals and
    the sign of [x]. *)
Definition toFixed (d : nat) (x : Q) : string :=
  let n := Qfloor (Qabs x * inject_Z (10 ^ Z.of_nat d) + (1 # 2)) in
  ((if Qle_bool 0 x then "" else "-")
   ++ decimal (n / 10 ^ Z.of_nat d)
   ++ (if (d =? 0)%nat then "" else "." ++ digits d (n mod 10 ^ Z.of_nat d)))%string.

(** The growth rate as the handler computes it, before it is put in the
    reply. *)
Definition weeklyGrowthRate (totalUsers usersThisWeek : Z) : string :=
  let lastWeekTotalUsers := totalUsers - usersThisWeek in
  if 0 <? lastWeekTotalUsers
  then toFixed 2 (Number_mul (Number_div (inject_Z usersThisWeek)
                                         (inject_Z lastWeekTotalUsers)) 100)
  else "∞".

Module Hourly.
Record t := { hour : string; signups : Z }.
End Hourly.

Module Report.
Record t := {
  totalUsers : Z;
  usersToday : Z;
  usersThisWeek : Z;
  usersThisMonth : Z;
  weeklyGrowthRate : string;
  dailySignups : list Daily.t;
  hourlySignups : list Hourly.t;
  peakSignupHour : Z
}.
End Report.

(** The reply of the handler when every query answers, at instant [today]. *)
Definition comprehensive `{Host} (s : Store) (today : Z) : Report.t :=
  let totalUsers := user_count s in
  let yesterday := today - 24 * 60 * 60 * 1000 in
  let lastWeek := today - 7 * 24 * 60 * 60 * 1000 in
  let lastMonth := today - 30 * 24 * 60 * 60 * 1000 in
  let usersToday := user_count_gte yesterday s in
  let usersThisWeek := user_count_gte lastWeek s in
  let usersThisMonth := user_count_gte lastMonth s in
  let rate := weeklyGrowthRate totalUsers usersThisWeek in
  {| Report.totalUsers := totalUsers;
     Report.usersToday := usersToday;
     Report.usersThisWeek := usersThisWeek;
     Report.usersThisMonth := usersThisMonth;
     Report.weeklyGrowthRate :=
       if (rate =? "∞")%string then "New" else (rate ++ "%")%string;
     Report.dailySignups := dailySignupsArray s today;
     Report.hourlySignups :=
       map (fun ch => {| Hourly.hour := (decimal (Z.of_nat (snd ch)) ++ ":00")%string;
                         Hourly.signups := fst ch |})
           (combine (hourlyData s) (seq 0 (List.length (hourlyData s))));
     Report.peakSignupHour := peakSignupHour s |}.

(** ** The client-side form check ([script.js]) *)

(** The bytes of a string; text outside ASCII is read as UTF-8. *)
Definition bytes_of (s : string) : list N := map N_of_ascii (list_ascii_of_string s).

(** [l] without the prefix [p], when it starts with it. *)
Fixpoint strip_prefix (p l : list N) : option (list N) :=
  match p, l with
  | [], _ => Some l
  | _ :: _, [] => None
  | a :: p', b :: l' => if (a =? b)%N then strip_prefix p' l' else None
  end.

(** The white space and line terminators of JavaScript (the class [\s] of
    a pattern, what [parseInt] skips), as UTF-8:
    U+0009 to U+000D, U+0020, U+00A0, U+1680, U+2000 to U+200A, U+2028,
    U+2029, U+202F, U+205F, U+3000 and U+FEFF. The rest of [l] after one
    such character at its head. *)
Definition skip_white_space_char (l : list N) : option (list N) :=
  match l with
  | [] => None
  | c :: r =>
      if ((9 <=? c) && (c <=? 13) || (c =? 32))%N then Some r
      else if (c =? 194)%N then strip_prefix [160%N] r
      else if (c =? 225)%N then strip_prefix [154%N; 128%N] r
      else if (c =? 226)%N then
        match r with
        | 128%N :: x :: r' =>
            if ((128 <=? x) && (x <=? 138) || (x =? 168) || (x =? 169)
                || (x =? 175))%N
            then Some r' else None
        | _ => strip_prefix [129%N; 159%N] r
        end
      else if (c =? 227)%N then strip_prefix [128%N; 128%N] r
      else if (c =? 239)%N then strip_prefix [187%N; 191%N] r
      else None
  end.

(** Whether the text holds a character of [\s]. *)
Fixpoint has_white_space (l : list N) : bool :=
  match l with
  | [] => false
  | _ :: r =>
      match skip_white_space_char l with
      | Some _ => true
      | None => has_white_space r
      end
  end.

(** Whether every character of the text is in [[^\s@]]. *)
Definition is_plain (l : list ascii) : bool :=
  negb (has_white_space (map N_of_ascii l))
  && forallb (fun c => negb (Ascii.eqb c "@")) l.

(** The text before and after the first occurrence of [c]. *)
Fixpoint split_first (c : ascii) (l : list ascii)
  : option (list ascii * list ascii) :=
  match l with
  | [] => None
  | x :: l' =>
      if Ascii.eqb x c then Some ([], l')
      else match split_first c l' with
           | Some (before, after) => Some (x :: before, after)
           | None => None
           end
  end.

(** [validateEmail(email)]: the pattern [^[^\s@]+@[^\s@]+\.[^\s@]+$]. *)
Definition validateEmail (email : string) : bool :=
  match split_first "@" (list_ascii_of_string email) with
  | None => false
  | Some (local, domain) =>
      negb (Nat.eqb (List.length local) 0) && is_plain local
      && is_plain domain
      && match domain with
         | [] => false
         | _ :: rest => existsb (Ascii.eqb ".") (removelast rest)
         end
  end.

(** ** A host for closed examples

    The server in UTC, the form's own address check, and numbers printed
    with the fewest decimals that are exact (up to twenty). *)
Fixpoint exact_decimals (fuel d : nat) (x : Q) : nat :=
  match fuel with
  | O => d
  | S fuel' =>
      let y := (x * inject_Z (10 ^ Z.of_nat d))%Q in
      if Qeq_bool y (inject_Z (Qfloor y)) then d
      else exact_decimals fuel' (S d) x
  end.

Definition sample_toString (x : Q) : string := toFixed (exact_decimals 20 0 x) x.

(** Strings of decimal digits are read as the integer they write, when it
    is a safe one. *)
Definition sample_toNumber (s : string) : Coerced :=
  if (s =? "")%string then NotNumeric
  else
    match NilZero.uint_of_string s with
    | Some u =>
        let n := Z.of_N (N.of_uint u) in
        if n <=? Joi.MAX_SAFE_INTEGER then NumberRead (inject_Z n)
        else UnsafeNumber
    | None => NotNumeric
    end.

Definition sample_host : Host :=
  {| isEmail := validateEmail;
     toNumber := sample_toNumber;
     Number_toString := sample_toString;
     localOffset := fun _ => 0 |}.

(** The configuration without credentials, and one with them. *)
Definition no_credentials : Env :=
  {| RESEND_API_KEY := None; FROM_EMAIL := None;
     FROM_NAME := None; NODE_ENV := None |}.

Definition demo_service : EmailService := new_EmailService no_credentials.

Definition live_service : EmailService :=
  new_EmailService {| RESEND_API_KEY := Some "re_key"; FROM_EMAIL := None;
                      FROM_NAME := None; NODE_ENV := None |}.

(** The body of the scenario of the specification. *)
Definition sample_body (level : Q) : Body.t :=
  Body.object [ ("email", JString "a@x.com");
                ("primarySkill", JString "design");
                ("biggestChallenge", JString "finding_clients");
                ("interestLevel", JNumber level) ].

(** ** Vocabulary of the properties *)

(** *** The signup transaction *)

(** Whether one of the four inserts of the transaction throws. *)
Definition insert_fails (fails : Query -> bool) : bool :=
  fails UserCreate
  || fails (ResponseCreate primary_skill)
  || fails (ResponseCreate biggest_challenge)
  || fails (ResponseCreate interest_level).

(** *** Batches of recipients *)

(** A list cut into consecutive pieces of [n] elements, the last one
    shorter when the length is not a multiple of [n]. *)
Fixpoint chunk {A} (fuel n : nat) (l : list A) : list (list A) :=
  match fuel with
  | O => []
  | S fuel' =>
      match l with
      | [] => []
      | _ :: _ => firstn n l :: chunk fuel' n (skipn n l)
      end
  end.

Definition batches {A} (l : list A) : list (list A) :=
  chunk (List.length l) batchSize l.

(** The mail that carries one batch. *)
Definition update_mail (svc : EmailService) (subject : string)
  (batch : list string) : Mail.t :=
  {| Mail.from := (fromName svc ++ " <" ++ fromEmail svc ++ ">")%string;
     Mail.to := batch;
     Mail.subject := subject |}.

(** One transport call per mail, one second of pause between two calls. *)
Fixpoint batch_events (mails : list Mail.t) : Trace :=
  match mails with
  | [] => []
  | m :: rest =>
      match rest with
      | [] => [Send m]
      | _ :: _ => Send m :: Delay 1000 :: batch_events rest
      end
  end.

(** The per-recipient results of the mails, the first of which is the
    transport's call number [k]. *)
Fixpoint batch_outcomes (T : Transport) (k : nat) (mails : list Mail.t)
  : list Delivery.t :=
  match mails with
  | [] => []
  | m :: rest => batch_results (T k m) (Mail.to m) ++ batch_outcomes T (S k) rest
  end.

(** *** Histograms *)

(** The users whose local signup hour is [k]. *)
Definition signups_at_hour `{Host} (k : Z) (us : list User.t) : Z :=
  Z.of_nat (List.length
              (filter (fun u => getHours (User.createdAt u) =? k) us)).

(** The users who signed up on the UTC day [day]. *)
Definition signups_on_day (day : Z) (us : list User.t) : Z :=
  Z.of_nat (List.length (filter (fun u => isoDate (User.createdAt u) =? day) us)).

(** The 30 listed days, oldest first. *)
Definition listed_days (today : Z) : list Z :=
  map (fun j => isoDate today - 29 + Z.of_nat j) (seq 0 30).

(** *** The growth rate *)

(** The growth rate as the specification words it: one decimal, ["New"] on
    a zero denominator. *)
Definition weeklyGrowthRate_one_decimal (totalUsers usersThisWeek : Z) : string :=
  if totalUsers - usersThisWeek =? 0 then "New"
  else toFixed 1 (Number_mul (Number_div (inject_Z usersThisWeek)
                                         (inject_Z (totalUsers - usersThisWeek)))
                             100).

(** ** The scenario of the specification, on the sample host *)

Definition always_sent : Transport := fun _ _ => Sent.

Definition no_failure : Query -> bool := fun _ => false.

(** Only the insert of the third answer throws. *)
Definition interest_insert_fails (q : Query) : bool :=
  match q with
  | ResponseCreate interest_level => true
  | _ => false
  end.

Definition sample_value (level : Q) : Value.t :=
  {| Value.email := "a@x.com";
     Value.primarySkill := "design";
     Value.biggestChallenge := "finding_clients";
     Value.interestLevel := level |}.

(** The first signup ever: level 5, at instant [now], no credentials. *)
Definition first_signup (now : Z) : WaitlistReply * Store * Trace :=
  @post_waitlist sample_host demo_service always_sent no_failure now
    (sample_body 5) empty_store [].

(** Two users, one signed up at the epoch and one 29 days later. *)
Definition two_users : Store :=
  {| users := [ {| User.id := 1; User.email := "a@x.com";
                   User.createdAt := 0; User.updatedAt := 0 |};
                {| User.id := 2; User.email := "b@x.com";
                   User.createdAt := 29 * DAY; User.updatedAt := 29 * DAY |} ];
     responses := [] |}.

(** 160 users who signed up at the epoch and 23 who did on day 29. *)
Definition growth_users : Store :=
  {| users := map (fun i => {| User.id := i;
                               User.email :=
                                 ("user" ++ decimal (Z.of_nat i) ++ "@x.com")%string;
                               User.createdAt :=
                                 if (i <=? 160)%nat then 0 else 29 * DAY;
                               User.updatedAt :=
                                 if (i <=? 160)%nat then 0 else 29 * DAY |})
                  (seq 1 183);
     responses := [] |}.

(** Three signups on the sample host within UTC day 20. *)
Definition body_of (email : string) : Body.t :=
  Body.object [ ("email", JString email);
                ("primarySkill", JString "design");
                ("biggestChallenge", JString "finding_clients");
                ("interestLevel", JNumber 5%Q) ].

Definition signup (now : Z) (email : string) (st : WaitlistReply * Store * Trace)
  : WaitlistReply * Store * Trace :=
  @post_waitlist sample_host demo_service always_sent no_failure now
    (body_of email) (snd (fst st)) (snd st).

Definition signup1 := signup (20 * DAY + 1000) "a@x.com" (InternalError, empty_store, []).
Definition signup2 := signup (20 * DAY + 2000) "b@x.com" signup1.
Definition signup3 := signup (20 * DAY + 3000) "c@x.com" signup2.

(** ** Runs of the signup endpoint *)

(** One [POST /api/waitlist] with what surrounds it: the mail service and
    the transport of the moment, the queries that throw, the instant and
    the body. *)
Module Request.
Record t := {
  service : EmailService;
  transport : Transport;
  failing : Query -> bool;
  instant : Z;
  body : Body.t
}.
End Request.

(** The handler on one request, from a store and a trace. *)
Definition handle `{Host} (r : Request.t) (st : Store * Trace)
  : WaitlistReply * Store * Trace :=
  post_waitlist (Request.service r) (Request.transport r) (Request.failing r)
    (Request.instant r) (Request.body r) (fst st) (snd st).

(** The requests served one after the other. *)
Definition serve `{Host} (reqs : list Request.t) (st : Store * Trace)
  : Store * Trace :=
  fold_left (fun st r => let '(_, s', tr') := handle r st in (s', tr')) reqs st.

(** The tables as signups build them: each user row came with its three
    answers, under an id and an address no earlier row had. *)
Inductive signed_up : list User.t -> list Response.t -> Prop :=
| signed_up_nil : signed_up [] []
| signed_up_snoc (us : list User.t) (rs : list Response.t)
    (u : User.t) (r1 r2 r3 : Response.t) :
    signed_up us rs ->
    ~ In (User.id u) (map User.id us) ->
    ~ In (User.email u) (map User.email us) ->
    Response.userId r1 = User.id u ->
    Response.userId r2 = User.id u ->
    Response.userId r3 = User.id u ->
    Response.questionId r1 = "primary_skill" ->
    Response.questionId r2 = "biggest_challenge" ->
    Response.questionId r3 = "interest_level" ->
    signed_up (us ++ [u]) (rs ++ [r1; r2; r3]).

(** The answers of user [userId] to question [q]. *)
Definition answers_to (userId : nat) (q : Question) (rs : list Response.t)
  : list Response.t :=
  filter (fun r => (Response.userId r =? userId)%nat
                   && (Response.questionId r =? questionId_of q)%string) rs.

(** A signup request on the sample host, without credentials, when every
    query answers. *)
Definition sample_request (now : Z) (email : string) : Request.t :=
  {| Request.service := demo_service;
     Request.transport := always_sent;
     Request.failing := no_failure;
     Request.instant := now;
     Request.body := body_of email |}.

(** Only [prisma.user.count()] throws. *)
Definition count_fails (q : Query) : bool :=
  match q with
  | Count => true
  | _ => false
  end.





Definition always_throws : Transport := fun _ _ => Thrown (Some "ECONNRESET").





(** The sum of the numbers of a list. *)
Definition total_of (l : list Z) : Z := fold_right Z.add 0 l.

(** Whether an instant falls on one of the 30 days the daily histogram
    lists. *)
Definition on_listed_day (today t : Z) : bool :=
  (isoDate today - 29 <=? isoDate t) && (isoDate t <=? isoDate today).

(** ** Labels of the survey answers ([formatSkill], [formatChallenge]) *)

(** The names a plain object inherits from [Object.prototype]. *)
Definition Object_prototype : list string :=
  ["constructor"; "__defineGetter__"; "__defineSetter__"; "hasOwnProperty";
   "__lookupGetter__"; "__lookupSetter__"; "isPrototypeOf";
   "propertyIsEnumerable"; "toString"; "valueOf"; "__proto__";
   "toLocaleString"].

(** What the lookup of a label gives: a string, or what the table inherits
    under that name (a function, or the prototype itself). *)
Inductive Label :=
| Plain (s : string)
| Inherited (name : string).

(** The own property [name] of an object literal. *)
Fixpoint own_property (name : string) (table : list (string * string))
  : option string :=
  match table with
  | [] => None
  | (k, v) :: table' =>
      if (k =? name)%string then Some v else own_property name table'
  end.

(** [table[code] || code || 'Not specified'], for a code that is a string or
    [undefined]. *)
Definition label_or_code (table : list (string * string)) (code : option string)
  : Label :=
  match code with
  | None => Plain "Not specified"
  | Some c =>
      match own_property c table with
      | Some v =>
          if negb (v =? "")%string then Plain v
          else if negb (c =? "")%string then Plain c
               else Plain "Not specified"
      | None =>
          if existsb (String.eqb c) Object_prototype then Inherited c
          else if negb (c =? "")%string then Plain c
               else Plain "Not specified"
      end
  end.

Definition skillMap : list (string * string) :=
  [("design", "Graphic Design");
   ("development", "Web Development");
   ("photography", "Photography");
   ("writing", "Content Writing");
   ("marketing", "Digital Marketing");
   ("video", "Video Production");
   ("other", "Other")].

Definition challengeMap : list (string * string) :=
  [("payment_delays", "Payment Delays");
   ("finding_clients", "Finding Clients");
   ("pricing_services", "Pricing Services");
   ("skill_gaps", "Skill Gaps")].

(** [formatSkill(skill)] *)
Definition formatSkill (skill : option string) : Label :=
  label_or_code skillMap skill.

(** [formatChallenge(challenge)] *)
Definition formatChallenge (challenge : option string) : Label :=
  label_or_code challengeMap challenge.

(** ** A row of the dashboard's user table *)

(** [label || '-'] *)
Definition or_dash (l : Label) : Label :=
  match l with
  | Plain s => if (s =? "")%string then Plain "-" else Plain s
  | Inherited name => Inherited name
  end.

(** [user.responses] under [include: { responses: true }]: the answers of
    the user, in the order of the table. *)
Definition responses_of (u : User.t) (s : Store) : list Response.t :=
  filter (fun r => (Response.userId r =? User.id u)%nat) (responses s).

(** What [user.responses.reduce(...)] leaves under the key [questionId]:
    the answer of the last row with that key. *)
Definition reduced_answer (questionId : string) (rs : list Response.t)
  : option string :=
  fold_left (fun acc r => if (Response.questionId r =? questionId)%string
                          then Some (Response.answer r) else acc) rs None.

(** The cells of a row, but for the date, whose text depends on the locale
    of the server. *)
Module Row.
Record t := {
  email : string;
  skill : Label;
  challenge : Label;
  interest : string;
  completed : bool
}.
End Row.

Definition dashboard_row (u : User.t) (s : Store) : Row.t :=
  let responses := responses_of u s in
  let isCompleted := (3 <=? List.length responses)%nat in
  {| Row.email := User.email u;
     Row.skill := or_dash (formatSkill (reduced_answer "primary_skill" responses));
     Row.challenge :=
       or_dash (formatChallenge (reduced_answer "biggest_challenge" responses));
     Row.interest :=
       match reduced_answer "interest_level" responses with
       | Some a => if (a =? "")%string then "-" else (a ++ "/5 ⭐")%string
       | None => "-"
       end;
     Row.completed := isCompleted |}.

(** ** The distributions, the funnel and the insights of the report *)

(** One group of [groupBy({ by: ['answer'], _count: { answer: true } })]. *)
Module Group.
Record t := { answer : string; count : Z }.
End Group.

(** One more row with answer [a]. *)
Fixpoint group_add (a : string) (gs : list Group.t) : list Group.t :=
  match gs with
  | [] => [ {| Group.answer := a; Group.count := 1 |} ]
  | g :: gs' =>
      if (Group.answer g =? a)%string
      then {| Group.answer := a; Group.count := Group.count g + 1 |} :: gs'
      else g :: group_add a gs'
  end.

(** [prisma.response.groupBy({ by: ['answer'], where: { questionId },
    _count: { answer: true } })]: one group per distinct answer to the
    question, with the number of its rows. The query asks for no order; the
    groups come here in the order their answers first appear. *)
Definition response_groupBy (questionId : string) (s : Store) : list Group.t :=
  fold_left (fun gs r => group_add (Response.answer r) gs)
    (filter (fun r => (Response.questionId r =? questionId)%string) (responses s))
    [].

(** [prisma.response.count({ where: { questionId } })] *)
Definition response_count (questionId : string) (s : Store) : Z :=
  Z.of_nat (List.length
              (filter (fun r => (Response.questionId r =? questionId)%string)
                      (responses s))).

(** The accumulator of the [reduce] that looks for the largest group: the
    empty object it starts from, or a group. *)
Inductive Top :=
| NoTop
| TopGroup (g : Group.t).

(** [max._count?.answer || 0] *)
Definition top_count (max : Top) : Z :=
  match max with
  | NoTop => 0
  | TopGroup g => Group.count g
  end.

(** [(max, g) => g._count.answer > (max._count?.answer || 0) ? g : max] *)
Definition top_step (max : Top) (g : Group.t) : Top :=
  if Group.count g >? top_count max then TopGroup g else max.

(** [dist.length > 0 ? dist.reduce(..., {}) : fallback] *)
Definition top_group (fallback : Group.t) (dist : list Group.t) : Top :=
  if (0 <? List.length dist)%nat then fold_left top_step dist NoTop
  else TopGroup fallback.

Definition topSkill (s : Store) : Top :=
  top_group {| Group.answer := "design"; Group.count := 0 |}
    (response_groupBy "primary_skill" s).

Definition topChallenge (s : Store) : Top :=
  top_group {| Group.answer := "payment_delays"; Group.count := 0 |}
    (response_groupBy "biggest_challenge" s).

(** [((a / b) * 100).toFixed(1)] *)
Definition percent (a b : Z) : string :=
  toFixed 1 (Number_mul (Number_div (inject_Z a) (inject_Z b)) 100).

Module Stage.
Record t := { stage : string; users : Z; rate : string }.
End Stage.

(** The [conversionFunnel] of the report. *)
Definition conversionFunnel (s : Store) : list Stage.t :=
  let step1Completions := user_count s in
  let step2Completions := response_count "primary_skill" s in
  let step3Completions := response_count "interest_level" s in
  [ {| Stage.stage := "Landing Page View";
       Stage.users := step1Completions * 3;
       Stage.rate := "100%" |};
    {| Stage.stage := "Email Entered";
       Stage.users := step1Completions;
       Stage.rate := "33%" |};
    {| Stage.stage := "Survey Started";
       Stage.users := step2Completions;
       Stage.rate := if 0 <? step1Completions
                     then (percent step2Completions step1Completions ++ "%")%string
                     else "0%" |};
    {| Stage.stage := "Survey Completed";
       Stage.users := step3Completions;
       Stage.rate := if 0 <? step1Completions
                     then (percent step3Completions step1Completions ++ "%")%string
                     else "0%" |} ].

(** [businessMetrics.completionRate] *)
Definition completionRate (s : Store) : string :=
  let step1Completions := user_count s in
  let step3Completions := response_count "interest_level" s in
  if 0 <? step1Completions then percent step3Completions step1Completions
  else "0".

(** [businessMetrics.marketFit] *)
Definition marketFit (s : Store) : string :=
  if (0 <? List.length (response_groupBy "biggest_challenge" s))%nat
  then "Strong" else "Developing".

(** The number of times [a] occurs in a list of answers. *)
Definition occurrences (a : string) (l : list string) : Z :=
  Z.of_nat (count_occ string_dec l a).

(** The count of the first group with answer [a], 0 when there is none. *)
Fixpoint count_in (a : string) (gs : list Group.t) : Z :=
  match gs with
  | [] => 0
  | g :: gs' => if (Group.answer g =? a)%string then Group.count g
                else count_in a gs'
  end.

(** The answers given to a question, in the order of the table. *)
Definition answers_given (questionId : string) (s : Store) : list string :=
  map Response.answer
      (filter (fun r => (Response.questionId r =? questionId)%string)
              (responses s)).


(** ** The signup form of the page ([ZintleWaitlist] in [script.js]) *)

(** [this.formData]: each key is unset or holds a string. *)
Module FormData.
Record t := {
  email : option string;
  primarySkill : option string;
  biggestChallenge : option string;
  interestLevel : option string
}.
End FormData.

(** The fields of the object the handlers read and write. *)
Module Wizard.
Record t := {
  currentStep : Z;
  formData : FormData.t;
  isBackendAvailable : bool
}.
End Wizard.

(** What the inputs of the page hold when a handler reads them: the text
    of [#email-input], the value of the [primary_skill] control, the value
    of the checked [biggest_challenge] radio if one is checked, and the
    value of the [interest_level] control. *)
Module Inputs.
Record t := {
  email_input : string;
  primary_skill : string;
  biggest_challenge : option string;
  interest_level : string
}.
End Inputs.

(** How the [fetch] of [submitForm] ends. *)
Inductive FetchResult :=
| ResponseOk
| Response409
| ResponseOther
| NetworkError.

(** The object right after the constructor's assignments. *)
Definition new_ZintleWaitlist : Wizard.t :=
  {| Wizard.currentStep := 1;
     Wizard.formData := {| FormData.email := None;
                           FormData.primarySkill := None;
                           FormData.biggestChallenge := None;
                           FormData.interestLevel := None |};
     Wizard.isBackendAvailable := false |}.

(** [validateCurrentStep()]: the verdict and the object after it. *)
Definition validateCurrentStep (dom : Inputs.t) (w : Wizard.t) : bool * Wizard.t :=
  if Wizard.currentStep w =? 1 then
    let email := Inputs.email_input dom in
    if negb (validateEmail email) then (false, w)
    else
      (true,
       {| Wizard.currentStep := Wizard.currentStep w;
          Wizard.formData :=
            {| FormData.email := Some email;
               FormData.primarySkill := FormData.primarySkill (Wizard.formData w);
               FormData.biggestChallenge :=
                 FormData.biggestChallenge (Wizard.formData w);
               FormData.interestLevel :=
                 FormData.interestLevel (Wizard.formData w) |};
          Wizard.isBackendAvailable := Wizard.isBackendAvailable w |})
  else if Wizard.currentStep w =? 2 then
    let primarySkill := Inputs.primary_skill dom in
    let biggestChallenge := Inputs.biggest_challenge dom in
    let interestLevel := Inputs.interest_level dom in
    if negb (truthy (Some primarySkill)) || negb (truthy biggestChallenge)
       || negb (truthy (Some interestLevel))
    then (false, w)
    else
      (true,
       {| Wizard.currentStep := Wizard.currentStep w;
          Wizard.formData :=
            {| FormData.email := FormData.email (Wizard.formData w);
               FormData.primarySkill := Some primarySkill;
               FormData.biggestChallenge := biggestChallenge;
               FormData.interestLevel := Some interestLevel |};
          Wizard.isBackendAvailable := Wizard.isBackendAvailable w |})
  else (true, w).

Definition set_step (step : Z) (w : Wizard.t) : Wizard.t :=
  {| Wizard.currentStep := step;
     Wizard.formData := Wizard.formData w;
     Wizard.isBackendAvailable := Wizard.isBackendAvailable w |}.

(** [nextStep()] *)
Definition nextStep (dom : Inputs.t) (w : Wizard.t) : Wizard.t :=
  let (ok, w') := validateCurrentStep dom w in
  if ok then set_step (Wizard.currentStep w' + 1) w' else w'.

(** [prevStep()] *)
Definition prevStep (w : Wizard.t) : Wizard.t :=
  if 1 <? Wizard.currentStep w then set_step (Wizard.currentStep w - 1) w else w.

(** [submitForm()] up to its [await]: the object after it, and the body
    handed to [fetch] for [/api/waitlist] if one is. *)
Definition submitForm (dom : Inputs.t) (w : Wizard.t)
  : Wizard.t * option FormData.t :=
  let (ok, w') := validateCurrentStep dom w in
  if negb ok then (w', None)
  else if negb (Wizard.isBackendAvailable w') then (set_step 3 w', None)
  else (w', Some (Wizard.formData w')).

(** [submitForm()] after its [await], once the [fetch] has settled. *)
Definition submitForm_resume (answer : FetchResult) (w : Wizard.t) : Wizard.t :=
  match answer with
  | ResponseOk => set_step 3 w
  | _ => w
  end.

(** The page: the form object, the bodies it has posted, oldest first,
    and the number of posts that have not settled yet. *)
Module Page.
Record t := {
  form : Wizard.t;
  posted : list FormData.t;
  in_flight : nat
}.
End Page.

(** What happens to the form: a click on "next", on "back" or on "submit",
    a pending post settling, or the page learning whether the backend
    answers ([checkBackendAvailability], [loadDynamicData]).  Clicks may
    come while a post is pending. *)
Inductive FormEvent :=
| ClickNext (dom : Inputs.t)
| ClickBack
| ClickSubmit (dom : Inputs.t)
| FetchSettled (answer : FetchResult)
| BackendSeen (available : bool).

Definition form_step (p : Page.t) (e : FormEvent) : Page.t :=
  match e with
  | ClickNext dom =>
      {| Page.form := nextStep dom (Page.form p);
         Page.posted := Page.posted p;
         Page.in_flight := Page.in_flight p |}
  | ClickBack =>
      {| Page.form := prevStep (Page.form p);
         Page.posted := Page.posted p;
         Page.in_flight := Page.in_flight p |}
  | ClickSubmit dom =>
      let (w', body) := submitForm dom (Page.form p) in
      match body with
      | Some b =>
          {| Page.form := w';
             Page.posted := Page.posted p ++ [b];
             Page.in_flight := S (Page.in_flight p) |}
      | None =>
          {| Page.form := w';
             Page.posted := Page.posted p;
             Page.in_flight := Page.in_flight p |}
      end
  | FetchSettled answer =>
      match Page.in_flight p with
      | O => p
      | S n =>
          {| Page.form := submitForm_resume answer (Page.form p);
             Page.posted := Page.posted p;
             Page.in_flight := n |}
      end
  | BackendSeen available =>
      {| Page.form :=
           {| Wizard.currentStep := Wizard.currentStep (Page.form p);
              Wizard.formData := Wizard.formData (Page.form p);
              Wizard.isBackendAvailable := available |};
         Page.posted := Page.posted p;
         Page.in_flight := Page.in_flight p |}
  end.

(** The page after the events. *)
Definition form_run (events : list FormEvent) : Page.t :=
  fold_left form_step events
            {| Page.form := new_ZintleWaitlist;
               Page.posted := [];
               Page.in_flight := O |}.

(** An address the form's own check lets through. *)
Definition checked_email (v : option string) : Prop :=
  exists e, v = Some e /\ validateEmail e = true.

(** What holds of the page at every moment. *)
Definition form_invariant (p : Page.t) : Prop :=
  1 <= Wizard.currentStep (Page.form p)
  /\ (2 <= Wizard.currentStep (Page.form p) \/ (0 < Page.in_flight p)%nat ->
      checked_email (FormData.email (Wizard.formData (Page.form p))))
  /\ (FormData.email (Wizard.formData (Page.form p)) = None
      \/ checked_email (FormData.email (Wizard.formData (Page.form p))))
  /\ Forall (fun b => checked_email (FormData.email b)) (Page.posted p).

(** ** [parseInt] and the retention figure of the report *)

(** The string without its leading white space. *)
Fixpoint trim_start (fuel : nat) (l : list N) : list N :=
  match fuel with
  | O => l
  | S fuel' =>
      match skip_white_space_char l with
      | Some r => trim_start fuel' r
      | None => l
      end
  end.

(** The value of a digit of the radix: [0-9], [a-z], [A-Z]. *)
Definition digit_value (radix : Z) (c : N) : option Z :=
  let v :=
    if ((48 <=? c) && (c <=? 57))%N then Z.of_N c - 48
    else if ((97 <=? c) && (c <=? 122))%N then Z.of_N c - 97 + 10
    else if ((65 <=? c) && (c <=? 90))%N then Z.of_N c - 65 + 10
    else radix in
  if v <? radix then Some v else None.

(** The number written by the longest prefix of digits, if it has one. *)
Fixpoint read_digits (radix : Z) (acc : option Z) (l : list N) : option Z :=
  match l with
  | [] => acc
  | c :: r =>
      match digit_value radix c with
      | Some v =>
          read_digits radix
            (Some (match acc with Some a => a * radix + v | None => v end)) r
      | None => acc
      end
  end.

(** [parseInt(string)] with no radix: the integer it reads, [None] for
    [NaN]. The number [parseInt] returns is this integer rounded to a
    double; rounding keeps the order, so comparing with 4 gives the same
    on both. *)
Definition parseInt (s : string) : option Z :=
  let l := bytes_of s in
  let S0 := trim_start (List.length l) l in
  let (sign, S1) :=
    match S0 with
    | 45%N :: r => (-1, r)
    | 43%N :: r => (1, r)
    | _ => (1, S0)
    end in
  let (R, S2) :=
    match S1 with
    | 48%N :: x :: r => if ((x =? 120) || (x =? 88))%N then (16, r) else (10, S1)
    | _ => (10, S1)
    end in
  match read_digits R None S2 with
  | Some mathInt => Some (sign * mathInt)
  | None => None
  end.

(** [parseInt(l.answer) >= 4] *)
Definition keen (answer : string) : bool :=
  match parseInt answer with
  | Some v => 4 <=? v
  | None => false
  end.

(** [dist.filter(l => parseInt(l.answer) >= 4)
         .reduce((acc, l) => acc + l._count.answer, 0)] *)
Definition keen_count (dist : list Group.t) : Z :=
  fold_left (fun acc l => acc + Group.count l)
            (filter (fun l => keen (Group.answer l)) dist) 0.

(** [businessMetrics.retentionPotential] *)
Definition retentionPotential (s : Store) : string :=
  let totalUsers := user_count s in
  let interestLevels := response_groupBy "interest_level" s in
  if 0 <? totalUsers then percent (keen_count interestLevels) totalUsers
  else "0".

(** The number of [interest_level] answers that [parseInt] reads as 4 or
    more. *)
Definition keen_answers (s : Store) : Z :=
  Z.of_nat (List.length (filter keen (answers_given "interest_level" s))).

(** 80 users with one [interest_level] answer each: ["5"] for the first
    23, ["3"] for the others. *)
Definition retention_users : Store :=
  {| users := map (fun i => {| User.id := i;
                               User.email :=
                                 ("user" ++ decimal (Z.of_nat i) ++ "@x.com")%string;
                               User.createdAt := 0;
                               User.updatedAt := 0 |}) (seq 1 80);
     responses := map (fun i => {| Response.id := i;
                                   Response.userId := i;
                                   Response.questionId := "interest_level";
                                   Response.question := question_text interest_level;
                                   Response.answer :=
                                     if (i <=? 23)%nat then "5" else "3";
                                   Response.createdAt := 0 |}) (seq 1 80) |}.

(** ** [GET /api/analytics] *)

Module Analytics.
Record t := {
  totalUsers : Z;
  skillDistribution : list Group.t;
  challengeDistribution : list Group.t;
  interestLevels : list Group.t;
  recentSignups : Z
}.
End Analytics.

(** [prisma.user.findMany({ where: { createdAt: { gte } },
    orderBy: { createdAt: 'desc' } })] *)
Definition user_findMany_gte_desc (gte : Z) (s : Store) : list User.t :=
  Array_sort (fun a b => User.createdAt b - User.createdAt a)
    (filter (fun u => gte <=? User.createdAt u) (users s)).

(** The reply at instant [now]; [None] is the 500 answer, given when a
    query throws. *)
Definition get_analytics (db_fails : bool) (now : Z) (s : Store)
  : option Analytics.t :=
  if db_fails then None
  else
    let skillDistribution := response_groupBy "primary_skill" s in
    let challengeDistribution := response_groupBy "biggest_challenge" s in
    let interestLevels := response_groupBy "interest_level" s in
    let totalUsers := user_count s in
    let recentSignups :=
      user_findMany_gte_desc (now - 7 * 24 * 60 * 60 * 1000) s in
    Some {| Analytics.totalUsers := totalUsers;
            Analytics.skillDistribution := skillDistribution;
            Analytics.challengeDistribution := challengeDistribution;
            Analytics.interestLevels := interestLevels;
            Analytics.recentSignups := Z.of_nat (List.length recentSignups) |}.

(** A distribution that splits [n] answers: groups of distinct answers,
    none empty, whose counts add up to [n]. *)
Definition splits (n : Z) (dist : list Group.t) : Prop :=
  NoDup (map Group.answer dist)
  /\ Forall (fun g => 1 <= Group.count g) dist
  /\ total_of (map Group.count dist) = n.

(** ** The spots the page shows ([loadDynamicData], [updateSpotsLeft]) *)

(** What [fetch('/api/stats')] and [response.json()] give the page: the
    stats, the body of the 500 answer, which has no [spotsLeft], or an
    exception. *)
Inductive StatsFetch :=
| StatsJson (data : Stats.t)
| StatsError
| StatsUnreachable.

(** The page asking a server in state [s]. *)
Definition fetch_stats (reachable : bool) (fails : Query -> bool) (s : Store)
  : StatsFetch :=
  if reachable then
    match get_stats fails s with
    | Some data => StatsJson data
    | None => StatsError
    end
  else StatsUnreachable.

(** [x || d] on numbers: [NaN] and 0 give [d]. *)
Definition number_or (x : option Z) (d : Z) : option Z :=
  match x with
  | Some v => if v =? 0 then Some d else Some v
  | None => Some d
  end.

(** [updateSpotsLeft(spots)]: the text it gives [#spots-left]. *)
Definition updateSpotsLeft (spots : option Z) : string :=
  let validSpots := match spots with None => 500 | Some v => v end in
  decimal validSpots.

(** The part of [loadDynamicData()] that concerns the spots: the text of
    [#spots-left] and [this.isBackendAvailable] after it. [spotsLeft] is
    an integer from 0 to 500 in every reply of the server, and prints as
    its decimal digits. *)
Definition loadDynamicData (f : StatsFetch) : string * bool :=
  match f with
  | StatsJson data =>
      let spotsLeft := number_or (parseInt (decimal (Stats.spotsLeft data))) 500 in
      (updateSpotsLeft spotsLeft, true)
  | StatsError =>
      let spotsLeft := number_or (parseInt "undefined") 500 in
      (updateSpotsLeft spotsLeft, true)
  | StatsUnreachable => (updateSpotsLeft (Some 253), false)
  end.

(** * Properties *)

(** ** Validation *)

Lemma string_required_inr `{Host} (email : bool) (key : string)
  (v : option JSON) (s : string) :
  Joi.string_required email key v = inr s <->
  v = Some (JString s) /\ s <> "" /\ (email = true -> isEmail s = true).
Proof.
  unfold Joi.string_required.
  destruct v as [[| | | |s0| |]|];
    try (split; [discriminate|intros (E & _); discriminate]).
  destruct (String.eqb_spec s0 "") as [E|E].
  - split; [discriminate|]. intros (E1 & E2 & _). congruence.
  - destruct email; simpl.
    + destruct (isEmail s0) eqn:Em; simpl.
      * split.
        -- intros [= ->]. auto.
        -- intros ([= ->] & _). reflexivity.
      * split; [discriminate|]. intros ([= ->] & _ & E3).
        specialize (E3 eq_refl). congruence.
    + split.
      * intros [= ->]. repeat split; auto. discriminate.
      * intros ([= ->] & _). reflexivity.
Qed.


(** Between 1 and 5 the rules let a number through as it is; nothing else
    passes. *)
Lemma number_rules_inr (key : string) (q r : Q) :
  Joi.number_rules 1 5 key q = inr r <-> r = q /\ (1 <= q)%Q /\ (q <= 5)%Q.
Proof.
  unfold Joi.number_rules.
  destruct (Qle_bool q (inject_Z Joi.MAX_SAFE_INTEGER)) eqn:S1;
    destruct (Qle_bool (inject_Z (- Joi.MAX_SAFE_INTEGER)) q) eqn:S2;
    cbn [negb orb].
  - destruct (Qle_bool 1 q) eqn:E1; cbn [negb].
    + destruct (Qle_bool q 5) eqn:E2; cbn [negb].
      * apply Qle_bool_iff in E1, E2. split.
        -- intros [= <-]. auto.
        -- intros (-> & _). reflexivity.
      * split; [discriminate|]. intros (_ & _ & E3).
        apply Qle_bool_iff in E3. congruence.
    + split; [discriminate|]. intros (_ & E3 & _).
      apply Qle_bool_iff in E3. congruence.
  - split; [discriminate|]. intros (_ & L & _). exfalso.
    assert (C : (inject_Z (- Joi.MAX_SAFE_INTEGER) <= q)%Q).
    { apply Qle_trans with 1%Q; [discriminate|exact L]. }
    apply Qle_bool_iff in C. congruence.
  - split; [discriminate|]. intros (_ & _ & U). exfalso.
    assert (C : (q <= inject_Z Joi.MAX_SAFE_INTEGER)%Q).
    { apply Qle_trans with 5%Q; [exact U|discriminate]. }
    apply Qle_bool_iff in C. congruence.
  - split; [discriminate|]. intros (_ & _ & U). exfalso.
    assert (C : (q <= inject_Z Joi.MAX_SAFE_INTEGER)%Q).
    { apply Qle_trans with 5%Q; [exact U|discriminate]. }
    apply Qle_bool_iff in C. congruence.
Qed.

(** The level the schema accepts: a number between 1 and 5, or a string
    that converts to one. *)
Lemma number_required_inr `{Host} (key : string) (v : option JSON) (q : Q) :
  Joi.number_required 1 5 key v = inr q <->
  (v = Some (JNumber q)
   \/ exists t, v = Some (JString t) /\ toNumber t = NumberRead q)
  /\ (1 <= q)%Q /\ (q <= 5)%Q.
Proof.
  unfold Joi.number_required.
  destruct v as [[| |x| |t| |]|];
    try (split; [discriminate
                |intros ([E|(t0 & E & _)] & _); discriminate]).
  - rewrite number_rules_inr. split.
    + intros (-> & L & U). auto.
    + intros ([[= ->]|(t0 & E & _)] & L & U); [auto|discriminate].
  - destruct (toNumber t) as [| |x] eqn:T.
    + split; [discriminate|].
      intros ([E|(t0 & [= <-] & E)] & _); [discriminate|congruence].
    + split; [discriminate|].
      intros ([E|(t0 & [= <-] & E)] & _); [discriminate|congruence].
    + rewrite number_rules_inr. split.
      * intros (-> & L & U). split; [|auto]. right. exists t. auto.
      * intros ([E|(t0 & [= <-] & E)] & L & U); [discriminate|].
        rewrite T in E. injection E as <-. auto.
Qed.

(** No key is refused exactly when every key of the copy is one of the
    schema. *)
Lemma unknown_keys_nil (schema : list string) (props : list (string * JSON)) :
  Joi.unknown_keys schema props = [] <->
  forall k, In k (Body.keys props) -> In k schema.
Proof.
  unfold Joi.unknown_keys. induction (Body.keys props) as [|k ks IH].
  - simpl. split; [intros _ k []|reflexivity].
  - cbn [filter].
    destruct (existsb (String.eqb k) schema) eqn:E; cbn [negb].
    + apply existsb_exists in E. destruct E as (k' & I & E).
      apply String.eqb_eq in E. subst k'. rewrite IH. split.
      * intros A k0 [<-|I0]; auto.
      * intros A k0 I0. apply A. now right.
    + split; [discriminate|]. intros A. exfalso.
      assert (In k schema) as I by (apply A; now left).
      assert (existsb (String.eqb k) schema = true) as C.
      { apply existsb_exists. exists k. split; [exact I|apply String.eqb_refl]. }
      congruence.
Qed.

(** What an accepted body looks like, key by key. *)
Lemma waitlistSchema_validate_inr `{Host} (b : Body.t) (v : Value.t) :
  waitlistSchema_validate b = inr v <->
  exists props,
    b = Body.object props
    /\ Body.get "email" props = Some (JString (Value.email v))
    /\ Body.get "primarySkill" props = Some (JString (Value.primarySkill v))
    /\ Body.get "biggestChallenge" props
       = Some (JString (Value.biggestChallenge v))
    /\ (Body.get "interestLevel" props = Some (JNumber (Value.interestLevel v))
        \/ exists t, Body.get "interestLevel" props = Some (JString t)
                     /\ toNumber t = NumberRead (Value.interestLevel v))
    /\ Value.email v <> "" /\ isEmail (Value.email v) = true
    /\ Value.primarySkill v <> ""
    /\ Value.biggestChallenge v <> ""
    /\ (1 <= Value.interestLevel v)%Q /\ (Value.interestLevel v <= 5)%Q
    /\ (forall k, In k (Body.keys props) -> In k waitlistSchema_keys).
Proof.
  unfold waitlistSchema_validate. split.
  - destruct b as [props|items]; [|discriminate].
    destruct (Joi.string_required true "email" _) as [?|e] eqn:E1; [discriminate|].
    destruct (Joi.string_required false "primarySkill" _) as [?|p] eqn:E2;
      [discriminate|].
    destruct (Joi.string_required false "biggestChallenge" _) as [?|c] eqn:E3;
      [discriminate|].
    destruct (Joi.number_required _ _ _ _) as [?|q] eqn:E4; [discriminate|].
    destruct (Joi.unknown_keys _ _) as [|k ks] eqn:E5; [|discriminate].
    intros [= <-]. cbn [Value.email Value.primarySkill Value.biggestChallenge
                         Value.interestLevel].
    apply string_required_inr in E1, E2, E3. apply number_required_inr in E4.
    pose proof (proj1 (unknown_keys_nil _ _) E5) as K.
    destruct E1 as (? & ? & ?), E2 as (? & ? & _), E3 as (? & ? & _),
      E4 as (? & ? & ?).
    exists props. repeat split; auto.
  - intros (props & -> & E1 & E2 & E3 & E4 & N1 & M1 & N2 & N3 & L & U & K).
    assert (A1 : Joi.string_required true "email" (Body.get "email" props)
                 = inr (Value.email v))
      by (apply string_required_inr; auto).
    assert (A2 : Joi.string_required false "primarySkill"
                   (Body.get "primarySkill" props) = inr (Value.primarySkill v))
      by (apply string_required_inr; repeat split; auto; discriminate).
    assert (A3 : Joi.string_required false "biggestChallenge"
                   (Body.get "biggestChallenge" props)
                 = inr (Value.biggestChallenge v))
      by (apply string_required_inr; repeat split; auto; discriminate).
    assert (A4 : Joi.number_required 1 5 "interestLevel"
                   (Body.get "interestLevel" props)
                 = inr (Value.interestLevel v))
      by (apply number_required_inr; auto).
    pose proof (proj2 (unknown_keys_nil _ _) K) as K'.
    rewrite A1, A2, A3, A4, K'. destruct v; reflexivity.
Qed.

(** A body that is accepted holds its address under [email]. *)
Lemma waitlistSchema_validate_email `{Host} (b : Body.t) (v : Value.t) :
  waitlistSchema_validate b = inr v ->
  Body.email b = Some (JString (Value.email v)).
Proof.
  intros V. apply waitlistSchema_validate_inr in V.
  destruct V as (props & -> & E & _). exact E.
Qed.

(** A rejected body answers 400 with the detail and touches nothing. *)
Lemma post_waitlist_invalid `{Host} svc T fails now b s tr d :
  waitlistSchema_validate b = inl d ->
  post_waitlist svc T fails now b s tr = (ValidationFailed d, s, tr).
Proof. intros E. unfold post_waitlist. rewrite E. reflexivity. Qed.




(** The schema on bodies of other shapes, on the sample host: the level
    as the string the page posts is accepted, as a word it is not; a fifth
    key is refused; so are an array, a level that is [true] or infinite and
    an address that is a number; a key [__proto__] is passed over, and the
    four values are read through the object it holds. *)
Example waitlistSchema_other_shapes :
  let four (level : JSON) :=
    [ ("email", JString "a@x.com"); ("primarySkill", JString "design");
      ("biggestChallenge", JString "finding_clients");
      ("interestLevel", level) ] in
  let refused (b : Body.t) :=
    match @waitlistSchema_validate sample_host b with
    | inl d => Some d
    | inr _ => None
    end in
  @waitlistSchema_validate sample_host (Body.object (four (JString "4")))
  = inr (sample_value 4)
  /\ refused (Body.object (four (JString "four")))
     = Some {| Joi.path := ["interestLevel"]; Joi.type := Joi.number_base |}
  /\ refused (Body.object (four (JNumber 4) ++ [("referrer", JString "x")]))
     = Some {| Joi.path := ["referrer"]; Joi.type := Joi.object_unknown |}
  /\ refused (Body.array [])
     = Some {| Joi.path := []; Joi.type := Joi.object_base |}
  /\ refused (Body.object (four (JBool true)))
     = Some {| Joi.path := ["interestLevel"]; Joi.type := Joi.number_base |}
  /\ refused (Body.object (four (JInfinity false)))
     = Some {| Joi.path := ["interestLevel"]; Joi.type := Joi.number_infinity |}
  /\ refused (Body.object (("email", JNumber 1) :: four (JNumber 4)))
     = Some {| Joi.path := ["email"]; Joi.type := Joi.string_base |}
  /\ refused (Body.object [])
     = Some {| Joi.path := ["email"]; Joi.type := Joi.any_required |}
  /\ @waitlistSchema_validate sample_host
       (Body.object [("__proto__", JObject (four (JNumber 4)))])
     = inr (sample_value 4).
Proof. cbv zeta. repeat split; reflexivity. Qed.

(** ** The signup transaction *)

Lemma findUnique_None_existsb (email : string) (s : Store) :
  user_findUnique email s = None ->
  existsb (fun u => (User.email u =? email)%string) (users s) = false.
Proof.
  unfold user_findUnique. induction (users s) as [|u l IH]; simpl; auto.
  destruct (User.email u =? email)%string; [discriminate|auto].
Qed.

Lemma findUnique_Some_In (email : string) (s : Store) :
  (exists u, In u (users s) /\ User.email u = email) ->
  exists u, user_findUnique email s = Some u.
Proof.
  intros (u & I & E). unfold user_findUnique.
  destruct (find _ (users s)) as [u'|] eqn:F; [eauto|].
  apply (find_none _ _ F) in I. rewrite E, String.eqb_refl in I. discriminate.
Qed.

Lemma fresh_id_not_In (ids : list nat) : ~ In (fresh_id ids) ids.
Proof.
  unfold fresh_id. intros I.
  assert (L : (S (list_max ids) <= list_max ids)%nat).
  { pose proof (proj1 (list_max_le ids (list_max ids)) (Nat.le_refl _)) as F.
    rewrite Forall_forall in F. now apply F. }
  lia.
Qed.

Lemma existsb_own_id (l : list User.t) (u : User.t) :
  existsb (fun u' => (User.id u' =? User.id u)%nat) (l ++ [u]) = true.
Proof. rewrite existsb_app. simpl. rewrite Nat.eqb_refl. apply orb_true_r. Qed.

(** The transaction body throws as soon as one insert does. *)
Lemma create_user_and_responses_throws `{Host} fails now v s :
  insert_fails fails = true ->
  create_user_and_responses fails now v s = None.
Proof.
  unfold insert_fails, create_user_and_responses, tx_bind. intros F.
  unfold user_create at 1.
  destruct (fails UserCreate); [reflexivity|].
  destruct (existsb _ (users s)); [reflexivity|].
  unfold response_create at 1. cbn [users responses].
  destruct (fails (ResponseCreate primary_skill)); [reflexivity|].
  destruct (negb _); [reflexivity|].
  unfold response_create at 1. cbn [users responses].
  destruct (fails (ResponseCreate biggest_challenge)); [reflexivity|].
  destruct (negb _); [reflexivity|].
  unfold response_create at 1. cbn [users responses].
  destruct (fails (ResponseCreate interest_level)); [reflexivity|].
  discriminate.
Qed.

(** The transaction body, when no insert throws and the address is new:
    one user row and the three answers, appended to the tables. *)
Lemma create_user_and_responses_ok `{Host} fails now v s :
  insert_fails fails = false ->
  user_findUnique (Value.email v) s = None ->
  exists u r1 r2 r3,
    create_user_and_responses fails now v s
    = Some ((u, [r1; r2; r3]),
            {| users := users s ++ [u];
               responses := responses s ++ [r1; r2; r3] |})
    /\ u = {| User.id := fresh_id (map User.id (users s));
              User.email := Value.email v;
              User.createdAt := now;
              User.updatedAt := now |}
    /\ Response.userId r1 = User.id u
    /\ Response.userId r2 = User.id u
    /\ Response.userId r3 = User.id u
    /\ Response.questionId r1 = "primary_skill"
    /\ Response.questionId r2 = "biggest_challenge"
    /\ Response.questionId r3 = "interest_level"
    /\ Response.answer r1 = Value.primarySkill v
    /\ Response.answer r2 = Value.biggestChallenge v
    /\ Response.answer r3 = Number_toString (Value.interestLevel v).
Proof.
  unfold insert_fails. intros F N.
  apply orb_false_elim in F. destruct F as [F F3].
  apply orb_false_elim in F. destruct F as [F F2].
  apply orb_false_elim in F. destruct F as [F0 F1].
  apply findUnique_None_existsb in N.
  unfold create_user_and_responses, tx_bind.
  unfold user_create at 1. rewrite F0, N.
  set (u := {| User.id := fresh_id (map User.id (users s));
               User.email := Value.email v; User.createdAt := now;
               User.updatedAt := now |}).
  unfold response_create at 1. cbn [users responses].
  rewrite F1, (existsb_own_id (users s) u). cbn [negb].
  unfold response_create at 1. cbn [users responses].
  rewrite F2, (existsb_own_id (users s) u). cbn [negb].
  unfold response_create at 1. cbn [users responses].
  rewrite F3, (existsb_own_id (users s) u). cbn [negb].
  unfold tx_ret. rewrite <- !app_assoc. cbn [app].
  do 4 eexists. split; [reflexivity|]. repeat split.
Qed.

(** The handler once the body is accepted and the address is new: what is
    left is the transaction, the count and the notifications. *)
Lemma post_waitlist_new `{Host} svc T fails now b v s tr :
  waitlistSchema_validate b = inr v ->
  fails FindUnique = false ->
  user_findUnique (Value.email v) s = None ->
  post_waitlist svc T fails now b s tr
  = match create_user_and_responses fails now v s with
    | None => (InternalError, s, tr)
    | Some (result, s') =>
        if fails Count then (InternalError, s', tr)
        else
          let (emailResult, tr') :=
            sendWelcomeEmail svc T (Value.email v)
              {| UserData.position := user_count s';
                 UserData.primarySkill := Value.primarySkill v;
                 UserData.biggestChallenge := Value.biggestChallenge v;
                 UserData.interestLevel := Value.interestLevel v;
                 UserData.email := Value.email v |} tr in
          (Created (User.id (fst result)) (WelcomeResult.success emailResult)
                   (user_count s'), s',
           tr' ++ [Broadcast (counter_update (user_count s'));
                   Broadcast (spots_update (Z.max (500 - user_count s') 0))])
    end.
Proof.
  intros V F N. unfold post_waitlist, transaction. rewrite V, F, N.
  destruct (create_user_and_responses fails now v s) as [[result s']|];
    [|reflexivity].
  destruct (fails Count); [reflexivity|].
  unfold io_bind, broadcastUpdate, io_ret.
  destruct (sendWelcomeEmail _ _ _ _ tr) as [emailResult tr'].
  now rewrite <- app_assoc.
Qed.

(** C1. Once a submission has passed validation and the duplicate check, the
    handler leaves the store in one of two states. If one of the four
    inserts throws, the answer is 500 and the store is the one before the
    request: no user row without its answers stays. Otherwise the store has
    gained exactly one user row (fresh id, the submitted address) and
    exactly three answers tied to it, for [primary_skill],
    [biggest_challenge] and [interest_level], the last one holding the
    level printed by [toString]. *)
Theorem signup_all_or_nothing `{Host} svc T fails now b v s tr :
  waitlistSchema_validate b = inr v ->
  fails FindUnique = false ->
  user_findUnique (Value.email v) s = None ->
  (insert_fails fails = true ->
   fst (post_waitlist svc T fails now b s tr) = (InternalError, s))
  /\ (insert_fails fails = false ->
      exists reply u r1 r2 r3,
        fst (post_waitlist svc T fails now b s tr)
        = (reply, {| users := users s ++ [u];
                     responses := responses s ++ [r1; r2; r3] |})
        /\ ~ In (User.id u) (map User.id (users s))
        /\ User.email u = Value.email v
        /\ User.createdAt u = now
        /\ Response.userId r1 = User.id u
        /\ Response.userId r2 = User.id u
        /\ Response.userId r3 = User.id u
        /\ Response.questionId r1 = "primary_skill"
        /\ Response.questionId r2 = "biggest_challenge"
        /\ Response.questionId r3 = "interest_level"
        /\ Response.answer r1 = Value.primarySkill v
        /\ Response.answer r2 = Value.biggestChallenge v
        /\ Response.answer r3 = Number_toString (Value.interestLevel v)
        /\ (reply = InternalError
            \/ exists emailSent,
                reply = Created (User.id u) emailSent (user_count s + 1))).
Proof.
  intros V F N. rewrite (post_waitlist_new svc T fails now b v s tr V F N).
  split; intros I.
  - now rewrite (create_user_and_responses_throws fails now v s I).
  - destruct (create_user_and_responses_ok fails now v s I N)
      as (u & r1 & r2 & r3 & -> & Eu & P).
    assert (C : user_count {| users := users s ++ [u];
                              responses := responses s ++ [r1; r2; r3] |}
                = user_count s + 1).
    { unfold user_count. cbn [users]. rewrite length_app. simpl. lia. }
    assert (Fresh : ~ In (User.id u) (map User.id (users s)))
      by (rewrite Eu; apply fresh_id_not_In).
    assert (Em : User.email u = Value.email v) by now rewrite Eu.
    assert (Ti : User.createdAt u = now) by now rewrite Eu.
    destruct (fails Count).
    + exists InternalError, u, r1, r2, r3. simpl. tauto.
    + destruct (sendWelcomeEmail _ _ _ _ tr) as [emailResult tr'].
      exists (Created (User.id u) (WelcomeResult.success emailResult)
                      (user_count s + 1)), u, r1, r2, r3.
      cbn [fst]. rewrite C. split; [reflexivity|].
      repeat (split; [tauto|]). right. eauto.
Qed.

(** What a 201 answer tells about the request and the store. *)
Lemma post_waitlist_Created_inv `{Host} svc T fails now b s tr
  userId emailSent position s' tr' :
  post_waitlist svc T fails now b s tr
  = (Created userId emailSent position, s', tr') ->
  exists v u rs,
    waitlistSchema_validate b = inr v
    /\ user_findUnique (Value.email v) s = None
    /\ insert_fails fails = false
    /\ fails Count = false
    /\ s' = {| users := users s ++ [u]; responses := responses s ++ rs |}
    /\ User.email u = Value.email v
    /\ User.createdAt u = now
    /\ userId = User.id u
    /\ position = user_count s + 1.
Proof.
  intros E.
  destruct (waitlistSchema_validate b) as [d|v] eqn:V.
  { rewrite (post_waitlist_invalid svc T fails now b s tr d V) in E.
    discriminate. }
  destruct (fails FindUnique) eqn:F.
  { unfold post_waitlist in E. rewrite V, F in E. discriminate. }
  destruct (user_findUnique (Value.email v) s) as [u0|] eqn:N.
  { unfold post_waitlist in E. rewrite V, F, N in E. discriminate. }
  rewrite (post_waitlist_new svc T fails now b v s tr V F N) in E.
  destruct (insert_fails fails) eqn:I.
  { rewrite (create_user_and_responses_throws fails now v s I) in E.
    discriminate. }
  destruct (create_user_and_responses_ok fails now v s I N)
    as (u & r1 & r2 & r3 & C & Eu & _).
  rewrite C in E. destruct (fails Count) eqn:FC; [discriminate|].
  destruct (sendWelcomeEmail _ _ _ _ tr) as [emailResult tr1].
  cbn [fst] in E. injection E as E1 E2 E3 E4 E5.
  exists v, u, [r1; r2; r3]. repeat split; auto.
  - now rewrite Eu.
  - now rewrite Eu.
  - rewrite <- E3. unfold user_count. cbn [users]. rewrite length_app.
    simpl. lia.
Qed.

(** An address that is in the store answers 409; nothing is written, sent
    or broadcast. *)
Lemma post_waitlist_conflict `{Host} svc T fails now b v s tr :
  waitlistSchema_validate b = inr v ->
  fails FindUnique = false ->
  (exists u, In u (users s) /\ User.email u = Value.email v) ->
  post_waitlist svc T fails now b s tr = (AlreadyRegistered, s, tr).
Proof.
  intros V F I. apply findUnique_Some_In in I. destruct I as [u N].
  unfold post_waitlist. now rewrite V, F, N.
Qed.

(** C2. A submission whose address is already in the store answers 409 and
    changes nothing: the store (so the row of that address too) and the
    trace are the ones before the request. So after a signup that answered
    201, a second submission with the same address answers 409, and over
    the two requests the number of users has grown by exactly one. *)
Theorem duplicate_email_conflict `{Host} :
  (forall svc T fails now b v s tr,
      waitlistSchema_validate b = inr v ->
      fails FindUnique = false ->
      (exists u, In u (users s) /\ User.email u = Value.email v) ->
      post_waitlist svc T fails now b s tr = (AlreadyRegistered, s, tr))
  /\ (forall svc T fails now b s tr userId emailSent position s1 tr1
             svc' T' fails' now' b' v',
         post_waitlist svc T fails now b s tr
         = (Created userId emailSent position, s1, tr1) ->
         Body.email b' = Body.email b ->
         waitlistSchema_validate b' = inr v' ->
         fails' FindUnique = false ->
         post_waitlist svc' T' fails' now' b' s1 tr1
         = (AlreadyRegistered, s1, tr1)
         /\ user_count s1 = user_count s + 1).
Proof.
  split.
  - intros. eapply post_waitlist_conflict; eauto.
  - intros svc T fails now b s tr userId emailSent position s1 tr1
      svc' T' fails' now' b' v' E Eb V' F'.
    apply post_waitlist_Created_inv in E.
    destruct E as (v & u & rs & V & _ & _ & _ & -> & Eu & _).
    split.
    + apply (post_waitlist_conflict svc' T' fails' now' b' v'); auto.
      exists u. cbn [users]. split; [apply in_or_app; right; now left|].
      apply waitlistSchema_validate_email in V, V'. congruence.
    + unfold user_count. cbn [users]. rewrite length_app. simpl. lia.
Qed.

(** C4. A valid submission with a new address, when no query fails, answers
    201 with [position] the number of users after the insert, one more than
    before; [GET /api/stats] right after shows that count and
    [max(500 - count, 0)] spots left. On an empty store the position is 1
    and the stats are 1 and 499. *)
Theorem signup_position_and_stats `{Host} svc T fails now b v s tr :
  waitlistSchema_validate b = inr v ->
  user_findUnique (Value.email v) s = None ->
  (forall q, fails q = false) ->
  exists userId emailSent s' tr',
    post_waitlist svc T fails now b s tr
    = (Created userId emailSent (user_count s'), s', tr')
    /\ user_count s' = user_count s + 1
    /\ get_stats fails s'
       = Some {| Stats.totalSignups := user_count s + 1;
                 Stats.spotsLeft := Z.max (500 - (user_count s + 1)) 0 |}
    /\ (users s = [] ->
        user_count s' = 1
        /\ get_stats fails s'
           = Some {| Stats.totalSignups := 1; Stats.spotsLeft := 499 |}).
Proof.
  intros V N F.
  assert (I : insert_fails fails = false)
    by (unfold insert_fails; now rewrite !F).
  rewrite (post_waitlist_new svc T fails now b v s tr V (F _) N).
  destruct (create_user_and_responses_ok fails now v s I N)
    as (u & r1 & r2 & r3 & -> & _).
  rewrite (F Count).
  destruct (sendWelcomeEmail _ _ _ _ tr) as [emailResult tr1].
  set (s' := {| users := users s ++ [u];
                responses := responses s ++ [r1; r2; r3] |}).
  assert (C : user_count s' = user_count s + 1).
  { unfold user_count, s'. cbn [users]. rewrite length_app. simpl. lia. }
  exists (User.id u), (WelcomeResult.success emailResult), s'.
  eexists. split; [reflexivity|]. split; [exact C|].
  unfold get_stats. rewrite (F Count), C. split; [reflexivity|].
  intros E. unfold user_count. rewrite E. simpl. split; reflexivity.
Qed.

(** ** The welcome mail without credentials *)

Lemma sends_app (tr tr' : Trace) : sends (tr ++ tr') = sends tr ++ sends tr'.
Proof. unfold sends. now rewrite flat_map_app. Qed.

Lemma sendWelcomeEmail_demo svc T userEmail userData tr :
  isConfigured svc = false ->
  sendWelcomeEmail svc T userEmail userData tr = (welcome_ok, tr).
Proof. intros E. unfold sendWelcomeEmail. now rewrite E. Qed.

(** The signup handler never reaches the transport when the service has no
    credentials, and a 201 then says [emailSent: true]. *)
Lemma post_waitlist_demo `{Host} svc T fails now b s tr reply s' tr' :
  isConfigured svc = false ->
  post_waitlist svc T fails now b s tr = (reply, s', tr') ->
  sends tr' = sends tr
  /\ forall userId emailSent position,
       reply = Created userId emailSent position -> emailSent = true.
Proof.
  intros D. unfold post_waitlist.
  destruct (waitlistSchema_validate b) as [d|v].
  { intros [= <- <- <-]. split; [reflexivity|discriminate]. }
  destruct (fails FindUnique).
  { intros [= <- <- <-]. split; [reflexivity|discriminate]. }
  destruct (user_findUnique _ s).
  { intros [= <- <- <-]. split; [reflexivity|discriminate]. }
  destruct (transaction _ s) as [[result|] s1].
  2:{ intros [= <- <- <-]. split; [reflexivity|discriminate]. }
  destruct (fails Count).
  { intros [= <- <- <-]. split; [reflexivity|discriminate]. }
  unfold io_bind. rewrite (sendWelcomeEmail_demo svc T _ _ tr D).
  unfold broadcastUpdate, io_ret. intros [= <- <- <-]. split.
  - rewrite !sends_app. simpl. now rewrite !app_nil_r.
  - intros userId emailSent position [= _ <- _]. reflexivity.
Qed.

(** C7. A service built from an environment where [RESEND_API_KEY] is unset
    (or empty) is in demo mode: for every recipient and profile, [sendWelcomeEmail] answers
    [{ success: true }] with no error and leaves the trace as it was, so the
    transport is not called. Its caller, the signup handler, hands no mail
    to the transport either, and every 201 it answers says
    [emailSent: true]. *)
Theorem welcome_demo_mode `{Host} (env : Env) (T : Transport) :
  truthy (RESEND_API_KEY env) = false ->
  (forall userEmail userData tr,
      sendWelcomeEmail (new_EmailService env) T userEmail userData tr
      = ({| WelcomeResult.success := true; WelcomeResult.error := None |}, tr))
  /\ (forall fails now b s tr reply s' tr',
         post_waitlist (new_EmailService env) T fails now b s tr
         = (reply, s', tr') ->
         sends tr' = sends tr
         /\ forall userId emailSent position,
              reply = Created userId emailSent position -> emailSent = true).
Proof.
  intros K.
  assert (D : isConfigured (new_EmailService env) = false)
    by exact K.
  split.
  - intros. now apply sendWelcomeEmail_demo.
  - intros fails now b s tr reply s' tr' E.
    exact (post_waitlist_demo _ T fails now b s tr reply s' tr' D E).
Qed.

(** ** The batched progress update *)

Lemma sends_snoc_Send (tr : Trace) (m : Mail.t) :
  sends (tr ++ [Send m]) = sends tr ++ [m].
Proof. now rewrite sends_app. Qed.

Lemma sends_snoc_Delay (tr : Trace) (ms : Z) :
  sends (tr ++ [Delay ms]) = sends tr.
Proof. rewrite sends_app. simpl. apply app_nil_r. Qed.

Lemma skipn_nil_iff {A} (i : nat) (l : list A) :
  skipn i l = [] <-> (List.length l <= i)%nat.
Proof.
  split; intros E.
  - pose proof (length_skipn i l) as L. rewrite E in L. simpl in L. lia.
  - now apply skipn_all2.
Qed.

(** The loop, iteration by iteration: from index [i] it hands the pieces of
    the rest of the list to the transport, whatever the transport answers,
    and pauses between two of them. *)
Lemma send_batches_spec svc T emails subject :
  forall fuel i results tr,
    (List.length emails - i <= fuel)%nat ->
    let mails := map (update_mail svc subject)
                     (chunk fuel batchSize (skipn i emails)) in
    send_batches fuel svc T emails subject i results tr
    = (results ++ batch_outcomes T (List.length (sends tr)) mails,
       tr ++ batch_events mails).
Proof.
  induction fuel as [|fuel IH]; intros i results tr Hf; cbn zeta.
  - simpl. unfold io_ret. now rewrite !app_nil_r.
  - cbn [send_batches chunk].
    destruct (Nat.ltb_spec i (List.length emails)) as [Hi|Hi].
    2:{ rewrite (proj2 (skipn_nil_iff i emails) Hi). simpl.
        unfold io_ret. now rewrite !app_nil_r. }
    destruct (skipn i emails) as [|e rest] eqn:Es.
    { apply skipn_nil_iff in Es. lia. }
    rewrite <- Es.
    assert (Sl : slice i (i + batchSize) emails = firstn batchSize (skipn i emails)).
    { unfold slice. f_equal. lia. }
    assert (Sk : skipn batchSize (skipn i emails) = skipn (i + batchSize) emails).
    { rewrite skipn_skipn. f_equal. lia. }
    rewrite Sl, Sk. unfold io_bind, emails_send.
    set (batch := firstn batchSize (skipn i emails)).
    fold (update_mail svc subject batch).
    set (m := update_mail svc subject batch).
    assert (Hf' : (List.length emails - (i + batchSize) <= fuel)%nat)
      by (unfold batchSize; lia).
    destruct (Nat.ltb_spec (i + batchSize) (List.length emails)) as [Hn|Hn].
    + unfold sleep.
      rewrite (IH (i + batchSize)%nat _ _ Hf'). cbn zeta.
      rewrite sends_snoc_Delay, sends_snoc_Send, length_app. cbn [List.length].
      replace (List.length (sends tr) + 1)%nat with (S (List.length (sends tr)))
        by lia.
      destruct (chunk fuel batchSize (skipn (i + batchSize) emails))
        as [|b bs] eqn:Ec.
      { exfalso. destruct fuel; [lia|]. cbn [chunk] in Ec.
        destruct (skipn (i + batchSize) emails) eqn:Es'; [|discriminate].
        apply skipn_nil_iff in Es'. lia. }
      cbn [map batch_outcomes batch_events]. fold m.
      rewrite <- !app_assoc. reflexivity.
    + unfold io_ret.
      rewrite (IH (i + batchSize)%nat _ _ Hf'). cbn zeta.
      rewrite (proj2 (skipn_nil_iff (i + batchSize) emails) Hn).
      assert (chunk fuel batchSize (@nil string) = []) as ->
        by (destruct fuel; reflexivity).
      cbn [map batch_outcomes batch_events]. fold m.
      rewrite !app_nil_r. reflexivity.
Qed.

Lemma concat_chunk {A} (n : nat) :
  (0 < n)%nat ->
  forall fuel (l : list A),
    (List.length l <= fuel)%nat -> List.concat (chunk fuel n l) = l.
Proof.
  intros Hn. induction fuel as [|fuel IH]; intros l Hl.
  - destruct l; [reflexivity|simpl in Hl; lia].
  - destruct l as [|x l']; [reflexivity|].
    cbn [chunk List.concat]. rewrite IH.
    + apply firstn_skipn.
    + rewrite length_skipn. cbn [List.length] in *. lia.
Qed.

(** The sizes of the pieces: full ones, then what is left. *)
Lemma chunk_sizes {A} (n : nat) :
  (0 < n)%nat ->
  forall fuel (l : list A),
    (List.length l <= fuel)%nat ->
    map (@List.length A) (chunk fuel n l)
    = repeat n (List.length l / n)
      ++ (if (List.length l mod n =? 0)%nat then [] else [(List.length l mod n)%nat]).
Proof.
  intros Hn. induction fuel as [|fuel IH]; intros l Hl.
  - destruct l; [|simpl in Hl; lia]. simpl.
    rewrite Nat.Div0.div_0_l, Nat.Div0.mod_0_l. reflexivity.
  - destruct l as [|x l'].
    { simpl. rewrite Nat.Div0.div_0_l, Nat.Div0.mod_0_l. reflexivity. }
    cbn [chunk map]. set (l := x :: l') in *.
    assert (Hs : (List.length (skipn n l) <= fuel)%nat).
    { rewrite length_skipn. unfold l in *. cbn [List.length] in *. lia. }
    rewrite (IH _ Hs), length_firstn, length_skipn.
    destruct (Nat.le_gt_cases n (List.length l)) as [Hge|Hlt].
    + rewrite Nat.min_l by exact Hge.
      assert (E : List.length l = (List.length l - n + 1 * n)%nat) by lia.
      assert (Hd : (List.length l / n = S ((List.length l - n) / n))%nat).
      { rewrite E at 1. rewrite Nat.div_add by lia. lia. }
      assert (Hm : (List.length l mod n = (List.length l - n) mod n)%nat).
      { rewrite E at 1. apply Nat.Div0.mod_add. }
      rewrite Hd, Hm. reflexivity.
    + rewrite Nat.min_r by lia.
      replace (List.length l - n)%nat with 0%nat by lia.
      rewrite Nat.Div0.div_0_l, Nat.Div0.mod_0_l.
      rewrite (Nat.div_small (List.length l) n) by lia.
      rewrite (Nat.mod_small (List.length l) n) by lia.
      assert (Hp : (List.length l =? 0)%nat = false)
        by (apply Nat.eqb_neq; unfold l; simpl; lia).
      rewrite Hp. reflexivity.
Qed.

Lemma batch_results_emails (r : Outcome) (batch : list string) :
  map Delivery.email (batch_results r batch) = batch.
Proof.
  destruct r; simpl; rewrite map_map; simpl; apply map_id.
Qed.

Lemma batch_outcomes_emails (T : Transport) (mails : list Mail.t) :
  forall k, map Delivery.email (batch_outcomes T k mails)
            = List.concat (map Mail.to mails).
Proof.
  induction mails as [|m rest IH]; intros k; simpl; [reflexivity|].
  now rewrite map_app, batch_results_emails, IH.
Qed.

Lemma update_mail_to svc subject (bs : list (list string)) :
  map Mail.to (map (update_mail svc subject) bs) = bs.
Proof. rewrite map_map. simpl. apply map_id. Qed.

(** Every recipient gets exactly one result, in the order of the list. *)
Lemma batch_outcomes_cover svc T subject (emails : list string) (k : nat) :
  map Delivery.email
    (batch_outcomes T k (map (update_mail svc subject) (batches emails)))
  = emails.
Proof.
  rewrite batch_outcomes_emails, update_mail_to. unfold batches.
  apply concat_chunk; [unfold batchSize; lia|lia].
Qed.

(** The service with credentials: the whole run of [sendProgressUpdate]. *)
Lemma sendProgressUpdate_live svc T emails subject content tr :
  isConfigured svc = true ->
  let mails := map (update_mail svc subject) (batches emails) in
  let results := batch_outcomes T (List.length (sends tr)) mails in
  sendProgressUpdate svc T emails subject content tr
  = ({| UpdateResult.success := true;
        UpdateResult.sent :=
          Z.of_nat (List.length (filter Delivery.success results));
        UpdateResult.total := Some (Z.of_nat (List.length emails));
        UpdateResult.results := Some results |},
     tr ++ batch_events mails).
Proof.
  intros C. cbn zeta. unfold sendProgressUpdate. rewrite C. cbn [negb].
  unfold io_bind.
  rewrite (send_batches_spec svc T emails subject (List.length emails) 0 [] tr)
    by lia.
  reflexivity.
Qed.

Lemma sendProgressUpdate_demo svc T emails subject content tr :
  isConfigured svc = false ->
  sendProgressUpdate svc T emails subject content tr
  = ({| UpdateResult.success := true;
        UpdateResult.sent := Z.of_nat (List.length emails);
        UpdateResult.total := None;
        UpdateResult.results := None |}, tr).
Proof. intros C. unfold sendProgressUpdate. now rewrite C. Qed.


(** C8 (as the code has it). With credentials, for every recipient list
    [sendProgressUpdate] cuts the list into consecutive batches of 50 (the
    last one holds the remainder), hands them to the transport one after
    the other whatever the transport answers, waits one second between two
    batches, and returns [success], [sent] (the recipients of the batches
    that went through), [total] (the number of recipients) and one result
    per recipient, in order; 120 recipients make batches of 50, 50 and 20
    and 120 results. Without credentials nothing is handed to the
    transport and the answer is [success] with [sent] the number of
    recipients. *)
Theorem progress_update_batches svc T emails subject content tr :
  (isConfigured svc = true ->
   let mails := map (update_mail svc subject) (batches emails) in
   let results := batch_outcomes T (List.length (sends tr)) mails in
   sendProgressUpdate svc T emails subject content tr
   = ({| UpdateResult.success := true;
         UpdateResult.sent :=
           Z.of_nat (List.length (filter Delivery.success results));
         UpdateResult.total := Some (Z.of_nat (List.length emails));
         UpdateResult.results := Some results |},
      tr ++ batch_events mails)
   /\ List.concat (batches emails) = emails
   /\ map (@List.length string) (batches emails)
      = repeat 50%nat (List.length emails / 50)
        ++ (if (List.length emails mod 50 =? 0)%nat then []
            else [(List.length emails mod 50)%nat])
   /\ map Delivery.email results = emails
   /\ (List.length emails = 120%nat ->
       map (@List.length string) (batches emails) = [50; 50; 20]%nat
       /\ List.length results = 120%nat))
  /\ (isConfigured svc = false ->
      let (result, tr') := sendProgressUpdate svc T emails subject content tr in
      UpdateResult.success result = true
      /\ UpdateResult.sent result = Z.of_nat (List.length emails)
      /\ tr' = tr).
Proof.
  split.
  - intros C. cbn zeta.
    assert (Sz : map (@List.length string) (batches emails)
                 = repeat 50%nat (List.length emails / 50)
                   ++ (if (List.length emails mod 50 =? 0)%nat then []
                       else [(List.length emails mod 50)%nat])).
    { unfold batches. apply (chunk_sizes 50); lia. }
    assert (Cv := batch_outcomes_cover svc T subject emails
                    (List.length (sends tr))).
    split; [now apply sendProgressUpdate_live|].
    split; [unfold batches; apply concat_chunk; unfold batchSize; lia|].
    split; [exact Sz|]. split; [exact Cv|].
    intros L. split.
    + rewrite Sz, L. reflexivity.
    + pose proof (f_equal (@List.length string) Cv) as Lc.
      rewrite length_map in Lc. now rewrite Lc.
  - intros C. rewrite (sendProgressUpdate_demo svc T emails subject content tr C).
    simpl. auto.
Qed.

(** C8 at 120 recipients, with credentials and a transport that lets
    everything through. *)
Lemma progress_update_batches_witness :
  isConfigured live_service = true
  /\ map (@List.length string) (batches (repeat "a@x.com" 120)) = [50; 50; 20]%nat
  /\ map Delivery.email
       (batch_outcomes (fun _ _ => Sent) 0
          (map (update_mail live_service "News")
               (batches (repeat "a@x.com" 120))))
     = repeat "a@x.com" 120.
Proof.
  pose proof (proj1 (progress_update_batches live_service (fun _ _ => Sent)
                       (repeat "a@x.com" 120) "News" "Hello" []) eq_refl)
    as W.
  cbn zeta in W. destruct W as (_ & _ & _ & W3 & W4).
  split; [reflexivity|]. split; [apply W4; reflexivity|exact W3].
Defined.

(** C8 as the specification words it does not hold: without credentials,
    120 recipients give no batch at all (the trace stays empty) and the
    answer carries neither [total] nor per-recipient results. *)
Lemma demo_update_sends_no_batch :
  sendProgressUpdate demo_service (fun _ _ => Sent) (repeat "a@x.com" 120)
    "News" "Hello" []
  = ({| UpdateResult.success := true;
        UpdateResult.sent := 120;
        UpdateResult.total := None;
        UpdateResult.results := None |}, []).
Proof. reflexivity. Qed.



(** ** The scenario of the specification, on the sample host *)

(** C1 on the empty store: the body of the scenario passes validation, its
    address is new, and when the third answer cannot be inserted the store
    stays empty. *)
Lemma signup_all_or_nothing_witness :
  @waitlistSchema_validate sample_host (sample_body 5) = inr (sample_value 5)
  /\ user_findUnique "a@x.com" empty_store = None
  /\ fst (@post_waitlist sample_host demo_service always_sent
            interest_insert_fails 0 (sample_body 5) empty_store [])
     = (InternalError, empty_store).
Proof.
  split; [reflexivity|]. split; [reflexivity|].
  apply (proj1 (@signup_all_or_nothing sample_host demo_service always_sent
                  interest_insert_fails 0 (sample_body 5) (sample_value 5)
                  empty_store [] eq_refl eq_refl eq_refl)).
  reflexivity.
Defined.

(** C2 in the scenario: the second submission of [a@x.com] answers 409 and
    the store keeps its single user. *)
Lemma duplicate_email_conflict_witness :
  @post_waitlist sample_host demo_service always_sent no_failure 1
    (sample_body 3) (snd (fst (first_signup 0))) (snd (first_signup 0))
  = (AlreadyRegistered, snd (fst (first_signup 0)), snd (first_signup 0))
  /\ user_count (snd (fst (first_signup 0))) = user_count empty_store + 1.
Proof.
  apply (proj2 (@duplicate_email_conflict sample_host)
           demo_service always_sent no_failure 0 (sample_body 5) empty_store []
           1%nat true 1 (snd (fst (first_signup 0))) (snd (first_signup 0))
           demo_service always_sent no_failure 1 (sample_body 3)
           (sample_value 3));
    reflexivity.
Defined.

(** C4 in the scenario: the first signup ever gets position 1, and the
    stats then show one signup and 499 spots. *)
Lemma signup_position_and_stats_witness :
  exists userId emailSent s' tr',
    first_signup 0 = (Created userId emailSent 1, s', tr')
    /\ get_stats no_failure s'
       = Some {| Stats.totalSignups := 1; Stats.spotsLeft := 499 |}.
Proof.
  destruct (@signup_position_and_stats sample_host demo_service always_sent
              no_failure 0 (sample_body 5) (sample_value 5) empty_store []
              eq_refl eq_refl (fun _ => eq_refl))
    as (userId & emailSent & s' & tr' & E & _ & _ & P).
  destruct (P eq_refl) as [P1 P2].
  exists userId, emailSent, s', tr'. split; [|exact P2].
  unfold first_signup. rewrite E, P1. reflexivity.
Defined.

(** C7 in the scenario: no credentials, no mail, success. *)
Lemma welcome_demo_mode_witness :
  truthy (RESEND_API_KEY no_credentials) = false
  /\ sendWelcomeEmail (new_EmailService no_credentials) always_sent "a@x.com"
       {| UserData.position := 1; UserData.primarySkill := "design";
          UserData.biggestChallenge := "finding_clients";
          UserData.interestLevel := 5; UserData.email := "a@x.com" |} []
     = ({| WelcomeResult.success := true; WelcomeResult.error := None |}, []).
Proof.
  split; [reflexivity|].
  apply (proj1 (@welcome_demo_mode sample_host no_credentials always_sent
                  eq_refl)).
Defined.

(** ** The weekly growth rate *)

Lemma string_length_append (a b : string) :
  String.length (a ++ b) = (String.length a + String.length b)%nat.
Proof. induction a as [|c a IH]; simpl; [reflexivity|now rewrite IH]. Qed.

Lemma decimal_digit_length (k : Z) :
  0 <= k < 10 -> String.length (decimal k) = 1%nat.
Proof.
  intros Hk.
  assert (E : k = 0 \/ k = 1 \/ k = 2 \/ k = 3 \/ k = 4 \/ k = 5 \/ k = 6
              \/ k = 7 \/ k = 8 \/ k = 9) by lia.
  repeat (destruct E as [->|E]; [reflexivity|]). now subst.
Qed.

(** [digits d n] is made of exactly [d] characters. *)
Lemma digits_length (d : nat) : forall n, String.length (digits d n) = d.
Proof.
  induction d as [|d IH]; intros n; simpl; [reflexivity|].
  rewrite string_length_append, IH, decimal_digit_length.
  - lia.
  - apply Z.mod_pos_bound. lia.
Qed.

Lemma decimal_not_infinity (n : Z) (s : string) : (decimal n ++ s)%string <> "∞".
Proof.
  unfold decimal. destruct (N.to_uint (Z.to_N n)); simpl; discriminate.
Qed.

(** [toFixed] never prints the marker the handler uses for "no rate". *)
Lemma toFixed_not_infinity (d : nat) (x : Q) : toFixed d x <> "∞".
Proof.
  unfold toFixed. destruct (Qle_bool 0 x).
  - apply decimal_not_infinity.
  - simpl. discriminate.
Qed.

(** [toFixed] on a number that is not negative: the nearest multiple of
    [10^-d], printed with exactly [d] decimals. *)
Lemma toFixed_nonneg (d : nat) (x : Q) :
  (0 <= x)%Q ->
  exists n : Z,
    0 <= n
    /\ (inject_Z n - (1 # 2) <= x * inject_Z (10 ^ Z.of_nat d))%Q
    /\ (x * inject_Z (10 ^ Z.of_nat d) < inject_Z n + (1 # 2))%Q
    /\ toFixed d x
       = (decimal (n / 10 ^ Z.of_nat d)
          ++ (if (d =? 0)%nat then ""
              else "." ++ digits d (n mod 10 ^ Z.of_nat d)))%string.
Proof.
  intros Hx. unfold toFixed.
  set (p := inject_Z (10 ^ Z.of_nat d)).
  set (y := (Qabs x * p + (1 # 2))%Q).
  assert (Ea : (Qabs x * p == x * p)%Q) by (now rewrite Qabs_pos).
  assert (Hp : (0 <= p)%Q).
  { unfold p. change 0%Q with (inject_Z 0). rewrite <- Zle_Qle.
    apply Z.pow_nonneg. lia. }
  exists (Qfloor y). repeat split.
  - rewrite <- (Qfloor_Z 0). apply Qfloor_resp_le. unfold y. rewrite Ea.
    apply (Qle_trans _ (0 + 0)); [discriminate|].
    apply Qplus_le_compat; [now apply Qmult_le_0_compat|discriminate].
  - pose proof (Qfloor_le y) as L. unfold y in L at 2. rewrite Ea in L.
    apply (Qplus_le_l _ _ (1 # 2)). ring_simplify.
    ring_simplify in L. exact L.
  - pose proof (Qlt_floor y) as L. unfold y in L at 1. rewrite Ea in L.
    rewrite inject_Z_plus in L.
    apply (Qplus_lt_l _ _ (1 # 2)). ring_simplify.
    ring_simplify in L. exact L.
  - apply Qle_bool_iff in Hx. now rewrite Hx.
Qed.

Lemma string_app_assoc (a b c : string) :
  ((a ++ b) ++ c = a ++ (b ++ c))%string.
Proof. induction a as [|x a IH]; simpl; [reflexivity|now rewrite IH]. Qed.

Lemma user_count_gte_bounds (gte : Z) (s : Store) :
  0 <= user_count_gte gte s <= user_count s.
Proof.
  unfold user_count_gte, user_count.
  pose proof (filter_length_le (fun u => gte <=? User.createdAt u) (users s)).
  lia.
Qed.

Lemma pow2_pos (e : Z) : (0 < pow2 e)%Q.
Proof. apply Qpower_0_lt. reflexivity. Qed.

Lemma pow2_add (a b : Z) : (pow2 (a + b) == pow2 a * pow2 b)%Q.
Proof. apply Qpower_plus. discriminate. Qed.

Lemma pow2_nonneg_Z (a : Z) : 0 <= a -> (pow2 a == inject_Z (2 ^ a))%Q.
Proof. intros Ha. unfold pow2. now rewrite Zpower_Qpower. Qed.

Lemma pow2_le (a b : Z) : a <= b -> (pow2 a <= pow2 b)%Q.
Proof.
  intros L. replace b with (a + (b - a)) by lia. rewrite pow2_add.
  rewrite (pow2_nonneg_Z (b - a)) by lia.
  assert (1 <= 2 ^ (b - a)) by (apply Z.pow_le_mono_r with (b := 0) (c := b - a) (a := 2); lia).
  assert (E : (1 <= inject_Z (2 ^ (b - a)))%Q)
    by (change 1%Q with (inject_Z 1); now rewrite <- Zle_Qle).
  pose proof (pow2_pos a). nra.
Qed.

(** [floor_log2] brackets its argument between two powers of two. *)
Lemma floor_log2_spec (x : Q) :
  (0 < x)%Q ->
  (pow2 (floor_log2 x) <= x /\ x < pow2 (floor_log2 x + 1))%Q.
Proof.
  intros Hx. destruct x as [p q]. unfold floor_log2. cbn [Qnum Qden].
  assert (Hp : 0 < p) by (unfold Qlt in Hx; simpl in Hx; lia).
  set (a := Z.log2 p). set (b := Z.log2 (Z.pos q)).
  destruct (Z.log2_spec p Hp) as [A1 A2]. fold a in A1, A2.
  destruct (Z.log2_spec (Z.pos q) (Pos2Z.is_pos q)) as [B1 B2]. fold b in B1, B2.
  assert (Ha : 0 <= a) by apply Z.log2_nonneg.
  assert (Hb : 0 <= b) by apply Z.log2_nonneg.
  assert (X : (p # q == inject_Z p / inject_Z (Z.pos q))%Q)
    by (rewrite Qmake_Qdiv; reflexivity).
  assert (Q0 : (0 < inject_Z (Z.pos q))%Q) by reflexivity.
  assert (PA1 : (inject_Z (2 ^ a) <= inject_Z p)%Q) by now rewrite <- Zle_Qle.
  assert (PA2 : (inject_Z p < inject_Z (2 ^ (a + 1)))%Q)
    by (rewrite <- Zlt_Qlt; now rewrite <- Z.add_1_r in A2).
  assert (PB1 : (inject_Z (2 ^ b) <= inject_Z (Z.pos q))%Q) by now rewrite <- Zle_Qle.
  assert (PB2 : (inject_Z (Z.pos q) < inject_Z (2 ^ (b + 1)))%Q)
    by (rewrite <- Zlt_Qlt; now rewrite <- Z.add_1_r in B2).
  rewrite <- (pow2_nonneg_Z a) in PA1 by lia.
  rewrite <- (pow2_nonneg_Z (a + 1)) in PA2 by lia.
  rewrite <- (pow2_nonneg_Z b) in PB1 by lia.
  rewrite <- (pow2_nonneg_Z (b + 1)) in PB2 by lia.
  pose proof (pow2_pos a) as Pa. pose proof (pow2_pos b) as Pb.
  pose proof (pow2_pos (a - b)) as Pab.
  assert (E0 : (pow2 a == pow2 (a - b) * pow2 b)%Q)
    by (rewrite <- pow2_add; now replace (a - b + b) with a by lia).
  assert (E1 : (pow2 (a + 1) == 2 * pow2 a)%Q)
    by (rewrite pow2_add; unfold pow2 at 2; simpl; ring).
  assert (E2 : (pow2 (b + 1) == 2 * pow2 b)%Q)
    by (rewrite pow2_add; unfold pow2 at 2; simpl; ring).
  assert (E3 : (pow2 (a - b + 1) == 2 * pow2 (a - b))%Q)
    by (rewrite pow2_add; unfold pow2 at 2; simpl; ring).
  assert (E4 : (pow2 (a - b) == 2 * pow2 (a - b - 1))%Q).
  { replace (a - b) with (a - b - 1 + 1) at 1 by lia.
    rewrite pow2_add. unfold pow2 at 2. simpl. ring. }
  set (P := inject_Z p) in *. set (Qq := inject_Z (Z.pos q)) in *.
  assert (Xm : (P == (p # q) * Qq)%Q).
  { rewrite X. field. intros E. rewrite E in Q0. discriminate. }
  assert (U : (p # q < pow2 (a - b + 1))%Q) by nra.
  assert (L : (pow2 (a - b - 1) < p # q)%Q) by nra.
  destruct (Qle_bool (pow2 (a - b)) (p # q)) eqn:T.
  - apply Qle_bool_iff in T. split; [exact T|exact U].
  - assert (T' : (p # q < pow2 (a - b))%Q).
    { apply Qnot_le_lt. intros C. apply Qle_bool_iff in C. congruence. }
    split; [now apply Qlt_le_weak|].
    now replace (a - b - 1 + 1) with (a - b) by lia.
Qed.

Lemma round_half_even_error (y : Q) :
  (y - (1 # 2) <= inject_Z (round_half_even y)
   /\ inject_Z (round_half_even y) <= y + (1 # 2))%Q.
Proof.
  unfold round_half_even.
  pose proof (Qfloor_le y) as L. pose proof (Qlt_floor y) as U.
  rewrite inject_Z_plus in U. change (inject_Z 1) with 1%Q in U.
  set (f := Qfloor y) in *.
  destruct (y - inject_Z f ?= 1 # 2)%Q eqn:C.
  - apply Qeq_alt in C. destruct (Z.even f).
    + split; lra.
    + rewrite inject_Z_plus. change (inject_Z 1) with 1%Q. split; lra.
  - apply Qlt_alt in C. split; lra.
  - apply Qgt_alt in C. rewrite inject_Z_plus. change (inject_Z 1) with 1%Q.
    split; lra.
Qed.

(** In the normal range a double is within half a unit in the last place
    of the number it rounds: a relative error of at most [2^-53]. *)
Lemma binary64_error (x : Q) :
  (0 < x)%Q -> (pow2 (-1022) <= x)%Q ->
  (x - x * pow2 (-53) <= binary64 x /\ binary64 x <= x + x * pow2 (-53))%Q.
Proof.
  intros Hx Hn. unfold binary64.
  pose proof (Qred_correct x) as R. set (r := Qred x) in *.
  assert (Hr : (0 < r)%Q) by now rewrite R.
  assert ((Qnum r =? 0) = false) as ->.
  { apply Z.eqb_neq. unfold Qlt in Hr. simpl in Hr. lia. }
  cbv zeta. rewrite Qred_correct.
  assert (Ar : Qabs r = r).
  { destruct r as [n d]. unfold Qlt in Hr. simpl in Hr.
    unfold Qabs. f_equal. apply Z.abs_eq. lia. }
  rewrite Ar.
  destruct (floor_log2_spec r Hr) as [F1 F2].
  set (fl := floor_log2 r) in *.
  assert (Hfl : -1022 <= fl).
  { destruct (Z_le_gt_dec (-1022) fl) as [?|G]; [assumption|exfalso].
    assert (pow2 (fl + 1) <= pow2 (-1022))%Q by (apply pow2_le; lia).
    rewrite R in F2. lra. }
  rewrite Z.max_l by lia.
  set (ulp := pow2 (fl - 52)).
  assert (Pu : (0 < ulp)%Q) by apply pow2_pos.
  destruct (round_half_even_error (r / ulp)) as [M1 M2].
  set (m := inject_Z (round_half_even (r / ulp))) in *.
  assert (Eu : (pow2 fl * pow2 (-53) * 2 == ulp)%Q).
  { unfold ulp. replace (fl - 52) with (fl + (-53) + 1) by lia.
    rewrite !pow2_add. unfold pow2 at 5. simpl. ring. }
  assert (D : (r / ulp * ulp == x)%Q) by (rewrite <- R; field; lra).
  pose proof (pow2_pos (-53)) as P53.
  assert (F1' : (pow2 fl <= x)%Q) by (rewrite <- R; exact F1).
  set (d := (r / ulp)%Q) in *.
  assert (H1 : ((d - (1 # 2)) * ulp <= m * ulp)%Q)
    by (apply Qmult_le_compat_r; [exact M1|now apply Qlt_le_weak]).
  assert (H2 : (m * ulp <= (d + (1 # 2)) * ulp)%Q)
    by (apply Qmult_le_compat_r; [exact M2|now apply Qlt_le_weak]).
  assert (H3 : (ulp <= x * pow2 (-53) * 2)%Q).
  { rewrite <- Eu. apply Qmult_le_compat_r; [|discriminate].
    apply Qmult_le_compat_r; [exact F1'|now apply Qlt_le_weak]. }
  assert (D1 : ((d - (1 # 2)) * ulp == x - ulp * (1 # 2))%Q).
  { transitivity (d * ulp - ulp * (1 # 2))%Q; [ring|]. now rewrite D. }
  assert (D2 : ((d + (1 # 2)) * ulp == x + ulp * (1 # 2))%Q).
  { transitivity (d * ulp + ulp * (1 # 2))%Q; [ring|]. now rewrite D. }
  rewrite D1 in H1. rewrite D2 in H2. split; lra.
Qed.

Lemma binary64_zero (x : Q) : (x == 0)%Q -> binary64 x = 0%Q.
Proof.
  intros E. unfold binary64.
  assert (R : Qred x = Qred 0) by now apply Qred_complete.
  rewrite R. reflexivity.
Qed.

(** Equal numbers round to the same double. *)
Lemma binary64_Qeq (x y : Q) : (x == y)%Q -> binary64 x = binary64 y.
Proof.
  intros E. unfold binary64. now rewrite (Qred_complete x y E).
Qed.

(** [(a / b) * 100] in doubles, for counts below [2^53]: within a relative
    error of [2^-51] of the exact value. *)
Lemma percentage_error (a b : Z) :
  0 <= a -> 0 < b < 2 ^ 53 ->
  let exact := (inject_Z a / inject_Z b * 100)%Q in
  let x := Number_mul (Number_div (inject_Z a) (inject_Z b)) 100 in
  (exact - exact * pow2 (-51) <= x /\ x <= exact + exact * pow2 (-51))%Q.
Proof.
  intros Ha Hb exact x.
  assert (B0 : (0 < inject_Z b)%Q)
    by (change 0%Q with (inject_Z 0); rewrite <- Zlt_Qlt; lia).
  assert (B1 : (inject_Z b <= inject_Z (2 ^ 53))%Q) by (rewrite <- Zle_Qle; lia).
  destruct (Z.eq_dec a 0) as [->|Na].
  - assert (E : x = 0%Q).
    { unfold x, Number_mul, Number_div.
      rewrite (binary64_zero (inject_Z 0 / inject_Z b)).
      - now apply binary64_zero.
      - unfold Qdiv. change (inject_Z 0) with 0%Q. ring. }
    assert (E0 : (exact == 0)%Q).
    { unfold exact, Qdiv. change (inject_Z 0) with 0%Q. ring. }
    rewrite E, E0. split; ring_simplify; apply Qle_refl.
  - assert (A1 : (1 <= inject_Z a)%Q)
      by (change 1%Q with (inject_Z 1); rewrite <- Zle_Qle; lia).
    set (r0 := (inject_Z a / inject_Z b)%Q) in *.
    assert (U : (pow2 (-53) == 1 # 9007199254740992)%Q) by reflexivity.
    assert (U' : (pow2 (-51) == 1 # 2251799813685248)%Q) by reflexivity.
    assert (R0 : (pow2 (-53) <= r0)%Q).
    { unfold r0. apply Qle_shift_div_l; [exact B0|].
      rewrite U. change (inject_Z (2 ^ 53)) with (9007199254740992 # 1)%Q in B1.
      nra. }
    assert (P0 : (0 < r0)%Q) by (pose proof (pow2_pos (-53)); lra).
    destruct (binary64_error r0 P0) as [L1 L2].
    { apply Qle_trans with (pow2 (-53)); [apply pow2_le; lia|exact R0]. }
    assert (Ex : x = binary64 (binary64 r0 * 100)) by reflexivity.
    set (q1 := binary64 r0) in *.
    assert (Q1 : (pow2 (-54) <= q1 * 100)%Q).
    { assert (pow2 (-54) == 1 # 18014398509481984)%Q as -> by reflexivity.
      rewrite U in *. lra. }
    assert (Q0 : (0 < q1 * 100)%Q) by (pose proof (pow2_pos (-54)); lra).
    destruct (binary64_error (q1 * 100) Q0) as [M1 M2].
    { apply Qle_trans with (pow2 (-54)); [apply pow2_le; lia|exact Q1]. }
    rewrite <- Ex in M1, M2.
    unfold exact. rewrite U in *. rewrite U'. split; lra.
Qed.

(** The rate the handler prints when there were users before this week:
    the double it computes, to the nearest hundredth, with two decimals. *)
Lemma weeklyGrowthRate_positive (totalUsers usersThisWeek : Z) :
  0 <= usersThisWeek < totalUsers -> totalUsers < 2 ^ 53 ->
  let exact := (inject_Z usersThisWeek
                / inject_Z (totalUsers - usersThisWeek) * 100)%Q in
  let x := Number_mul (Number_div (inject_Z usersThisWeek)
                                  (inject_Z (totalUsers - usersThisWeek))) 100 in
  (exact - exact * pow2 (-51) <= x /\ x <= exact + exact * pow2 (-51))%Q
  /\ exists n : Z,
       0 <= n
       /\ (inject_Z n - (1 # 2) <= x * 100)%Q
       /\ (x * 100 < inject_Z n + (1 # 2))%Q
       /\ weeklyGrowthRate totalUsers usersThisWeek
          = (decimal (n / 100) ++ "." ++ digits 2 (n mod 100))%string.
Proof.
  intros Hw Ht exact x. unfold weeklyGrowthRate.
  assert ((0 <? totalUsers - usersThisWeek) = true) as -> by lia.
  fold x.
  destruct (percentage_error usersThisWeek (totalUsers - usersThisWeek))
    as [E1 E2]; [lia|lia|].
  fold exact x in E1, E2.
  assert (He : (0 <= exact)%Q).
  { unfold exact, Qdiv. apply Qmult_le_0_compat; [|discriminate].
    apply Qmult_le_0_compat.
    - change 0%Q with (inject_Z 0). rewrite <- Zle_Qle. lia.
    - apply Qinv_le_0_compat. change 0%Q with (inject_Z 0).
      rewrite <- Zle_Qle. lia. }
  assert (Hx : (0 <= x)%Q).
  { assert (U : (pow2 (-51) == 1 # 2251799813685248)%Q) by reflexivity.
    rewrite U in E1. lra. }
  split; [split; assumption|].
  destruct (toFixed_nonneg 2 x Hx) as (n & N0 & N1 & N2 & N3).
  exists n. repeat split; auto.
Qed.

(** C5 (as the code has it). The reply's [weeklyGrowthRate] is ["New"] when
    the denominator [totalUsers - usersThisWeek] is zero; otherwise it is
    [(usersThisWeek / (totalUsers - usersThisWeek)) * 100] as computed in
    doubles, which is within a relative error of [2^-51] of the exact
    value, rounded to the nearest hundredth and printed with two decimals
    and a percent sign. The function is total: no division error. The
    counts are below [2^53], as counts held in doubles are. *)
Theorem weekly_growth_rate `{Host} (s : Store) (today : Z) :
  let r := comprehensive s today in
  let denominator := Report.totalUsers r - Report.usersThisWeek r in
  let exact := (inject_Z (Report.usersThisWeek r) / inject_Z denominator * 100)%Q in
  let x := Number_mul (Number_div (inject_Z (Report.usersThisWeek r))
                                  (inject_Z denominator)) 100 in
  Report.totalUsers r < 2 ^ 53 ->
  (denominator = 0 -> Report.weeklyGrowthRate r = "New")
  /\ (denominator <> 0 ->
      (exact - exact * pow2 (-51) <= x /\ x <= exact + exact * pow2 (-51))%Q
      /\ exists n : Z,
           0 <= n
           /\ (inject_Z n - (1 # 2) <= x * 100)%Q
           /\ (x * 100 < inject_Z n + (1 # 2))%Q
           /\ Report.weeklyGrowthRate r
              = (decimal (n / 100) ++ "." ++ digits 2 (n mod 100) ++ "%")%string
           /\ String.length (digits 2 (n mod 100)) = 2%nat).
Proof.
  cbn zeta. unfold comprehensive.
  cbn [Report.totalUsers Report.usersThisWeek Report.weeklyGrowthRate].
  set (total := user_count s).
  set (week := user_count_gte (today - 7 * 24 * 60 * 60 * 1000) s).
  pose proof (user_count_gte_bounds (today - 7 * 24 * 60 * 60 * 1000) s) as B.
  fold total week in B. intros Ht. split.
  - intros D. unfold weeklyGrowthRate.
    assert ((0 <? total - week) = false) as -> by lia. reflexivity.
  - intros D.
    destruct (weeklyGrowthRate_positive total week) as (E & n & N0 & N1 & N2 & N3);
      [lia|exact Ht|].
    split; [exact E|].
    exists n. split; [exact N0|]. split; [exact N1|]. split; [exact N2|].
    split; [|apply digits_length].
    destruct (String.eqb_spec (weeklyGrowthRate total week) "∞") as [E'|_].
    + unfold weeklyGrowthRate in E'.
      assert ((0 <? total - week) = true) as Hp by lia. rewrite Hp in E'.
      now apply toFixed_not_infinity in E'.
    + rewrite N3. now rewrite !string_app_assoc.
Qed.

(** C5, with 160 users from before this week and 23 from this week: the
    exact rate is 14.375, the double the handler computes is just below
    it, and the reply says ["14.37%"]. *)
Lemma weekly_growth_rate_witness :
  Report.totalUsers (@comprehensive sample_host growth_users (30 * DAY)) = 183
  /\ Report.usersThisWeek (@comprehensive sample_host growth_users (30 * DAY)) = 23
  /\ Report.weeklyGrowthRate (@comprehensive sample_host growth_users (30 * DAY))
     = "14.37%"
  /\ exists n : Z,
       (inject_Z n - (1 # 2)
        <= Number_mul (Number_div (inject_Z 23) (inject_Z 160)) 100 * 100)%Q
       /\ Report.weeklyGrowthRate (@comprehensive sample_host growth_users (30 * DAY))
          = (decimal (n / 100) ++ "." ++ digits 2 (n mod 100) ++ "%")%string.
Proof.
  split; [vm_compute; reflexivity|]. split; [vm_compute; reflexivity|].
  split; [vm_compute; reflexivity|].
  destruct (@weekly_growth_rate sample_host growth_users (30 * DAY)) as [_ W];
    [vm_compute; reflexivity|].
  destruct W as (_ & n & _ & N1 & _ & N3 & _); [vm_compute; discriminate|].
  exists n. split; [exact N1|exact N3].
Defined.

(** C5 as the specification words it does not hold: with one user from
    before this week and one from this week the reply says ["100.00%"],
    where one decimal would give ["100.0"]. *)
Lemma growth_rate_has_two_decimals :
  Report.weeklyGrowthRate (@comprehensive sample_host two_users (30 * DAY))
  = "100.00%"
  /\ weeklyGrowthRate_one_decimal
       (Report.totalUsers (@comprehensive sample_host two_users (30 * DAY)))
       (Report.usersThisWeek (@comprehensive sample_host two_users (30 * DAY)))
     = "100.0".
Proof. split; reflexivity. Qed.

(** ** The hourly histogram and its peak *)

Lemma getHours_range `{Host} (t : Z) : 0 <= getHours t < 24.
Proof. unfold getHours. apply Z.mod_pos_bound. lia. Qed.

Lemma incr_at_length (i : nat) : forall a, List.length (incr_at i a) = List.length a.
Proof.
  induction i as [|i IH]; intros [|x a]; simpl; auto.
Qed.

Lemma incr_at_nth (i : nat) :
  forall a k,
    (i < List.length a)%nat ->
    nth k (incr_at i a) 0 = nth k a 0 + (if (k =? i)%nat then 1 else 0).
Proof.
  induction i as [|i IH]; intros [|x a] k Hi; simpl in Hi; try lia.
  - destruct k; simpl; lia.
  - destruct k; simpl; [lia|]. apply IH. lia.
Qed.

Lemma hourly_fold `{Host} (us : list User.t) :
  forall a,
    List.length a = 24%nat ->
    let a' := fold_left (fun hourlyData user =>
                           incr_at (Z.to_nat (getHours (User.createdAt user)))
                                   hourlyData) us a in
    List.length a' = 24%nat
    /\ forall k, (k < 24)%nat ->
         nth k a' 0 = nth k a 0 + signups_at_hour (Z.of_nat k) us.
Proof.
  induction us as [|u us IH]; intros a La; cbn zeta.
  - split; [exact La|]. intros k _. unfold signups_at_hour. simpl. lia.
  - cbn [fold_left].
    set (i := Z.to_nat (getHours (User.createdAt u))).
    pose proof (getHours_range (User.createdAt u)) as R.
    assert (Li : List.length (incr_at i a) = 24%nat)
      by now rewrite incr_at_length.
    destruct (IH (incr_at i a) Li) as [L N]. split; [exact L|].
    intros k Hk. rewrite (N k Hk), incr_at_nth by (unfold i; lia).
    unfold signups_at_hour. cbn [filter].
    destruct (Nat.eqb_spec k i) as [E|E].
    + assert ((getHours (User.createdAt u) =? Z.of_nat k) = true) as ->
        by (unfold i in E; lia).
      cbn [List.length]. lia.
    + assert ((getHours (User.createdAt u) =? Z.of_nat k) = false) as ->
        by (unfold i in E; lia).
      lia.
Qed.

(** The histogram has 24 buckets, and bucket [k] counts the users whose
    signup hour is [k]. *)
Lemma hourlyData_spec `{Host} (s : Store) :
  List.length (hourlyData s) = 24%nat
  /\ forall k, (k < 24)%nat ->
       nth k (hourlyData s) 0 = signups_at_hour (Z.of_nat k) (users s).
Proof.
  destruct (hourly_fold (users s) (repeat 0 24) eq_refl) as [L N].
  split; [exact L|]. intros k Hk. unfold hourlyData. rewrite (N k Hk).
  assert (nth k (repeat 0 24) 0 = 0) as -> by apply nth_repeat. lia.
Qed.

Lemma fold_max_spec (a : list Z) :
  forall x,
    let m := fold_left Z.max a x in
    x <= m /\ (forall y, In y a -> y <= m) /\ (m = x \/ In m a).
Proof.
  induction a as [|y a IH]; intros x; cbn zeta; simpl.
  - split; [lia|]. split; [tauto|]. now left.
  - destruct (IH (Z.max x y)) as (L & A & M). split; [lia|]. split.
    + intros z [<-|I]; [lia|auto].
    + destruct M as [M|M]; [|tauto]. rewrite M.
      destruct (Z.max_spec x y) as [[_ ->]|[_ ->]]; auto.
Qed.

Lemma Math_max_spec (a : list Z) (m : Z) :
  Math_max a = Some m -> In m a /\ forall y, In y a -> y <= m.
Proof.
  destruct a as [|x a]; [discriminate|]. intros [= <-].
  destruct (fold_max_spec a x) as (L & A & M). split.
  - destruct M as [->|M]; [now left|now right].
  - intros y [<-|I]; auto.
Qed.

(** [indexOf] finds the first position of a value that occurs. *)
Lemma indexOf_spec (v : Z) (a : list Z) :
  In v a ->
  let i := indexOf v a in
  0 <= i < Z.of_nat (List.length a)
  /\ nth (Z.to_nat i) a 0 = v
  /\ forall j, 0 <= j < i -> nth (Z.to_nat j) a 0 <> v.
Proof.
  induction a as [|x a IH]; intros I; [destruct I|]. cbn zeta.
  cbn [indexOf]. destruct (Z.eqb_spec x v) as [E|E].
  - split; [simpl; lia|]. split; [exact E|]. intros j Hj. lia.
  - destruct I as [I|I]; [contradiction|].
    destruct (IH I) as (R & N & F). clear IH.
    assert ((indexOf v a <? 0) = false) as -> by lia.
    split; [cbn [List.length]; lia|]. split.
    + replace (Z.to_nat (indexOf v a + 1)) with (S (Z.to_nat (indexOf v a)))
        by lia.
      exact N.
    + intros j Hj. destruct (Z.eq_dec j 0) as [->|Nj]; [exact E|].
      replace (Z.to_nat j) with (S (Z.to_nat (j - 1))) by lia.
      apply F. lia.
Qed.

(** C10. [peakSignupHour] is an hour between 0 and 23 whose bucket of the
    hourly histogram is the largest of the 24, and every earlier hour has a
    strictly smaller bucket: it is the earliest hour of maximal count. The
    bucket of hour [k] counts the users whose local signup hour is [k].
    With no user in the store the peak is hour 0. *)
Theorem peak_signup_hour_is_first_max `{Host} (s : Store) :
  let h := hourlyData s in
  let p := peakSignupHour s in
  List.length h = 24%nat
  /\ (forall k, 0 <= k < 24 ->
        nth (Z.to_nat k) h 0 = signups_at_hour k (users s))
  /\ 0 <= p < 24
  /\ (forall k, 0 <= k < 24 -> nth (Z.to_nat k) h 0 <= nth (Z.to_nat p) h 0)
  /\ (forall k, 0 <= k < p -> nth (Z.to_nat k) h 0 < nth (Z.to_nat p) h 0)
  /\ (users s = [] -> p = 0).
Proof.
  cbn zeta. destruct (hourlyData_spec s) as [L N].
  unfold peakSignupHour.
  destruct (Math_max (hourlyData s)) as [m|] eqn:M.
  2:{ destruct (hourlyData s); [discriminate L|discriminate M]. }
  destruct (Math_max_spec _ _ M) as [I A].
  destruct (indexOf_spec m (hourlyData s) I) as (R & P & F).
  rewrite L in R. rewrite P.
  split; [exact L|]. split.
  { intros k Hk. rewrite (N (Z.to_nat k)) by lia. f_equal. lia. }
  split; [exact R|]. split.
  { intros k Hk. apply A, nth_In. lia. }
  split.
  { intros k Hk. specialize (F k Hk).
    assert (nth (Z.to_nat k) (hourlyData s) 0 <= m) by (apply A, nth_In; lia).
    lia. }
  intros E.
  assert (Hh : hourlyData s = repeat 0 24)
    by (unfold hourlyData; now rewrite E).
  rewrite Hh in M |- *. vm_compute in M. injection M as <-. reflexivity.
Qed.

(** ** The daily histogram *)

(** Going back whole days moves the calendar date back by as many days. *)
Lemma isoDate_days_before (today : Z) (i : Z) :
  isoDate (today - i * DAY) = isoDate today - i.
Proof.
  unfold isoDate.
  replace (today - i * DAY) with (today + (- i) * DAY) by ring.
  rewrite Z.div_add by (unfold DAY; lia). ring.
Qed.

Lemma isoDate_bounds (t : Z) : isoDate t * DAY <= t < (isoDate t + 1) * DAY.
Proof.
  unfold isoDate.
  assert (P : 0 < DAY) by (unfold DAY; lia).
  pose proof (Z.mul_div_le t DAY P). pose proof (Z.mul_succ_div_gt t DAY P).
  lia.
Qed.

(** *** Sorting *)

Lemma sort_insert_perm {A} (compare : A -> A -> Z) (x : A) (l : list A) :
  Permutation (sort_insert compare x l) (x :: l).
Proof.
  induction l as [|y l IH]; simpl; [reflexivity|].
  destruct (compare x y <=? 0); [reflexivity|].
  rewrite IH. apply perm_swap.
Qed.

Lemma Array_sort_perm {A} (compare : A -> A -> Z) (l : list A) :
  Permutation (Array_sort compare l) l.
Proof.
  induction l as [|x l IH]; simpl; [reflexivity|].
  rewrite sort_insert_perm. now constructor.
Qed.

(** Sorting an array that lists [g a], [g (a + 1)], ... in an order the
    comparison agrees with gives the array back. *)
Lemma Array_sort_ascending {A} (compare : A -> A -> Z) (g : nat -> A) :
  (forall i, compare (g i) (g (S i)) <= 0) ->
  forall n a, Array_sort compare (map g (seq a n)) = map g (seq a n).
Proof.
  intros Hg. induction n as [|n IH]; intros a; [reflexivity|].
  cbn [seq map Array_sort]. rewrite IH.
  destruct n as [|n]; [reflexivity|]. cbn [seq map sort_insert].
  assert ((compare (g a) (g (S a)) <=? 0) = true) as ->
    by (apply Z.leb_le, Hg).
  reflexivity.
Qed.

Lemma filter_length_perm {A} (f : A -> bool) (l l' : list A) :
  Permutation l l' ->
  List.length (filter f l) = List.length (filter f l').
Proof.
  induction 1 as [|x l l' _ IH|x y l|l l' l'' _ IH1 _ IH2]; simpl.
  - reflexivity.
  - destruct (f x); simpl; now rewrite IH.
  - destruct (f x), (f y); reflexivity.
  - now rewrite IH1.
Qed.

Lemma filter_filter_length {A} (f g : A -> bool) (l : list A) :
  (forall x, In x l -> f x = true -> g x = true) ->
  List.length (filter f (filter g l)) = List.length (filter f l).
Proof.
  induction l as [|x l IH]; intros Hfg; [reflexivity|]. simpl.
  assert (IH' : List.length (filter f (filter g l)) = List.length (filter f l))
    by (apply IH; intros y I; apply Hfg; now right).
  destruct (g x) eqn:G; simpl.
  - destruct (f x); simpl; now rewrite IH'.
  - destruct (f x) eqn:F; [|exact IH'].
    rewrite (Hfg x (or_introl eq_refl) F) in G. discriminate.
Qed.

(** *** The object of counters *)

Lemma obj_set_new (k v : Z) (obj : Obj) :
  hasOwnProperty k obj = false -> obj_set k v obj = obj ++ [(k, v)].
Proof.
  unfold hasOwnProperty. induction obj as [|[k' v'] obj IH]; simpl;
    [reflexivity|].
  destruct (k' =? k); simpl; [discriminate|]. intros E. now rewrite IH.
Qed.

Lemma hasOwnProperty_iff (k : Z) (obj : Obj) :
  hasOwnProperty k obj = true <-> In k (map fst obj).
Proof.
  unfold hasOwnProperty. rewrite existsb_exists. split.
  - intros ((k', v) & I & E). apply Z.eqb_eq in E. simpl in E. subst.
    now apply (in_map fst) in I.
  - intros I. apply in_map_iff in I. destruct I as (kv & E & I).
    exists kv. split; [exact I|]. now apply Z.eqb_eq.
Qed.

(** One signup on day [day] adds one to the counter of that day when the
    day is listed, and nothing otherwise. *)
Lemma count_signup (day : Z) (obj : Obj) :
  NoDup (map fst obj) ->
  (if hasOwnProperty day obj then obj_incr day obj else obj)
  = map (fun kv => (fst kv, snd kv + (if fst kv =? day then 1 else 0))) obj.
Proof.
  induction obj as [|[k v] obj IH]; intros ND.
  - reflexivity.
  - inversion ND as [|? ? Nk ND']; subst.
    unfold hasOwnProperty in *. cbn [existsb obj_incr map fst snd] in *.
    destruct (Z.eqb_spec k day) as [E|E]; cbn [orb].
    + f_equal. subst k.
      assert (F : hasOwnProperty day obj = false).
      { destruct (hasOwnProperty day obj) eqn:F; [|reflexivity].
        apply hasOwnProperty_iff in F. contradiction. }
      specialize (IH ND'). unfold hasOwnProperty in F. rewrite F in IH.
      exact IH.
    + specialize (IH ND'). rewrite Z.add_0_r.
      destruct (existsb (fun kv => fst kv =? day) obj).
      * now rewrite IH.
      * now rewrite <- IH.
Qed.

Lemma obj_set_fold (ks : list Z) :
  forall acc,
    NoDup (map fst acc ++ ks) ->
    fold_left (fun o k => obj_set k 0 o) ks acc
    = acc ++ map (fun k => (k, 0)) ks.
Proof.
  induction ks as [|k ks IH]; intros acc ND; simpl.
  - now rewrite app_nil_r.
  - assert (F : hasOwnProperty k acc = false).
    { destruct (hasOwnProperty k acc) eqn:F; [|reflexivity].
      apply hasOwnProperty_iff in F. apply NoDup_remove_2 in ND.
      exfalso. apply ND. apply in_or_app. now left. }
    rewrite (obj_set_new k 0 acc F), IH.
    + now rewrite <- app_assoc.
    + rewrite map_app. simpl. now rewrite <- app_assoc.
Qed.

Lemma listed_days_NoDup (today : Z) : NoDup (listed_days today).
Proof.
  unfold listed_days. apply Finite.Injective_map_NoDup.
  - intros i j E. lia.
  - apply seq_NoDup.
Qed.

(** The object after the first loop: the 30 days from 29 days ago to today,
    in that order, each at zero. *)
Lemma dailyData_init_spec (today : Z) :
  dailyData_init today = map (fun k => (k, 0)) (listed_days today).
Proof.
  unfold dailyData_init.
  assert (E : forall (l : list nat) acc,
             fold_left (fun dailyData i =>
                          let date := today - Z.of_nat i * DAY in
                          obj_set (isoDate date) 0 dailyData) l acc
             = fold_left (fun o k => obj_set k 0 o)
                 (map (fun i => isoDate today - Z.of_nat i) l) acc).
  { induction l as [|i l IH]; intros acc; [reflexivity|]. cbn [fold_left map].
    cbn zeta. rewrite isoDate_days_before. apply IH. }
  rewrite E.
  assert (K : map (fun i => isoDate today - Z.of_nat i) (rev (seq 0 30))
              = listed_days today).
  { unfold listed_days.
    change (rev (seq 0 30)) with (map (fun j => (29 - j)%nat) (seq 0 30)).
    rewrite map_map. apply map_ext_in. intros j I. apply in_seq in I. lia. }
  rewrite K. rewrite obj_set_fold; [reflexivity|].
  simpl. apply listed_days_NoDup.
Qed.

(** The object after the second loop: each listed day holds the number of
    the given users who signed up that day. *)
Lemma dailyData_fold (us : list User.t) :
  forall obj,
    NoDup (map fst obj) ->
    fold_left (fun dailyData user =>
                 let dateStr := isoDate (User.createdAt user) in
                 if hasOwnProperty dateStr dailyData
                 then obj_incr dateStr dailyData
                 else dailyData) us obj
    = map (fun kv => (fst kv, snd kv + signups_on_day (fst kv) us)) obj.
Proof.
  induction us as [|u us IH]; intros obj ND.
  - simpl. rewrite <- (map_id obj) at 1. apply map_ext. intros [k v].
    unfold signups_on_day. simpl. f_equal. lia.
  - cbn [fold_left]. cbn zeta. rewrite (count_signup _ obj ND).
    rewrite IH.
    + rewrite map_map. apply map_ext. intros [k v]. cbn [fst snd]. f_equal.
      unfold signups_on_day. cbn [filter]. rewrite (Z.eqb_sym k).
      destruct (isoDate (User.createdAt u) =? k); cbn [List.length]; lia.
    + rewrite map_map. cbn [fst]. exact ND.
Qed.

Lemma dailyData_spec (today : Z) (us : list User.t) :
  dailyData today us
  = map (fun k => (k, signups_on_day k us)) (listed_days today).
Proof.
  unfold dailyData. rewrite dailyData_fold.
  - rewrite dailyData_init_spec, map_map. apply map_ext. intros k. reflexivity.
  - rewrite dailyData_init_spec, map_map. cbn [fst]. rewrite map_id.
    apply listed_days_NoDup.
Qed.

(** Every signup of a listed day is among the users the handler fetched. *)
Lemma signups_on_listed_day (s : Store) (today k : Z) :
  isoDate today - 29 <= k ->
  signups_on_day k (user_findMany_gte_asc (today - 30 * DAY) s)
  = signups_on_day k (users s).
Proof.
  intros Hk. unfold signups_on_day, user_findMany_gte_asc. f_equal.
  rewrite (filter_length_perm _ _ _ (Array_sort_perm _ _)).
  apply filter_filter_length. intros u _ E.
  apply Z.eqb_eq in E. apply Z.leb_le.
  pose proof (isoDate_bounds today). pose proof (isoDate_bounds (User.createdAt u)).
  assert (0 < DAY) by (unfold DAY; lia). nia.
Qed.

(** The array the handler puts in the reply. *)
Lemma dailySignupsArray_spec (s : Store) (today : Z) :
  dailySignupsArray s today
  = map (fun j => {| Daily.date := isoDate today - 29 + Z.of_nat j;
                     Daily.signups :=
                       signups_on_day (isoDate today - 29 + Z.of_nat j) (users s) |})
        (seq 0 30).
Proof.
  unfold dailySignupsArray. cbn zeta. rewrite dailyData_spec.
  unfold listed_days. rewrite !map_map. cbn [fst snd].
  rewrite (map_ext_in _
             (fun j => {| Daily.date := isoDate today - 29 + Z.of_nat j;
                          Daily.signups :=
                            signups_on_day (isoDate today - 29 + Z.of_nat j)
                              (users s) |})).
  - apply Array_sort_ascending. intros i. unfold Date_of_isoDate.
    cbn [Daily.date]. unfold DAY. lia.
  - intros j _. f_equal. apply signups_on_listed_day. lia.
Qed.

Lemma signups_on_day_none (k : Z) (us : list User.t) :
  (forall u, In u us -> isoDate (User.createdAt u) <> k) ->
  signups_on_day k us = 0.
Proof.
  unfold signups_on_day. induction us as [|u us IH]; intros Hn; [reflexivity|].
  cbn [filter].
  assert ((isoDate (User.createdAt u) =? k) = false) as ->
    by (apply Z.eqb_neq, Hn; now left).
  apply IH. intros v I. apply Hn. now right.
Qed.

(** C6. The reply's [dailySignups] has exactly 30 entries; their dates are
    the 30 consecutive UTC days from 29 days before today to today, oldest
    first; each entry holds the number of users who signed up on its day,
    which is zero for a day without signups. After three signups answered
    201 on an empty store within the UTC day of the request for the report,
    [totalUsers] is 3 and the last entry, today's, holds 3. *)
Theorem daily_histogram `{Host} :
  (forall s today,
      let days := Report.dailySignups (comprehensive s today) in
      List.length days = 30%nat
      /\ map Daily.date days
         = map (fun j => isoDate today - 29 + Z.of_nat j) (seq 0 30)
      /\ (forall e, In e days ->
            Daily.signups e = signups_on_day (Daily.date e) (users s))
      /\ (forall e, In e days ->
            (forall u, In u (users s) ->
                       isoDate (User.createdAt u) <> Daily.date e) ->
            Daily.signups e = 0)
      /\ nth 29 days {| Daily.date := 0; Daily.signups := 0 |}
         = {| Daily.date := isoDate today;
              Daily.signups := signups_on_day (isoDate today) (users s) |})
  /\ (forall svc T fails1 fails2 fails3 now1 now2 now3 b1 b2 b3
             id1 id2 id3 sent1 sent2 sent3 pos1 pos2 pos3
             s1 s2 s3 tr0 tr1 tr2 tr3 today,
         post_waitlist svc T fails1 now1 b1 empty_store tr0
         = (Created id1 sent1 pos1, s1, tr1) ->
         post_waitlist svc T fails2 now2 b2 s1 tr1
         = (Created id2 sent2 pos2, s2, tr2) ->
         post_waitlist svc T fails3 now3 b3 s2 tr2
         = (Created id3 sent3 pos3, s3, tr3) ->
         isoDate now1 = isoDate today ->
         isoDate now2 = isoDate today ->
         isoDate now3 = isoDate today ->
         Report.totalUsers (comprehensive s3 today) = 3
         /\ nth 29 (Report.dailySignups (comprehensive s3 today))
                {| Daily.date := 0; Daily.signups := 0 |}
            = {| Daily.date := isoDate today; Daily.signups := 3 |}).
Proof.
  assert (Last : forall s today,
             nth 29 (dailySignupsArray s today)
                 {| Daily.date := 0; Daily.signups := 0 |}
             = {| Daily.date := isoDate today;
                  Daily.signups := signups_on_day (isoDate today) (users s) |}).
  { intros s today. rewrite dailySignupsArray_spec.
    set (g := fun j => {| Daily.date := isoDate today - 29 + Z.of_nat j;
                          Daily.signups :=
                            signups_on_day (isoDate today - 29 + Z.of_nat j)
                              (users s) |}).
    rewrite (nth_indep _ _ (g 0%nat))
      by (rewrite length_map, length_seq; lia).
    rewrite map_nth, seq_nth by lia. unfold g.
    replace (isoDate today - 29 + Z.of_nat (0 + 29)) with (isoDate today) by lia.
    reflexivity. }
  split.
  - intros s today. cbn zeta. unfold comprehensive. cbn [Report.dailySignups].
    split; [|split; [|split; [|split]]].
    + now rewrite dailySignupsArray_spec, length_map, length_seq.
    + rewrite dailySignupsArray_spec, map_map. reflexivity.
    + intros e I. rewrite dailySignupsArray_spec in I.
      apply in_map_iff in I. destruct I as (j & <- & _). reflexivity.
    + intros e I Hn. rewrite dailySignupsArray_spec in I.
      apply in_map_iff in I. destruct I as (j & <- & _).
      cbn [Daily.signups Daily.date] in *. now apply signups_on_day_none.
    + apply Last.
  - intros svc T fails1 fails2 fails3 now1 now2 now3 b1 b2 b3
      id1 id2 id3 sent1 sent2 sent3 pos1 pos2 pos3 s1 s2 s3 tr0 tr1 tr2 tr3
      today E1 E2 E3 D1 D2 D3.
    apply post_waitlist_Created_inv in E1, E2, E3.
    destruct E1 as (v1 & u1 & rs1 & _ & _ & _ & _ & -> & _ & C1 & _).
    destruct E2 as (v2 & u2 & rs2 & _ & _ & _ & _ & -> & _ & C2 & _).
    destruct E3 as (v3 & u3 & rs3 & _ & _ & _ & _ & -> & _ & C3 & _).
    unfold comprehensive. cbn [Report.totalUsers Report.dailySignups].
    split; [reflexivity|]. rewrite Last. f_equal.
    unfold signups_on_day. cbn [users empty_store app filter].
    rewrite C1, C2, C3, D1, D2, D3, Z.eqb_refl. reflexivity.
Qed.

(** C6 on these three signups, the report being asked for later that day. *)
Lemma daily_histogram_witness :
  Report.totalUsers (@comprehensive sample_host (snd (fst signup3)) (20 * DAY + 5000))
  = 3
  /\ nth 29 (Report.dailySignups
               (@comprehensive sample_host (snd (fst signup3)) (20 * DAY + 5000)))
         {| Daily.date := 0; Daily.signups := 0 |}
     = {| Daily.date := isoDate (20 * DAY + 5000); Daily.signups := 3 |}.
Proof.
  apply (proj2 (@daily_histogram sample_host)
           demo_service always_sent no_failure no_failure no_failure
           (20 * DAY + 1000) (20 * DAY + 2000) (20 * DAY + 3000)
           (body_of "a@x.com") (body_of "b@x.com") (body_of "c@x.com")
           1%nat 2%nat 3%nat true true true 1 2 3
           (snd (fst signup1)) (snd (fst signup2)) (snd (fst signup3))
           [] (snd signup1) (snd signup2) (snd signup3));
    reflexivity.
Defined.

(** * Further properties of the handlers *)

(** ** What a signup request can do to the store *)

Lemma findUnique_None_not_In (email : string) (s : Store) :
  user_findUnique email s = None -> ~ In email (map User.email (users s)).
Proof.
  intros N I. apply findUnique_None_existsb in N.
  apply in_map_iff in I. destruct I as (u & E & I).
  assert (X : existsb (fun u => (User.email u =? email)%string) (users s) = true).
  { apply existsb_exists. exists u. split; [exact I|]. now apply String.eqb_eq. }
  congruence.
Qed.

(** Whatever the request, the handler leaves the store as it was or appends
    one user row and its three answers. *)
Lemma post_waitlist_store `{Host} svc T fails now b s tr :
  let s' := snd (fst (post_waitlist svc T fails now b s tr)) in
  s' = s
  \/ exists v u r1 r2 r3,
       waitlistSchema_validate b = inr v
       /\ user_findUnique (Value.email v) s = None
       /\ insert_fails fails = false
       /\ s' = {| users := users s ++ [u];
                  responses := responses s ++ [r1; r2; r3] |}
       /\ User.id u = fresh_id (map User.id (users s))
       /\ User.email u = Value.email v
       /\ User.createdAt u = now
       /\ Response.userId r1 = User.id u
       /\ Response.userId r2 = User.id u
       /\ Response.userId r3 = User.id u
       /\ Response.questionId r1 = "primary_skill"
       /\ Response.questionId r2 = "biggest_challenge"
       /\ Response.questionId r3 = "interest_level"
       /\ Response.answer r1 = Value.primarySkill v
       /\ Response.answer r2 = Value.biggestChallenge v
       /\ Response.answer r3 = Number_toString (Value.interestLevel v).
Proof.
  cbn zeta.
  destruct (waitlistSchema_validate b) as [d|v] eqn:V.
  { rewrite (post_waitlist_invalid svc T fails now b s tr d V). now left. }
  destruct (fails FindUnique) eqn:F.
  { unfold post_waitlist. rewrite V, F. now left. }
  destruct (user_findUnique (Value.email v) s) as [u0|] eqn:N.
  { unfold post_waitlist. rewrite V, F, N. now left. }
  rewrite (post_waitlist_new svc T fails now b v s tr V F N).
  destruct (insert_fails fails) eqn:I.
  { rewrite (create_user_and_responses_throws fails now v s I). now left. }
  destruct (create_user_and_responses_ok fails now v s I N)
    as (u & r1 & r2 & r3 & C & Eu & P).
  rewrite C. right. exists v, u, r1, r2, r3.
  split; [reflexivity|]. split; [exact N|]. split; [reflexivity|].
  split.
  { destruct (fails Count); [reflexivity|].
    destruct (sendWelcomeEmail _ _ _ _ tr). reflexivity. }
  split; [now rewrite Eu|]. split; [now rewrite Eu|].
  split; [now rewrite Eu|]. tauto.
Qed.

Lemma NoDup_snoc {A} (l : list A) (x : A) :
  NoDup l -> ~ In x l -> NoDup (l ++ [x]).
Proof.
  intros ND NI. apply NoDup_app; [exact ND|repeat constructor; intros []|].
  intros y Iy [<-|[]]. contradiction.
Qed.

(** A property of the store that one request keeps is kept by a run. *)
Lemma serve_invariant `{Host} (P : Store -> Prop) :
  (forall svc T fails now b s tr,
      P s -> P (snd (fst (post_waitlist svc T fails now b s tr)))) ->
  forall reqs st, P (fst st) -> P (fst (serve reqs st)).
Proof.
  intros Step. induction reqs as [|r reqs IH]; intros st Hst; [exact Hst|].
  unfold serve in *. cbn [fold_left]. apply IH.
  unfold handle.
  specialize (Step (Request.service r) (Request.transport r) (Request.failing r)
                (Request.instant r) (Request.body r) (fst st) (snd st) Hst).
  destruct (post_waitlist _ _ _ _ _ (fst st) (snd st)) as [[reply s'] tr'].
  exact Step.
Qed.

(** X1. No run of signup requests puts the same address twice in the users
    table: if the addresses of the store are pairwise distinct before the
    requests, they are after them, whatever the bodies, the failing queries
    and the mail transport. *)
Theorem emails_stay_unique `{Host} (reqs : list Request.t) (s : Store) (tr : Trace) :
  NoDup (map User.email (users s)) ->
  NoDup (map User.email (users (fst (serve reqs (s, tr))))).
Proof.
  intros ND.
  apply (serve_invariant (fun s => NoDup (map User.email (users s))));
    [|exact ND].
  clear. intros svc T fails now b s tr ND.
  destruct (post_waitlist_store svc T fails now b s tr)
    as [->|(v & u & r1 & r2 & r3 & _ & N & _ & -> & _ & Eu & _)];
    [exact ND|].
  cbn [users]. rewrite map_app. cbn [map]. apply NoDup_snoc; [exact ND|].
  rewrite Eu. now apply findUnique_None_not_In.
Qed.

(** X1 on the empty store: the same address submitted twice, then another. *)
Lemma emails_stay_unique_witness :
  NoDup (map User.email
           (users (fst (@serve sample_host
                          [sample_request 1 "a@x.com";
                           sample_request 2 "a@x.com";
                           sample_request 3 "b@x.com"]
                          (empty_store, []))))).
Proof.
  apply (@emails_stay_unique sample_host). constructor.
Defined.

(** ** Stores built by signups *)

Lemma post_waitlist_signed_up `{Host} svc T fails now b s tr :
  signed_up (users s) (responses s) ->
  let s' := snd (fst (post_waitlist svc T fails now b s tr)) in
  signed_up (users s') (responses s').
Proof.
  intros S. cbn zeta.
  destruct (post_waitlist_store svc T fails now b s tr)
    as [->|(v & u & r1 & r2 & r3 & _ & N & _ & -> & Ei & Eu & _ & P)];
    [exact S|].
  cbn [users responses].
  destruct P as (P1 & P2 & P3 & Q1 & Q2 & Q3 & _).
  apply signed_up_snoc; auto.
  - rewrite Ei. apply fresh_id_not_In.
  - rewrite Eu. now apply findUnique_None_not_In.
Qed.

Lemma signed_up_length us rs :
  signed_up us rs -> List.length rs = (3 * List.length us)%nat.
Proof.
  induction 1; [reflexivity|]. rewrite !length_app. simpl. lia.
Qed.

Lemma signed_up_owner us rs :
  signed_up us rs ->
  forall r, In r rs -> In (Response.userId r) (map User.id us).
Proof.
  induction 1 as [|us rs u r1 r2 r3 S IH Ni Ne U1 U2 U3 Q1 Q2 Q3];
    intros r I; [destruct I|].
  rewrite map_app. apply in_or_app. apply in_app_or in I.
  destruct I as [I|I]; [left; now apply IH|right].
  simpl in *. intuition (subst; auto).
Qed.

Lemma answers_to_foreign userId q rs :
  ~ In userId (map Response.userId rs) -> answers_to userId q rs = [].
Proof.
  unfold answers_to. induction rs as [|r rs IH]; intros N; [reflexivity|].
  cbn [filter]. destruct (Nat.eqb_spec (Response.userId r) userId) as [E|E].
  - exfalso. apply N. simpl. now left.
  - cbn [andb]. apply IH. intros I. apply N. now right.
Qed.

Lemma signed_up_owners us rs :
  signed_up us rs ->
  forall i, In i (map Response.userId rs) -> In i (map User.id us).
Proof.
  intros S i I. apply in_map_iff in I. destruct I as (r & <- & I).
  now apply (signed_up_owner us rs S).
Qed.

(** In a store built by signups every user has exactly one answer to each
    question. *)
Lemma signed_up_one_answer us rs :
  signed_up us rs ->
  forall u q, In u us -> List.length (answers_to (User.id u) q rs) = 1%nat.
Proof.
  induction 1 as [|us rs u r1 r2 r3 S IH Ni Ne U1 U2 U3 Q1 Q2 Q3];
    intros u' q I; [destruct I|].
  unfold answers_to in *. rewrite filter_app, length_app.
  apply in_app_or in I. destruct I as [I|[<-|[]]].
  - rewrite (IH u' q I).
    assert (D : User.id u <> User.id u').
    { intros E. apply Ni. rewrite E. now apply in_map. }
    cbn [filter]. rewrite U1, U2, U3.
    assert ((User.id u =? User.id u')%nat = false) as -> by now apply Nat.eqb_neq.
    reflexivity.
  - fold (answers_to (User.id u) q rs).
    rewrite answers_to_foreign.
    + cbn [filter List.length]. rewrite U1, U2, U3, Q1, Q2, Q3, Nat.eqb_refl.
      destruct q; reflexivity.
    + intros I. apply Ni. now apply (signed_up_owners us rs S).
Qed.

(** X2. In every store that a run of signup requests builds from the empty
    store, the answers are exactly those of complete signups: there are
    three answers per user, every answer belongs to a user of the store, and
    every user has exactly one answer to each of the three questions. *)
Theorem signups_are_complete `{Host} (reqs : list Request.t) (tr : Trace) :
  let s := fst (serve reqs (empty_store, tr)) in
  List.length (responses s) = (3 * List.length (users s))%nat
  /\ (forall r, In r (responses s) ->
        exists u, In u (users s) /\ User.id u = Response.userId r)
  /\ (forall u q, In u (users s) ->
        List.length (answers_to (User.id u) q (responses s)) = 1%nat).
Proof.
  cbn zeta.
  assert (S : signed_up (users (fst (serve reqs (empty_store, tr))))
                        (responses (fst (serve reqs (empty_store, tr))))).
  { apply (serve_invariant (fun s => signed_up (users s) (responses s))).
    - intros. now apply post_waitlist_signed_up.
    - constructor. }
  split; [now apply signed_up_length|]. split.
  - intros r I. apply (signed_up_owner _ _ S) in I.
    apply in_map_iff in I. destruct I as (u & E & I). eauto.
  - intros u q I. now apply (signed_up_one_answer _ _ S).
Qed.

(** X3. A 500 does not always mean that nothing was stored. When the
    submission is valid and new and the four inserts go through but the
    count that follows the commit throws, the handler answers 500 without
    mail or broadcast while the user and the answers stay in the store; the
    same body sent again then answers 409. *)
Theorem stored_despite_500 `{Host} svc T fails now b v s tr :
  waitlistSchema_validate b = inr v ->
  user_findUnique (Value.email v) s = None ->
  fails FindUnique = false ->
  insert_fails fails = false ->
  fails Count = true ->
  exists s',
    post_waitlist svc T fails now b s tr = (InternalError, s', tr)
    /\ user_count s' = user_count s + 1
    /\ (exists u, In u (users s') /\ User.email u = Value.email v)
    /\ forall svc' T' fails' now' tr',
         fails' FindUnique = false ->
         post_waitlist svc' T' fails' now' b s' tr' = (AlreadyRegistered, s', tr').
Proof.
  intros V N F I C.
  rewrite (post_waitlist_new svc T fails now b v s tr V F N).
  destruct (create_user_and_responses_ok fails now v s I N)
    as (u & r1 & r2 & r3 & -> & Eu & _).
  rewrite C. eexists. split; [reflexivity|].
  assert (In u (users s ++ [u])) by (apply in_or_app; right; now left).
  assert (User.email u = Value.email v) by now rewrite Eu.
  split; [|split].
  - unfold user_count. cbn [users]. rewrite length_app. simpl. lia.
  - exists u. cbn [users]. auto.
  - intros svc' T' fails' now' tr' F'.
    apply (post_waitlist_conflict svc' T' fails' now' b v); auto.
    exists u. cbn [users]. auto.
Qed.

(** X3 on the empty store, with the body of the scenario. *)
Lemma stored_despite_500_witness :
  exists s',
    @post_waitlist sample_host demo_service always_sent count_fails 0
      (sample_body 5) empty_store [] = (InternalError, s', [])
    /\ user_count s' = 1
    /\ @post_waitlist sample_host demo_service always_sent no_failure 1
         (sample_body 5) s' [] = (AlreadyRegistered, s', []).
Proof.
  destruct (@stored_despite_500 sample_host demo_service always_sent count_fails
              0 (sample_body 5) (sample_value 5) empty_store []
              eq_refl eq_refl eq_refl eq_refl eq_refl)
    as (s' & E & C & _ & R).
  exists s'. split; [exact E|]. split; [exact C|].
  apply R. reflexivity.
Defined.

(** ** The welcome mail with credentials *)



(** ** What a signup request tells the outside world *)

(** All [sendWelcomeEmail] adds to the trace is mails handed to the
    transport. *)
Lemma sendWelcomeEmail_trace svc T userEmail userData tr :
  exists mails,
    snd (sendWelcomeEmail svc T userEmail userData tr) = tr ++ map Send mails.
Proof.
  unfold sendWelcomeEmail. destruct (isConfigured svc); cbn [negb].
  2:{ exists []. unfold io_ret. simpl. now rewrite app_nil_r. }
  unfold io_bind, emails_send.
  destruct (T (List.length (sends tr)) _) as [|message|message].
  - eexists [_]. reflexivity.
  - destruct (includes "domain is not verified" message).
    + destruct (T (List.length (sends (tr ++ _))) _);
        eexists [_; _]; unfold io_ret; cbn [snd map];
        now rewrite <- app_assoc.
    + eexists [_]. reflexivity.
  - eexists [_]. reflexivity.
Qed.

(** X5. What the handler pushes to the WebSocket clients after a signup is
    what [GET /api/stats] answers right after it: a 201 adds to the trace
    the calls of the mail transport, then [counter_update] with the count
    of users, which is also the [position] of the reply, then
    [spots_update] with the spots left. Any other reply adds nothing to the
    trace: no mail, no broadcast. *)
Theorem broadcast_matches_stats `{Host} svc T fails now b s tr reply s' tr' :
  post_waitlist svc T fails now b s tr = (reply, s', tr') ->
  match reply with
  | Created _ _ position =>
      exists mails spots,
        tr' = tr ++ map Send mails
                 ++ [Broadcast (counter_update position);
                     Broadcast (spots_update spots)]
        /\ get_stats no_failure s'
           = Some {| Stats.totalSignups := position; Stats.spotsLeft := spots |}
  | _ => tr' = tr
  end.
Proof.
  intros E.
  destruct (waitlistSchema_validate b) as [d|v] eqn:V.
  { rewrite (post_waitlist_invalid svc T fails now b s tr d V) in E.
    now injection E as <- <- <-. }
  destruct (fails FindUnique) eqn:F.
  { unfold post_waitlist in E. rewrite V, F in E. now injection E as <- <- <-. }
  destruct (user_findUnique (Value.email v) s) as [u0|] eqn:N.
  { unfold post_waitlist in E. rewrite V, F, N in E.
    now injection E as <- <- <-. }
  rewrite (post_waitlist_new svc T fails now b v s tr V F N) in E.
  destruct (create_user_and_responses fails now v s) as [[result s1]|].
  2:{ now injection E as <- <- <-. }
  destruct (fails Count).
  { now injection E as <- <- <-. }
  match type of E with
  | context [sendWelcomeEmail ?a ?b ?c ?d ?e] =>
      destruct (sendWelcomeEmail_trace a b c d e) as [mails M];
      destruct (sendWelcomeEmail a b c d e) as [emailResult tr1]
  end.
  cbn [snd] in M. injection E as <- <- <-. subst tr1.
  exists mails, (Z.max (500 - user_count s1) 0). split.
  - now rewrite <- app_assoc.
  - reflexivity.
Qed.

(** X5 on the first signup of the scenario. *)
Lemma broadcast_matches_stats_witness :
  exists mails spots,
    snd (first_signup 0)
    = [] ++ map Send mails
         ++ [Broadcast (counter_update 1); Broadcast (spots_update spots)]
    /\ get_stats no_failure (snd (fst (first_signup 0)))
       = Some {| Stats.totalSignups := 1; Stats.spotsLeft := spots |}.
Proof.
  exact (@broadcast_matches_stats sample_host demo_service always_sent
           no_failure 0 (sample_body 5) empty_store []
           (Created 1 true 1) (snd (fst (first_signup 0))) (snd (first_signup 0))
           eq_refl).
Defined.

Lemma sendWelcomeEmail_none_sent svc T userEmail userData tr :
  isConfigured svc = true ->
  (forall k m, T k m <> Sent) ->
  WelcomeResult.success (fst (sendWelcomeEmail svc T userEmail userData tr))
  = false.
Proof.
  intros C HT. unfold sendWelcomeEmail. rewrite C. cbn [negb].
  unfold io_bind, emails_send.
  destruct (T (List.length (sends tr)) _) as [|message|message] eqn:E1.
  - now apply HT in E1.
  - destruct (includes "domain is not verified" message); [|reflexivity].
    destruct (T (List.length (sends (tr ++ _))) _) eqn:E2; try reflexivity.
    now apply HT in E2.
  - reflexivity.
Qed.

(** X4. The welcome mail never decides the signup. For the same request on
    the same store, two mail services and transports, however they behave,
    leave the same store and give the same reply up to [emailSent]; and a
    transport with credentials that delivers nothing only turns [emailSent]
    to false in a 201. *)
Theorem mail_never_undoes_signup `{Host} svc T svc' T' fails now b s tr tr' :
  let r := post_waitlist svc T fails now b s tr in
  let r' := post_waitlist svc' T' fails now b s tr' in
  snd (fst r) = snd (fst r')
  /\ match fst (fst r), fst (fst r') with
     | Created userId _ position, Created userId' _ position' =>
         userId = userId' /\ position = position'
     | reply, reply' => reply = reply'
     end
  /\ (isConfigured svc = true ->
      (forall k m, T k m <> Sent) ->
      forall userId emailSent position,
        fst (fst r) = Created userId emailSent position -> emailSent = false).
Proof.
  cbn zeta.
  destruct (waitlistSchema_validate b) as [d|v] eqn:V.
  { rewrite !(post_waitlist_invalid _ _ fails now b s _ d V). cbn.
    repeat split. discriminate. }
  destruct (fails FindUnique) eqn:F.
  { unfold post_waitlist. rewrite V, F. cbn. repeat split. discriminate. }
  destruct (user_findUnique (Value.email v) s) as [u0|] eqn:N.
  { unfold post_waitlist. rewrite V, F, N. cbn. repeat split. discriminate. }
  rewrite !(post_waitlist_new _ _ fails now b v s _ V F N).
  destruct (create_user_and_responses fails now v s) as [[result s1]|].
  2:{ cbn. repeat split. discriminate. }
  destruct (fails Count).
  { cbn. repeat split. discriminate. }
  pose proof (sendWelcomeEmail_none_sent svc T (Value.email v)
                {| UserData.position := user_count s1;
                   UserData.primarySkill := Value.primarySkill v;
                   UserData.biggestChallenge := Value.biggestChallenge v;
                   UserData.interestLevel := Value.interestLevel v;
                   UserData.email := Value.email v |} tr) as NS.
  destruct (sendWelcomeEmail svc T _ _ tr) as [emailResult tr1].
  destruct (sendWelcomeEmail svc' T' _ _ tr') as [emailResult' tr1'].
  cbn [fst snd] in *. split; [reflexivity|]. split; [split; reflexivity|].
  intros C HT userId emailSent position [= _ <- _]. now apply NS.
Qed.

(** X7. A run of signup requests only ever appends: after any requests the
    users and the answers the store had are still there, first and
    unchanged, followed by the new users and three answers for each of
    them. No request updates or deletes a row. *)
Theorem rows_are_only_appended `{Host} (reqs : list Request.t) (s : Store)
  (tr : Trace) :
  exists us rs,
    users (fst (serve reqs (s, tr))) = users s ++ us
    /\ responses (fst (serve reqs (s, tr))) = responses s ++ rs
    /\ List.length rs = (3 * List.length us)%nat.
Proof.
  apply (serve_invariant
           (fun s' => exists us rs,
                users s' = users s ++ us
                /\ responses s' = responses s ++ rs
                /\ List.length rs = (3 * List.length us)%nat)).
  - clear tr. intros svc T fails now b s0 tr (us & rs & Eu & Er & L).
    destruct (post_waitlist_store svc T fails now b s0 tr)
      as [->|(v & u & r1 & r2 & r3 & _ & _ & _ & -> & _)].
    + eauto.
    + exists (us ++ [u]), (rs ++ [r1; r2; r3]). cbn [users responses].
      rewrite Eu, Er, <- !app_assoc, !length_app. cbn [List.length].
      repeat split. lia.
  - exists [], []. cbn [fst]. now rewrite !app_nil_r.
Qed.

(** ** The progress update, end to end *)









(** ** Conservation in the comprehensive report *)

Lemma filter_length_mono {A} (f g : A -> bool) (l : list A) :
  (forall x, In x l -> f x = true -> g x = true) ->
  (List.length (filter f l) <= List.length (filter g l))%nat.
Proof.
  intros Hfg. rewrite <- (filter_filter_length f g l Hfg).
  apply filter_length_le.
Qed.

Lemma user_count_gte_mono (t t' : Z) (s : Store) :
  t' <= t -> user_count_gte t s <= user_count_gte t' s.
Proof.
  intros Ht. unfold user_count_gte. apply inj_le.
  apply filter_length_mono. intros u _ E. lia.
Qed.

(** X9. The four counts of the report are nested: the users of the last 24
    hours are among those of the last 7 days, those among the users of the
    last 30 days, and those among all users; none of the counts is
    negative. *)
Theorem window_counts_are_nested `{Host} (s : Store) (today : Z) :
  let r := comprehensive s today in
  0 <= Report.usersToday r
  /\ Report.usersToday r <= Report.usersThisWeek r
  /\ Report.usersThisWeek r <= Report.usersThisMonth r
  /\ Report.usersThisMonth r <= Report.totalUsers r.
Proof.
  cbn zeta. unfold comprehensive.
  cbn [Report.usersToday Report.usersThisWeek Report.usersThisMonth
       Report.totalUsers].
  split; [apply user_count_gte_bounds|].
  split; [apply user_count_gte_mono; lia|].
  split; [apply user_count_gte_mono; lia|].
  apply user_count_gte_bounds.
Qed.

Lemma total_of_app (a b : list Z) : total_of (a ++ b) = total_of a + total_of b.
Proof. unfold total_of. induction a as [|x a IH]; simpl; lia. Qed.

Lemma total_of_incr_at (i : nat) :
  forall a, (i < List.length a)%nat -> total_of (incr_at i a) = total_of a + 1.
Proof.
  unfold total_of.
  induction i as [|i IH]; intros [|x a] Hi; simpl in Hi; try lia; simpl.
  - lia.
  - rewrite IH by lia. lia.
Qed.

Lemma hourly_fold_total `{Host} (us : list User.t) :
  forall a,
    List.length a = 24%nat ->
    total_of (fold_left (fun hourlyData user =>
                           incr_at (Z.to_nat (getHours (User.createdAt user)))
                                   hourlyData) us a)
    = total_of a + Z.of_nat (List.length us).
Proof.
  induction us as [|u us IH]; intros a La; cbn [fold_left List.length]; [lia|].
  pose proof (getHours_range (User.createdAt u)) as R.
  rewrite IH by now rewrite incr_at_length.
  rewrite total_of_incr_at by lia. lia.
Qed.

Lemma combine_seq_fst {A} (l : list A) :
  forall a, map fst (combine l (seq a (List.length l))) = l.
Proof.
  induction l as [|x l IH]; intros a; [reflexivity|].
  cbn [List.length seq combine map fst]. now rewrite IH.
Qed.

Lemma combine_seq_snd {A} (l : list A) :
  forall a, map snd (combine l (seq a (List.length l))) = seq a (List.length l).
Proof.
  induction l as [|x l IH]; intros a; [reflexivity|].
  cbn [List.length seq combine map snd]. now rewrite IH.
Qed.

(** X10. The hourly histogram of the report loses no user and counts none
    twice: it has one entry for each hour from ["0:00"] to ["23:00"], in
    that order, and its 24 counts add up to [totalUsers]. *)
Theorem hourly_histogram_conserves_users `{Host} (s : Store) (today : Z) :
  let r := comprehensive s today in
  map Hourly.hour (Report.hourlySignups r)
  = map (fun h => (decimal (Z.of_nat h) ++ ":00")%string) (seq 0 24)
  /\ total_of (map Hourly.signups (Report.hourlySignups r))
     = Report.totalUsers r.
Proof.
  cbn zeta. unfold comprehensive.
  cbn [Report.hourlySignups Report.totalUsers].
  destruct (hourlyData_spec s) as [L _].
  rewrite !map_map. cbn [Hourly.hour Hourly.signups]. split.
  - rewrite <- (map_map snd (fun h => (decimal (Z.of_nat h) ++ ":00")%string)).
    now rewrite combine_seq_snd, L.
  - change (fun x : Z * nat => fst x) with (@fst Z nat).
    rewrite combine_seq_fst. unfold hourlyData.
    rewrite hourly_fold_total by reflexivity. reflexivity.
Qed.

Lemma total_of_map_add {A} (f g : A -> Z) (l : list A) :
  total_of (map (fun x => f x + g x) l)
  = total_of (map f l) + total_of (map g l).
Proof. unfold total_of. induction l as [|x l IH]; simpl; lia. Qed.

(** Among consecutive days, an instant falls on at most one. *)
Lemma total_of_day_indicator (x base : Z) (n : nat) :
  forall a,
    total_of (map (fun j => if x =? base + Z.of_nat j then 1 else 0) (seq a n))
    = if (base + Z.of_nat a <=? x) && (x <? base + Z.of_nat a + Z.of_nat n)
      then 1 else 0.
Proof.
  unfold total_of. induction n as [|n IH]; intros a.
  - simpl. destruct (Z.leb_spec (base + Z.of_nat a) x);
      destruct (Z.ltb_spec x (base + Z.of_nat a + 0)); cbn [andb]; lia.
  - cbn [seq map fold_right]. rewrite IH.
    destruct (Z.eqb_spec x (base + Z.of_nat a));
      destruct (Z.leb_spec (base + Z.of_nat (S a)) x);
      destruct (Z.ltb_spec x (base + Z.of_nat (S a) + Z.of_nat n));
      destruct (Z.leb_spec (base + Z.of_nat a) x);
      destruct (Z.ltb_spec x (base + Z.of_nat a + Z.of_nat (S n)));
      cbn [andb]; lia.
Qed.

Lemma daily_total (today : Z) (us : list User.t) :
  total_of (map (fun j => signups_on_day (isoDate today - 29 + Z.of_nat j) us)
                (seq 0 30))
  = Z.of_nat (List.length
                (filter (fun u => on_listed_day today (User.createdAt u)) us)).
Proof.
  induction us as [|u us IH].
  - unfold signups_on_day. simpl. reflexivity.
  - rewrite (map_ext _
               (fun j => (if isoDate (User.createdAt u)
                             =? isoDate today - 29 + Z.of_nat j
                          then 1 else 0)
                         + signups_on_day (isoDate today - 29 + Z.of_nat j) us)).
    + rewrite total_of_map_add, IH, total_of_day_indicator.
      cbn [filter]. unfold on_listed_day.
      destruct (Z.leb_spec (isoDate today - 29 + Z.of_nat 0)
                           (isoDate (User.createdAt u)));
        destruct (Z.ltb_spec (isoDate (User.createdAt u))
                             (isoDate today - 29 + Z.of_nat 0 + Z.of_nat 30));
        destruct (Z.leb_spec (isoDate today - 29) (isoDate (User.createdAt u)));
        destruct (Z.leb_spec (isoDate (User.createdAt u)) (isoDate today));
        cbn [andb List.length]; lia.
    + intros j. unfold signups_on_day. cbn [filter].
      destruct (isoDate (User.createdAt u) =? isoDate today - 29 + Z.of_nat j);
        cbn [List.length]; lia.
Qed.

(** X11. The 30 counts of the daily histogram add up to the number of users
    who signed up on one of the 30 listed UTC days, each counted once. This
    is never more than [usersThisMonth]: the histogram leaves out the
    signups of the last 30 days that fall on the day before the first
    listed day, or after today. *)
Theorem daily_histogram_counts_listed_days `{Host} (s : Store) (today : Z) :
  let r := comprehensive s today in
  total_of (map Daily.signups (Report.dailySignups r))
  = Z.of_nat (List.length
                (filter (fun u => on_listed_day today (User.createdAt u))
                        (users s)))
  /\ total_of (map Daily.signups (Report.dailySignups r))
     <= Report.usersThisMonth r.
Proof.
  cbn zeta. unfold comprehensive.
  cbn [Report.dailySignups Report.usersThisMonth].
  rewrite dailySignupsArray_spec, map_map. cbn [Daily.signups].
  rewrite daily_total. split; [reflexivity|].
  unfold user_count_gte. apply inj_le. apply filter_length_mono.
  intros u _ E. unfold on_listed_day in E. apply andb_prop in E.
  destruct E as [E _]. apply Z.leb_le in E. apply Z.leb_le.
  pose proof (isoDate_bounds today). pose proof (isoDate_bounds (User.createdAt u)).
  unfold DAY in *. nia.
Qed.

(** ** Labels *)

Lemma label_or_code_truthy table code :
  label_or_code table code <> Plain "".
Proof.
  unfold label_or_code. destruct code as [c|]; [|discriminate].
  destruct (own_property c table) as [v|].
  - destruct (String.eqb_spec v ""); cbn [negb]; [|congruence].
    destruct (String.eqb_spec c ""); cbn [negb]; [discriminate|congruence].
  - destruct (existsb _ _); [discriminate|].
    destruct (String.eqb_spec c ""); cbn [negb]; [discriminate|congruence].
Qed.

Lemma own_property_In name table v :
  own_property name table = Some v -> In v (map snd table).
Proof.
  induction table as [|[k v'] table IH]; [discriminate|]. simpl.
  destruct (k =? name)%string; [intros [= ->]; now left|]. intros E. right. auto.
Qed.

Lemma label_or_code_pass table (c : string) :
  own_property c table = None ->
  existsb (String.eqb c) Object_prototype = false ->
  c <> "" ->
  label_or_code table (Some c) = Plain c.
Proof.
  intros O P N. unfold label_or_code. rewrite O, P.
  destruct (String.eqb_spec c ""); [contradiction|reflexivity].
Qed.

(** A table whose labels are not themselves codes gives labels that the
    lookup leaves alone. *)
Lemma label_or_code_stable table code s :
  Forall (fun v => label_or_code table (Some v) = Plain v) (map snd table) ->
  label_or_code table (Some "Not specified") = Plain "Not specified" ->
  label_or_code table code = Plain s ->
  label_or_code table (Some s) = Plain s.
Proof.
  intros FA NS E. unfold label_or_code in E. destruct code as [c|].
  2:{ injection E as <-. exact NS. }
  destruct (own_property c table) as [v|] eqn:O.
  - destruct (String.eqb_spec v ""); cbn [negb] in E.
    + destruct (String.eqb_spec c ""); cbn [negb] in E.
      * injection E as <-. exact NS.
      * injection E as <-. unfold label_or_code. rewrite O.
        destruct (String.eqb_spec v ""); [cbn [negb]|contradiction].
        destruct (String.eqb_spec c ""); [contradiction|reflexivity].
    + injection E as <-. rewrite Forall_forall in FA. apply FA.
      now apply (own_property_In c).
  - destruct (existsb (String.eqb c) Object_prototype) eqn:P; [discriminate|].
    destruct (String.eqb_spec c ""); cbn [negb] in E.
    + injection E as <-. exact NS.
    + injection E as <-. now apply label_or_code_pass.
Qed.

(** X12. [formatSkill] and [formatChallenge] always give something to show:
    never the empty string. A code that is neither in the table nor a name
    inherited from [Object.prototype] comes back unchanged, a missing or
    empty code gives ["Not specified"], and a label they have produced is
    left as it is when formatted again. So the [|| '-'] that follows them
    in the dashboard never applies. *)
Theorem labels_are_never_empty (code : option string) :
  formatSkill code <> Plain ""
  /\ formatChallenge code <> Plain ""
  /\ or_dash (formatSkill code) = formatSkill code
  /\ or_dash (formatChallenge code) = formatChallenge code
  /\ (forall s, formatSkill code = Plain s -> formatSkill (Some s) = Plain s)
  /\ (forall s, formatChallenge code = Plain s ->
                formatChallenge (Some s) = Plain s)
  /\ (forall c, code = Some c -> c <> "" ->
                ~ In c (map fst skillMap) -> ~ In c Object_prototype ->
                formatSkill code = Plain c)
  /\ (code = None \/ code = Some "" ->
      formatSkill code = Plain "Not specified"
      /\ formatChallenge code = Plain "Not specified").
Proof.
  assert (D : forall l, l <> Plain "" -> or_dash l = l).
  { intros [s|name] N; [|reflexivity]. simpl.
    destruct (String.eqb_spec s ""); [subst; contradiction|reflexivity]. }
  split; [apply label_or_code_truthy|]. split; [apply label_or_code_truthy|].
  split; [apply D, label_or_code_truthy|].
  split; [apply D, label_or_code_truthy|].
  split; [|split; [|split]].
  - intros s. apply label_or_code_stable; [|reflexivity].
    repeat constructor.
  - intros s. apply label_or_code_stable; [|reflexivity].
    repeat constructor.
  - intros c -> N NI NP. apply label_or_code_pass; auto.
    + destruct (own_property c skillMap) as [v|] eqn:O; [|reflexivity].
      exfalso. apply NI. clear - O. unfold skillMap in *.
      cbn [own_property] in O. cbn [map fst].
      repeat match type of O with
             | (if (?k =? c)%string then _ else _) = _ =>
                 destruct (String.eqb_spec k c) as [<-|_]; [simpl; tauto|]
             end.
      discriminate O.
    + destruct (existsb (String.eqb c) Object_prototype) eqn:P; [|reflexivity].
      exfalso. apply NP. apply existsb_exists in P. destruct P as (x & I & E).
      apply String.eqb_eq in E. now subst.
  - intros [->| ->]; split; reflexivity.
Qed.

(** ** From the signup to the dashboard *)

Lemma or_dash_label table code :
  or_dash (label_or_code table code) = label_or_code table code.
Proof.
  pose proof (label_or_code_truthy table code) as N.
  destruct (label_or_code table code) as [s|name]; [|reflexivity]. simpl.
  destruct (String.eqb_spec s ""); [subst; contradiction|reflexivity].
Qed.

Lemma filter_none {A} (f : A -> bool) (l : list A) :
  (forall x, In x l -> f x = false) -> filter f l = [].
Proof.
  induction l as [|x l IH]; intros Hf; [reflexivity|]. simpl.
  rewrite (Hf x (or_introl eq_refl)). apply IH. intros y I. apply Hf. now right.
Qed.

(** In a store built by signups every user has three answers. *)
Lemma signed_up_three us rs :
  signed_up us rs ->
  forall u, In u us ->
    List.length (filter (fun r => (Response.userId r =? User.id u)%nat) rs)
    = 3%nat.
Proof.
  induction 1 as [|us rs u r1 r2 r3 S IH Ni Ne U1 U2 U3 Q1 Q2 Q3];
    intros u' I; [destruct I|].
  rewrite filter_app, length_app. cbn [filter]. rewrite U1, U2, U3.
  apply in_app_or in I. destruct I as [I|[<-|[]]].
  - rewrite (IH u' I).
    assert ((User.id u =? User.id u')%nat = false) as ->.
    { apply Nat.eqb_neq. intros E. apply Ni. rewrite E. now apply in_map. }
    reflexivity.
  - rewrite Nat.eqb_refl, filter_none; [reflexivity|].
    intros r Ir. apply Nat.eqb_neq. intros E. apply Ni. rewrite <- E.
    now apply (signed_up_owner us rs S).
Qed.

Lemma serve_signed_up `{Host} (reqs : list Request.t) (tr : Trace) :
  signed_up (users (fst (serve reqs (empty_store, tr))))
            (responses (fst (serve reqs (empty_store, tr)))).
Proof.
  apply (serve_invariant (fun s => signed_up (users s) (responses s))).
  - intros. now apply post_waitlist_signed_up.
  - constructor.
Qed.

(** X13. What a signup stores is what the dashboard shows. After any run of
    signup requests on the empty store, a further signup answered 201 gives
    the new user a row with the submitted address, the labels of the
    submitted skill and challenge, the level followed by ["/5 ⭐"], and the
    mark "Completed"; and every row of the table is marked "Completed". *)
Theorem signup_shows_on_dashboard `{Host} (reqs : list Request.t) (tr0 : Trace)
  svc T fails now b tr userId emailSent position s' tr' :
  post_waitlist svc T fails now b (fst (serve reqs (empty_store, tr0))) tr
  = (Created userId emailSent position, s', tr') ->
  exists v u,
    waitlistSchema_validate b = inr v
    /\ In u (users s') /\ User.id u = userId
    /\ dashboard_row u s'
       = {| Row.email := Value.email v;
            Row.skill := formatSkill (Some (Value.primarySkill v));
            Row.challenge := formatChallenge (Some (Value.biggestChallenge v));
            Row.interest :=
              (let a := Number_toString (Value.interestLevel v) in
               if (a =? "")%string then "-" else (a ++ "/5 ⭐")%string);
            Row.completed := true |}
    /\ forall u', In u' (users s') -> Row.completed (dashboard_row u' s') = true.
Proof.
  intros E. set (s := fst (serve reqs (empty_store, tr0))) in *.
  pose proof (serve_signed_up reqs tr0) as S. fold s in S.
  pose proof (post_waitlist_signed_up svc T fails now b s tr S) as S'.
  pose proof (post_waitlist_store svc T fails now b s tr) as C.
  cbn zeta in S', C. rewrite E in S', C. cbn [fst snd] in S', C.
  apply post_waitlist_Created_inv in E.
  destruct E as (v0 & u0 & rs0 & V0 & _ & _ & _ & Es & _ & _ & Ei & _).
  destruct C as [C|(v & u & r1 & r2 & r3 & V & N & _ & C & Eid & Eu & _ & P)].
  { exfalso. rewrite C in Es. apply (f_equal users) in Es. cbn [users] in Es.
    apply (f_equal (@List.length User.t)) in Es. rewrite length_app in Es.
    simpl in Es. lia. }
  destruct P as (U1 & U2 & U3 & Q1 & Q2 & Q3 & A1 & A2 & A3).
  assert (Eu0 : u0 = u).
  { rewrite C in Es. apply (f_equal users) in Es. cbn [users] in Es.
    apply app_inj_tail in Es. now destruct Es. }
  subst u0. exists v, u. split; [exact V|].
  assert (Iu : In u (users s')).
  { rewrite C. cbn [users]. apply in_or_app. right. now left. }
  split; [exact Iu|]. split; [now symmetry|]. split.
  - assert (R : responses_of u s' = [r1; r2; r3]).
    { unfold responses_of. rewrite C. cbn [responses].
      rewrite filter_app. cbn [filter]. rewrite U1, U2, U3, Nat.eqb_refl.
      rewrite filter_none; [reflexivity|].
      intros r Ir. apply Nat.eqb_neq. intros Er.
      apply (signed_up_owner _ _ S) in Ir. rewrite Er, Eid in Ir.
      now apply fresh_id_not_In in Ir. }
    assert (R1 : reduced_answer "primary_skill" [r1; r2; r3]
                 = Some (Value.primarySkill v)).
    { unfold reduced_answer. cbn [fold_left]. rewrite Q1, Q2, Q3, A1.
      reflexivity. }
    assert (R2 : reduced_answer "biggest_challenge" [r1; r2; r3]
                 = Some (Value.biggestChallenge v)).
    { unfold reduced_answer. cbn [fold_left]. rewrite Q1, Q2, Q3, A2.
      reflexivity. }
    assert (R3 : reduced_answer "interest_level" [r1; r2; r3]
                 = Some (Number_toString (Value.interestLevel v))).
    { unfold reduced_answer. cbn [fold_left]. rewrite Q1, Q2, Q3, A3.
      reflexivity. }
    unfold dashboard_row. cbn zeta. rewrite R, R1, R2, R3, Eu.
    unfold formatSkill, formatChallenge. rewrite !or_dash_label.
    reflexivity.
  - intros u' I. unfold dashboard_row, responses_of. cbn [Row.completed].
    now rewrite (signed_up_three _ _ S' u' I).
Qed.

(** X13 on the first signup of the scenario. *)
Lemma signup_shows_on_dashboard_witness :
  exists u,
    In u (users (snd (fst (first_signup 0))))
    /\ @dashboard_row u (snd (fst (first_signup 0)))
       = {| Row.email := "a@x.com";
            Row.skill := Plain "Graphic Design";
            Row.challenge := Plain "Finding Clients";
            Row.interest := "5/5 ⭐";
            Row.completed := true |}.
Proof.
  destruct (@signup_shows_on_dashboard sample_host [] [] demo_service always_sent
              no_failure 0 (sample_body 5) [] 1%nat true 1
              (snd (fst (first_signup 0))) (snd (first_signup 0)) eq_refl)
    as (v & u & V & I & _ & R & _).
  exists u. split; [exact I|]. rewrite R.
  assert (Ev : v = sample_value 5).
  { change (@waitlistSchema_validate sample_host (sample_body 5))
      with (@inr Joi.detail Value.t (sample_value 5)) in V. congruence. }
  rewrite Ev. reflexivity.
Defined.

(** ** Groups and the largest group *)

Lemma count_in_group_add (x a : string) (gs : list Group.t) :
  count_in x (group_add a gs)
  = count_in x gs + (if (x =? a)%string then 1 else 0).
Proof.
  rewrite (String.eqb_sym x a).
  induction gs as [|g gs IH]; cbn [group_add count_in Group.answer Group.count].
  - destruct (a =? x)%string; lia.
  - destruct (String.eqb_spec (Group.answer g) a) as [E|E];
      cbn [count_in Group.answer Group.count].
    + rewrite E. destruct (a =? x)%string; lia.
    + destruct (String.eqb_spec (Group.answer g) x) as [E'|E'].
      * assert ((a =? x)%string = false) as ->
          by (apply String.eqb_neq; congruence).
        lia.
      * apply IH.
Qed.

Lemma answers_group_add (a : string) (gs : list Group.t) :
  map Group.answer (group_add a gs)
  = if existsb (String.eqb a) (map Group.answer gs)
    then map Group.answer gs else map Group.answer gs ++ [a].
Proof.
  induction gs as [|g gs IH]; [reflexivity|].
  cbn [group_add map existsb]. rewrite (String.eqb_sym a).
  destruct (String.eqb_spec (Group.answer g) a) as [E|E]; cbn [orb map Group.answer].
  - now rewrite E.
  - rewrite IH. destruct (existsb _ _); reflexivity.
Qed.

(** The groups of a list of answers: distinct answers, the answers of the
    list and no other, each with the number of its occurrences. *)
Lemma group_fold (l : list string) :
  forall gs,
    NoDup (map Group.answer gs) ->
    let gs' := fold_left (fun gs a => group_add a gs) l gs in
    NoDup (map Group.answer gs')
    /\ (forall x, count_in x gs' = count_in x gs + occurrences x l)
    /\ (forall x, In x (map Group.answer gs')
                  <-> In x (map Group.answer gs) \/ In x l).
Proof.
  induction l as [|a l IH]; intros gs ND; cbn zeta.
  - cbn [fold_left]. split; [exact ND|]. split.
    + intros x. unfold occurrences. simpl. lia.
    + intros x. simpl. tauto.
  - cbn [fold_left].
    assert (ND' : NoDup (map Group.answer (group_add a gs))).
    { rewrite answers_group_add.
      destruct (existsb (String.eqb a) (map Group.answer gs)) eqn:X; [exact ND|].
      apply NoDup_snoc; [exact ND|]. intros I.
      assert (existsb (String.eqb a) (map Group.answer gs) = true).
      { apply existsb_exists. exists a. split; [exact I|apply String.eqb_refl]. }
      congruence. }
    destruct (IH (group_add a gs) ND') as (N & C & M). split; [exact N|]. split.
    + intros x. rewrite C, count_in_group_add. unfold occurrences.
      cbn [count_occ]. destruct (string_dec a x) as [E|E].
      * subst. rewrite String.eqb_refl. lia.
      * assert ((x =? a)%string = false) as ->
          by (apply String.eqb_neq; congruence).
        lia.
    + intros x. rewrite M, answers_group_add.
      destruct (existsb (String.eqb a) (map Group.answer gs)) eqn:X.
      * apply existsb_exists in X. destruct X as (y & Iy & Ey).
        apply String.eqb_eq in Ey. subst y. simpl.
        intuition (subst; auto).
      * rewrite in_app_iff. simpl. intuition (subst; auto).
Qed.

Lemma count_in_member (gs : list Group.t) :
  NoDup (map Group.answer gs) ->
  forall g, In g gs -> count_in (Group.answer g) gs = Group.count g.
Proof.
  induction gs as [|g0 gs IH]; intros ND g I; [destruct I|].
  inversion ND as [|? ? N0 ND']; subst. cbn [count_in].
  destruct I as [->|I]; [now rewrite String.eqb_refl|].
  destruct (String.eqb_spec (Group.answer g0) (Group.answer g)) as [E|E].
  - exfalso. apply N0. rewrite E. now apply in_map.
  - now apply IH.
Qed.

Lemma map_filter_answers (questionId : string) (rs : list Response.t) :
  forall gs,
    fold_left (fun gs r => group_add (Response.answer r) gs)
      (filter (fun r => (Response.questionId r =? questionId)%string) rs) gs
    = fold_left (fun gs a => group_add a gs)
        (map Response.answer
           (filter (fun r => (Response.questionId r =? questionId)%string) rs))
        gs.
Proof.
  induction (filter _ rs) as [|r l IH]; intros gs; [reflexivity|].
  cbn [fold_left map]. apply IH.
Qed.

(** The distribution of the answers to a question. *)
Lemma response_groupBy_spec (questionId : string) (s : Store) :
  let dist := response_groupBy questionId s in
  NoDup (map Group.answer dist)
  /\ (forall g, In g dist ->
        Group.count g = occurrences (Group.answer g) (answers_given questionId s)
        /\ In (Group.answer g) (answers_given questionId s))
  /\ (forall a, In a (answers_given questionId s) ->
        exists g, In g dist /\ Group.answer g = a).
Proof.
  cbn zeta. unfold response_groupBy. rewrite map_filter_answers.
  fold (answers_given questionId s).
  destruct (group_fold (answers_given questionId s) [] (NoDup_nil _))
    as (N & C & M).
  cbn zeta in N, C, M. split; [exact N|]. split.
  - intros g I. split.
    + rewrite <- (count_in_member _ N g I), C. simpl. lia.
    + apply (in_map Group.answer) in I. apply M in I.
      destruct I as [[]|I]. exact I.
  - intros a I. assert (I' : In a (map Group.answer
      (fold_left (fun gs a => group_add a gs) (answers_given questionId s) [])))
      by (apply M; now right).
    apply in_map_iff in I'. destruct I' as (g & E & Ig). eauto.
Qed.

(** The [reduce] keeps its accumulator when no group beats it, and
    otherwise ends on the first group that no other group beats. *)
Lemma top_fold (dist : list Group.t) :
  forall acc,
    let r := fold_left top_step dist acc in
    (r = acc /\ forall g, In g dist -> Group.count g <= top_count acc)
    \/ exists before g after,
         dist = before ++ g :: after
         /\ r = TopGroup g
         /\ top_count acc < Group.count g
         /\ (forall g', In g' before -> Group.count g' < Group.count g)
         /\ (forall g', In g' after -> Group.count g' <= Group.count g).
Proof.
  induction dist as [|g0 dist IH]; intros acc; cbn zeta.
  - left. split; [reflexivity|]. intros g I. destruct I.
  - cbn [fold_left].
    destruct (Z.gtb_spec (Group.count g0) (top_count acc)) as [G|G].
    + assert (St : top_step acc g0 = TopGroup g0).
      { unfold top_step.
        destruct (Z.gtb_spec (Group.count g0) (top_count acc)); [reflexivity|lia]. }
      rewrite St.
      right. destruct (IH (TopGroup g0)) as [[E A]|(b & g & a & E & R & C & B & A)].
      * exists [], g0, dist. cbn [top_count] in A.
        split; [reflexivity|]. split; [exact E|]. split; [lia|].
        split; [intros g' I; destruct I|exact A].
      * exists (g0 :: b), g, a. cbn [top_count] in C. subst dist.
        split; [reflexivity|]. split; [exact R|]. split; [lia|].
        split; [|exact A].
        intros g' [<-|I]; [exact C|now apply B].
    + assert (St : top_step acc g0 = acc).
      { unfold top_step.
        destruct (Z.gtb_spec (Group.count g0) (top_count acc)); [lia|reflexivity]. }
      rewrite St.
      destruct (IH acc) as [[E A]|(b & g & a & E & R & C & B & A)].
      * left. split; [exact E|]. intros g [<-|I]; [lia|now apply A].
      * right. exists (g0 :: b), g, a. subst dist.
        split; [reflexivity|]. split; [exact R|]. split; [exact C|].
        split; [|exact A].
        intros g' [<-|I]; [lia|now apply B].
Qed.

Lemma occurrences_In (a : string) (l : list string) :
  In a l <-> 1 <= occurrences a l.
Proof.
  unfold occurrences. rewrite (count_occ_In string_dec). lia.
Qed.

(** The largest group of the distribution of a question. *)
Lemma top_group_spec (questionId : string) (fallback : Group.t) (s : Store) :
  let given := answers_given questionId s in
  exists g,
    top_group fallback (response_groupBy questionId s) = TopGroup g
    /\ ((given = [] /\ g = fallback)
        \/ (In (Group.answer g) given
            /\ Group.count g = occurrences (Group.answer g) given
            /\ forall a, occurrences a given <= Group.count g)).
Proof.
  cbn zeta. destruct (response_groupBy_spec questionId s) as (N & C & M).
  cbn zeta in N, C, M. unfold top_group.
  destruct (response_groupBy questionId s) as [|g0 dist] eqn:D.
  - exists fallback. split; [reflexivity|]. left. split; [|reflexivity].
    destruct (answers_given questionId s) as [|a l]; [reflexivity|].
    destruct (M a (or_introl eq_refl)) as (g & I & _). destruct I.
  - cbn [List.length Nat.ltb Nat.leb].
    destruct (top_fold (g0 :: dist) NoTop)
      as [[_ A]|(b & g & a & E & R & _ & B & Af)].
    + exfalso. specialize (A g0 (or_introl eq_refl)). cbn [top_count] in A.
      destruct (C g0 (or_introl eq_refl)) as [Cg Ig].
      apply occurrences_In in Ig. lia.
    + exists g. split; [exact R|]. right.
      assert (Ig : In g (g0 :: dist)).
      { rewrite E. apply in_or_app. right. now left. }
      destruct (C g Ig) as [Cg Ia]. split; [exact Ia|]. split; [exact Cg|].
      intros x.
      destruct (in_dec string_dec x (answers_given questionId s)) as [Ix|Nx].
      * destruct (M x Ix) as (g' & Ig' & <-).
        destruct (C g' Ig') as [<- _].
        rewrite E in Ig'. apply in_app_or in Ig'.
        destruct Ig' as [I|[<-|I]].
        -- specialize (B g' I). lia.
        -- lia.
        -- now apply Af.
      * assert (Z0 : occurrences x (answers_given questionId s) = 0).
        { unfold occurrences.
          now rewrite (proj1 (count_occ_not_In string_dec _ _) Nx). }
        apply occurrences_In in Ia. lia.
Qed.

(** X14. [topSkill] and [topChallenge] name an answer given most often.
    When a question has answers, the insight is one of them, its count is
    the number of rows with that answer, and no answer has more rows; when
    it has none, the insight is the fallback ([design], [payment_delays])
    with count 0. It is never the empty object the [reduce] starts from. *)
Theorem top_answer_is_most_frequent (s : Store) :
  (exists g,
      topSkill s = TopGroup g
      /\ ((answers_given "primary_skill" s = []
           /\ g = {| Group.answer := "design"; Group.count := 0 |})
          \/ (In (Group.answer g) (answers_given "primary_skill" s)
              /\ Group.count g
                 = occurrences (Group.answer g) (answers_given "primary_skill" s)
              /\ forall a, occurrences a (answers_given "primary_skill" s)
                           <= Group.count g)))
  /\ (exists g,
         topChallenge s = TopGroup g
         /\ ((answers_given "biggest_challenge" s = []
              /\ g = {| Group.answer := "payment_delays"; Group.count := 0 |})
             \/ (In (Group.answer g) (answers_given "biggest_challenge" s)
                 /\ Group.count g
                    = occurrences (Group.answer g)
                        (answers_given "biggest_challenge" s)
                 /\ forall a, occurrences a (answers_given "biggest_challenge" s)
                              <= Group.count g))).
Proof.
  split; apply top_group_spec.
Qed.

(** ** The funnel of a store built by signups *)

Lemma signed_up_count us rs (q : Question) :
  signed_up us rs ->
  List.length (filter (fun r => (Response.questionId r =? questionId_of q)%string) rs)
  = List.length us.
Proof.
  induction 1 as [|us rs u r1 r2 r3 S IH Ni Ne U1 U2 U3 Q1 Q2 Q3];
    [reflexivity|].
  rewrite filter_app, !length_app, IH. cbn [filter]. rewrite Q1, Q2, Q3.
  destruct q; reflexivity.
Qed.

Lemma percent_all (n : Z) : 0 < n -> percent n n = "100.0".
Proof.
  intros Hn. unfold percent, Number_mul, Number_div.
  rewrite (binary64_Qeq (inject_Z n / inject_Z n) 1).
  - reflexivity.
  - field. intros E. unfold Qeq in E. simpl in E. lia.
Qed.

(** X15. For a store that a run of signup requests built from the empty
    store with [n] users, the funnel of the report reads: [3 n] views at
    ["100%"], [n] addresses at ["33%"], then [n] surveys started and [n]
    completed, both at ["100.0%"]; the completion rate is ["100.0"] and the
    market fit ["Strong"]. With no user the two measured rates are ["0%"],
    the completion rate ["0"] and the market fit ["Developing"]. *)
Theorem funnel_of_complete_signups `{Host} (reqs : list Request.t) (tr : Trace) :
  let s := fst (serve reqs (empty_store, tr)) in
  let n := user_count s in
  conversionFunnel s
  = [ {| Stage.stage := "Landing Page View"; Stage.users := n * 3;
         Stage.rate := "100%" |};
      {| Stage.stage := "Email Entered"; Stage.users := n;
         Stage.rate := "33%" |};
      {| Stage.stage := "Survey Started"; Stage.users := n;
         Stage.rate := if 0 <? n then "100.0%" else "0%" |};
      {| Stage.stage := "Survey Completed"; Stage.users := n;
         Stage.rate := if 0 <? n then "100.0%" else "0%" |} ]
  /\ completionRate s = (if 0 <? n then "100.0" else "0")
  /\ marketFit s = (if 0 <? n then "Strong" else "Developing").
Proof.
  cbn zeta. set (s := fst (serve reqs (empty_store, tr))).
  pose proof (serve_signed_up reqs tr) as S. fold s in S.
  assert (C : forall q, response_count (questionId_of q) s = user_count s).
  { intros q. unfold response_count, user_count.
    now rewrite (signed_up_count _ _ q S). }
  pose proof (C primary_skill) as C1. pose proof (C biggest_challenge) as C2.
  pose proof (C interest_level) as C3. cbn [questionId_of] in C1, C2, C3.
  assert (P : (0 <? user_count s) = true ->
              percent (user_count s) (user_count s) = "100.0").
  { intros L. apply percent_all. lia. }
  split; [|split].
  - unfold conversionFunnel. cbn zeta. rewrite C1, C3.
    destruct (0 <? user_count s) eqn:L; [|reflexivity].
    now rewrite (P eq_refl).
  - unfold completionRate. cbn zeta. rewrite C3.
    destruct (0 <? user_count s) eqn:L; [|reflexivity]. now apply P.
  - unfold marketFit.
    destruct (response_groupBy_spec "biggest_challenge" s) as (_ & _ & M).
    cbn zeta in M.
    assert (La : Z.of_nat (List.length (answers_given "biggest_challenge" s))
                 = user_count s).
    { unfold answers_given. rewrite length_map. exact C2. }
    destruct (0 <? user_count s) eqn:L.
    + destruct (answers_given "biggest_challenge" s) as [|a l] eqn:G.
      { simpl in La. lia. }
      destruct (M a (or_introl eq_refl)) as (g & I & _).
      destruct (response_groupBy "biggest_challenge" s); [destruct I|reflexivity].
    + assert (F : filter (fun r => (Response.questionId r =? "biggest_challenge")%string)
                         (responses s) = []).
      { apply length_zero_iff_nil. unfold response_count in C2. lia. }
      unfold response_groupBy. rewrite F. reflexivity.
Qed.


(** ** The signup form of the page *)

(** The form's check on a few addresses: white space is refused wherever it
    stands and whatever its kind (here a space, U+00A0, U+2003 and U+FEFF),
    and the part after the [@] needs a dot inside. *)
Example validateEmail_examples :
  let utf8 (bytes : list nat) := string_of_list_ascii (map ascii_of_nat bytes) in
  map validateEmail
    [ "a@x.com"; "a.b@x.co.uk"; "a@b..c";
      "a b@x.com"; "a@x.com ";
      ("a" ++ utf8 [194; 160]%nat ++ "b@x.com")%string;
      ("a@x" ++ utf8 [226; 128; 131]%nat ++ ".com")%string;
      (utf8 [239; 187; 191]%nat ++ "a@x.com")%string;
      "a@x"; "a@.com"; "a@x."; "@x.com"; "a@b@x.com"; "" ]
  = [ true; true; true;
      false; false; false; false; false;
      false; false; false; false; false; false ].
Proof. vm_compute. reflexivity. Qed.

Lemma validateCurrentStep_step dom w :
  Wizard.currentStep (snd (validateCurrentStep dom w)) = Wizard.currentStep w.
Proof.
  unfold validateCurrentStep.
  destruct (Wizard.currentStep w =? 1).
  - now destruct (negb _).
  - destruct (Wizard.currentStep w =? 2); [|reflexivity].
    now destruct (negb _ || negb _ || negb _).
Qed.

Lemma validateCurrentStep_email dom w :
  let w' := snd (validateCurrentStep dom w) in
  (checked_email (FormData.email (Wizard.formData w)) ->
   checked_email (FormData.email (Wizard.formData w')))
  /\ (FormData.email (Wizard.formData w) = None ->
      FormData.email (Wizard.formData w') = None
      \/ checked_email (FormData.email (Wizard.formData w')))
  /\ (fst (validateCurrentStep dom w) = true ->
      Wizard.currentStep w = 1 ->
      checked_email (FormData.email (Wizard.formData w'))).
Proof.
  unfold validateCurrentStep.
  destruct (Z.eqb_spec (Wizard.currentStep w) 1) as [E1|E1].
  - destruct (validateEmail (Inputs.email_input dom)) eqn:V; cbn [negb fst snd].
    + assert (C : checked_email (Some (Inputs.email_input dom)))
        by (eexists; eauto).
      cbn. repeat split; auto.
    + repeat split; auto. discriminate.
  - destruct (Wizard.currentStep w =? 2).
    + destruct (negb _ || negb _ || negb _); cbn; repeat split; auto;
        intros; lia.
    + cbn. repeat split; auto. intros; lia.
Qed.

Lemma form_step_invariant p e :
  form_invariant p -> form_invariant (form_step p e).
Proof.
  intros (I1 & I2 & I3 & I4).
  pose (w := Page.form p).
  destruct e as [dom| |dom|answer|available]; cbn [form_step].
  - pose proof (validateCurrentStep_step dom w) as Es.
    destruct (validateCurrentStep_email dom w) as (K1 & K2 & K3).
    unfold form_invariant, nextStep. cbn [Page.form Page.posted Page.in_flight].
    fold w. destruct (validateCurrentStep dom w) as [ok w'].
    cbn [fst snd] in *.
    assert (D : FormData.email (Wizard.formData w') = None
                \/ checked_email (FormData.email (Wizard.formData w'))).
    { destruct I3 as [N|C]; [now apply K2|right; now apply K1]. }
    destruct ok; unfold set_step; cbn [Wizard.currentStep Wizard.formData].
    + assert (C : checked_email (FormData.email (Wizard.formData w'))).
      { destruct (Z.eq_dec (Wizard.currentStep w) 1) as [E|E];
          [now apply K3|]. apply K1, I2. left. subst w. lia. }
      repeat split; auto. subst w. lia.
    + rewrite Es. repeat split; auto.
  - unfold form_invariant, prevStep. cbn [Page.form Page.posted Page.in_flight].
    fold w.
    destruct (Z.ltb_spec 1 (Wizard.currentStep w)); [|repeat split; auto].
    unfold set_step. cbn [Wizard.currentStep Wizard.formData].
    repeat split; auto; try lia. intros _. apply I2. left. subst w. lia.
  - pose proof (validateCurrentStep_step dom w) as Es.
    destruct (validateCurrentStep_email dom w) as (K1 & K2 & K3).
    unfold submitForm. fold w. destruct (validateCurrentStep dom w) as [ok w'].
    cbn [fst snd] in *.
    assert (D : FormData.email (Wizard.formData w') = None
                \/ checked_email (FormData.email (Wizard.formData w'))).
    { destruct I3 as [N|C]; [now apply K2|right; now apply K1]. }
    destruct ok; cbn [negb].
    + assert (C : checked_email (FormData.email (Wizard.formData w'))).
      { destruct (Z.eq_dec (Wizard.currentStep w) 1) as [E|E];
          [now apply K3|]. apply K1, I2. left. subst w. lia. }
      destruct (Wizard.isBackendAvailable w'); cbn [negb];
        unfold form_invariant, set_step;
        cbn [Page.form Page.posted Page.in_flight
             Wizard.currentStep Wizard.formData].
      * rewrite Es. repeat split; auto.
        apply Forall_app. split; [exact I4|]. now repeat constructor.
      * repeat split; auto. lia.
    + unfold form_invariant. cbn [Page.form Page.posted Page.in_flight].
      rewrite Es. repeat split; auto.
  - destruct (Page.in_flight p) as [|n] eqn:F;
      [unfold form_invariant; rewrite F; repeat split; auto|].
    assert (C : checked_email (FormData.email (Wizard.formData w)))
      by (apply I2; right; lia).
    unfold form_invariant. cbn [Page.form Page.posted Page.in_flight]. fold w.
    destruct answer; unfold submitForm_resume, set_step;
      cbn [Wizard.currentStep Wizard.formData]; repeat split; auto; lia.
  - unfold form_invariant. cbn. repeat split; auto.
Qed.

(** X16. Whatever is clicked on the signup form, in whatever order, with
    whatever the inputs hold and however the pending posts settle in
    between, the form never goes back before step 1, it is past step 1
    only with an address its own check has accepted, and every body it
    posts to [/api/waitlist] carries such an address.  Nothing bounds the
    step from above: at step 3 or later "next" always moves on. *)
Theorem form_posts_checked_emails (events : list FormEvent) :
  let w := Page.form (form_run events) in
  1 <= Wizard.currentStep w
  /\ (2 <= Wizard.currentStep w ->
      exists e, FormData.email (Wizard.formData w) = Some e
                /\ validateEmail e = true)
  /\ Forall (fun b => exists e, FormData.email b = Some e
                                /\ validateEmail e = true)
            (Page.posted (form_run events))
  /\ (forall dom, 3 <= Wizard.currentStep w ->
        Wizard.currentStep (nextStep dom w) = Wizard.currentStep w + 1).
Proof.
  assert (G : forall p, form_invariant p ->
                        form_invariant (fold_left form_step events p)).
  { induction events as [|e events IH]; intros p I; [exact I|].
    cbn [fold_left]. apply IH. now apply form_step_invariant. }
  destruct (G {| Page.form := new_ZintleWaitlist;
                 Page.posted := [];
                 Page.in_flight := O |}) as (I1 & I2 & I3 & I4).
  - unfold form_invariant. cbn. repeat split; auto; lia.
  - fold (form_run events) in *. cbv zeta.
    split; [exact I1|]. split; [intros H; apply I2; now left|].
    split; [exact I4|].
    intros dom L. unfold nextStep, validateCurrentStep.
    assert ((Wizard.currentStep (Page.form (form_run events)) =? 1) = false)
      as -> by lia.
    assert ((Wizard.currentStep (Page.form (form_run events)) =? 2) = false)
      as -> by lia.
    reflexivity.
Qed.

(** ** The retention figure *)

Lemma keen_examples :
  map keen ["4"; "5"; " 4"; "4.9"; "3.9"; "+5"; "-5"; "0x4"; "0x"; "four"; "";
            "10"; "04"; "4e0"; "1e9"]
  = [true; true; true; true; false; true; false; true; false; false; false;
     true; true; true; false].
Proof. vm_compute. reflexivity. Qed.

Lemma keen_fold (gs : list Group.t) :
  forall acc,
    fold_left (fun acc l => acc + Group.count l) gs acc
    = acc + total_of (map Group.count gs).
Proof.
  unfold total_of. induction gs as [|g gs IH]; intros acc; simpl; [lia|].
  rewrite IH. lia.
Qed.

Lemma keen_count_group_add (a : string) (gs : list Group.t) :
  keen_count (group_add a gs) = keen_count gs + (if keen a then 1 else 0).
Proof.
  unfold keen_count. rewrite !keen_fold. unfold total_of.
  induction gs as [|g gs IH]; cbn [group_add].
  - cbn [filter Group.answer]. destruct (keen a); reflexivity.
  - destruct (String.eqb_spec (Group.answer g) a) as [E|E].
    + cbn [filter Group.answer]. rewrite E.
      destruct (keen a); cbn [map fold_right Group.count]; lia.
    + cbn [filter]. destruct (keen (Group.answer g));
        cbn [map fold_right] in *; lia.
Qed.

Lemma keen_count_groups (l : list string) :
  forall gs,
    keen_count (fold_left (fun gs a => group_add a gs) l gs)
    = keen_count gs + Z.of_nat (List.length (filter keen l)).
Proof.
  induction l as [|a l IH]; intros gs; cbn [fold_left filter].
  - simpl. lia.
  - rewrite IH, keen_count_group_add.
    destruct (keen a); cbn [List.length]; lia.
Qed.

Lemma percent_none (n : Z) : 0 < n -> percent 0 n = "0.0".
Proof.
  intros Hn. unfold percent, Number_mul, Number_div.
  rewrite (binary64_Qeq (inject_Z 0 / inject_Z n) 0).
  - reflexivity.
  - field. intros E. unfold Qeq in E. simpl in E. lia.
Qed.

(** X17. The retention figure of the report is the share of the
    [interest_level] answers that [parseInt] reads as 4 or more, among all
    users: the sum over the groups of equal answers counts each such answer
    once. The share is computed in doubles, within a relative error of
    [2^-51] of the exact percentage, and printed with one decimal. It is
    ["100.0"] when their number equals the number of users, ["0.0"] when
    there is none, and ["0"] without users. In a store built by signup
    requests their number is at most the number of users. The number of
    users is below [2^53], as counts held in doubles are. *)
Theorem retention_counts_keen_answers `{Host} (s : Store)
    (reqs : list Request.t) (tr : Trace) :
  let exact := (inject_Z (keen_answers s) / inject_Z (user_count s) * 100)%Q in
  let x := Number_mul (Number_div (inject_Z (keen_answers s))
                                  (inject_Z (user_count s))) 100 in
  user_count s < 2 ^ 53 ->
  retentionPotential s
  = (if 0 <? user_count s then
       if keen_answers s =? user_count s then "100.0"
       else if keen_answers s =? 0 then "0.0"
       else toFixed 1 x
     else "0")
  /\ (0 < user_count s ->
      (exact - exact * pow2 (-51) <= x /\ x <= exact + exact * pow2 (-51))%Q)
  /\ 0 <= keen_answers (fst (serve reqs (empty_store, tr)))
     <= user_count (fst (serve reqs (empty_store, tr))).
Proof.
  cbn zeta. intros Hn. split; [|split].
  - unfold retentionPotential, response_groupBy. cbn zeta.
    rewrite map_filter_answers. fold (answers_given "interest_level" s).
    rewrite keen_count_groups.
    replace (keen_count []) with 0 by reflexivity. rewrite Z.add_0_l.
    fold (keen_answers s).
    destruct (Z.ltb_spec 0 (user_count s)) as [L|L]; [|reflexivity].
    destruct (Z.eqb_spec (keen_answers s) (user_count s)) as [E|E].
    + rewrite E. now apply percent_all.
    + destruct (Z.eqb_spec (keen_answers s) 0) as [E0|E0]; [|reflexivity].
      rewrite E0. now apply percent_none.
  - intros L. apply percentage_error; [unfold keen_answers; lia|lia].
  - set (s' := fst (serve reqs (empty_store, tr))).
    pose proof (serve_signed_up reqs tr) as S. fold s' in S.
    pose proof (signed_up_count _ _ interest_level S) as C.
    cbn [questionId_of] in C.
    pose proof (filter_length_le keen (answers_given "interest_level" s')) as F.
    unfold answers_given in F at 2. rewrite length_map, C in F.
    unfold keen_answers, user_count. lia.
Qed.

(** X17, with 23 keen answers among 80 users: the exact share is 28.75,
    the double is just below it, and the figure is ["28.7"]. *)
Lemma retention_counts_keen_answers_witness :
  user_count retention_users = 80
  /\ keen_answers retention_users = 23
  /\ retentionPotential retention_users = "28.7"
  /\ retentionPotential retention_users
     = toFixed 1 (Number_mul (Number_div (inject_Z 23) (inject_Z 80)) 100).
Proof.
  split; [vm_compute; reflexivity|]. split; [vm_compute; reflexivity|].
  split; [vm_compute; reflexivity|].
  destruct (@retention_counts_keen_answers sample_host retention_users [] [])
    as (E & _); [vm_compute; reflexivity|].
  exact E.
Defined.

(** ** The analytics reply *)

Lemma group_add_total (a : string) (gs : list Group.t) :
  total_of (map Group.count (group_add a gs))
  = total_of (map Group.count gs) + 1.
Proof.
  unfold total_of.
  induction gs as [|g gs IH]; cbn [group_add]; [reflexivity|].
  destruct (Group.answer g =? a)%string; cbn [map fold_right Group.count] in *;
    lia.
Qed.

Lemma groups_total (l : list string) :
  forall gs,
    total_of (map Group.count (fold_left (fun gs a => group_add a gs) l gs))
    = total_of (map Group.count gs) + Z.of_nat (List.length l).
Proof.
  induction l as [|a l IH]; intros gs; cbn [fold_left List.length].
  - lia.
  - rewrite IH, group_add_total. lia.
Qed.

Lemma response_groupBy_splits (q : Question) (s : Store) :
  signed_up (users s) (responses s) ->
  splits (user_count s) (response_groupBy (questionId_of q) s).
Proof.
  intros S.
  destruct (response_groupBy_spec (questionId_of q) s) as (N & C & _).
  cbn zeta in N, C. split; [exact N|]. split.
  - apply Forall_forall. intros g I. destruct (C g I) as (-> & M).
    now apply occurrences_In.
  - unfold response_groupBy. rewrite map_filter_answers, groups_total.
    rewrite length_map, (signed_up_count _ _ q S). reflexivity.
Qed.

(** X18. For a store built by signup requests, [GET /api/analytics]
    answers, when no query throws, with a consistent reply: each of the
    three distributions has one group per distinct answer, no empty
    group, and counts that add up to [totalUsers]; [recentSignups] lies
    between 0 and [totalUsers] and equals the [usersThisWeek] that the
    comprehensive report gives at the same instant. When a query throws
    the answer is the 500. *)
Theorem analytics_reply_is_consistent `{Host} (reqs : list Request.t)
    (tr : Trace) (now : Z) :
  let s := fst (serve reqs (empty_store, tr)) in
  get_analytics true now s = None
  /\ exists r,
       get_analytics false now s = Some r
       /\ Analytics.totalUsers r = user_count s
       /\ splits (Analytics.totalUsers r) (Analytics.skillDistribution r)
       /\ splits (Analytics.totalUsers r) (Analytics.challengeDistribution r)
       /\ splits (Analytics.totalUsers r) (Analytics.interestLevels r)
       /\ 0 <= Analytics.recentSignups r <= Analytics.totalUsers r
       /\ Analytics.recentSignups r = Report.usersThisWeek (comprehensive s now).
Proof.
  cbn zeta. set (s := fst (serve reqs (empty_store, tr))).
  pose proof (serve_signed_up reqs tr) as S. fold s in S.
  split; [reflexivity|]. eexists. split; [reflexivity|].
  cbn [Analytics.totalUsers Analytics.skillDistribution
       Analytics.challengeDistribution Analytics.interestLevels
       Analytics.recentSignups].
  assert (R : Z.of_nat (List.length
                          (user_findMany_gte_desc (now - 7 * 24 * 60 * 60 * 1000) s))
              = user_count_gte (now - 7 * 24 * 60 * 60 * 1000) s).
  { unfold user_findMany_gte_desc, user_count_gte.
    now rewrite (Permutation_length (Array_sort_perm _ _)). }
  split; [reflexivity|].
  split; [exact (response_groupBy_splits primary_skill s S)|].
  split; [exact (response_groupBy_splits biggest_challenge s S)|].
  split; [exact (response_groupBy_splits interest_level s S)|].
  rewrite R. split; [apply user_count_gte_bounds|reflexivity].
Qed.

(** ** The spots the page shows *)

(** [parseInt] reads back the digits of an integer from 0 to 500. *)
Lemma parseInt_decimal_small (k : Z) :
  0 <= k <= 500 -> parseInt (decimal k) = Some k.
Proof.
  intros Hk.
  assert (A : forallb (fun n => match parseInt (decimal (Z.of_nat n)) with
                                | Some v => v =? Z.of_nat n
                                | None => false
                                end) (seq 0 501) = true)
    by (vm_compute; reflexivity).
  rewrite forallb_forall in A.
  specialize (A (Z.to_nat k)). rewrite Z2Nat.id in A by lia.
  assert (I : In (Z.to_nat k) (seq 0 501)) by (apply in_seq; lia).
  specialize (A I). destruct (parseInt (decimal k)) as [v|]; [|discriminate].
  apply Z.eqb_eq in A. now subst.
Qed.

(** X19. After [loadDynamicData] against a reachable server, the page
    shows [500 - n] spots while fewer than 500 users have signed up, and
    ["500"] again once 500 or more have: the 0 of the full list is
    replaced by the default. It also shows ["500"] when the server answers
    with its 500 error, and it then still takes the backend for
    available. Only when the request itself throws does it show ["253"]
    and take the backend for unavailable. *)
Theorem full_list_shows_500_spots (fails : Query -> bool) (s : Store) :
  loadDynamicData (fetch_stats true fails s)
  = (if fails Count then "500"
     else if user_count s <? 500 then decimal (500 - user_count s)
     else "500", true)
  /\ loadDynamicData (fetch_stats false fails s) = ("253", false).
Proof.
  split; [|reflexivity].
  unfold fetch_stats, get_stats.
  destruct (fails Count); [reflexivity|].
  cbn [loadDynamicData Stats.spotsLeft].
  assert (N : 0 <= user_count s) by (unfold user_count; lia).
  rewrite parseInt_decimal_small by lia.
  unfold number_or, updateSpotsLeft.
  destruct (Z.ltb_spec (user_count s) 500) as [L|L].
  - rewrite Z.max_l by lia.
    assert ((500 - user_count s =? 0) = false) as -> by lia. reflexivity.
  - rewrite Z.max_r by lia. reflexivity.
Qed.
